(** * podcast-transcriber: a shallow embedding of [api_server.py]

  Definitions, in the order of their dependencies:
  - [PyStr]       the [str] operations the server relies on ([strip],
                  [isalnum], [startswith], slicing, zero-padded formatting);
  - [MD5]         [hashlib.md5(...).hexdigest()], RFC 1321, on byte lists;
  - [result]      a returned value or a raised exception;
  - [EpisodeId]   the identifier derivation inlined in both request handlers;
  - [DateTime]    [datetime] values as calendar records and as instants;
  - [PySort]      the stable descending sort of [sorted]/[list.sort], with
                  the [TypeError] of a [None] among the keys;
  - [Aggregator]  the body of [get_episodes];
  - [PyNum]       [//], [%], [*] and [int()] on [int] and binary64 [float];
  - [Normalizer]  one poll response of [transcribe_with_gladia];
  - [Json]        [json.dump(..., indent=2)] and [json.load] on the text of
                  [status.json];
  - [Registry]    [cleanup_old_tasks] and the updates of [background_tasks];
  - [Store]       [load_status] and [save_status], whole and in steps;
  - [Job]         [transcribe_episode] and what it calls, in a state and
                  exception monad over [World];
  - [Server]      the request handlers and the step relation of the server;
  - [Scenario]    what the outside world answers during a job, and what a
                  job may change, as predicates;
  - [Download]    the disk-space check of [download_audio], with what it
                  prints;
  - [Chrono]      the calendar fields of a datetime as a tuple.

  Python [str] values are modelled as [string]; every [ascii] stands for one
  code point below 256.  Python [int] is [Z], [float] is [PrimFloat.float],
  a [dict] with [str] keys is a [gmap string]. *)

From Stdlib Require Import ZArith List Ascii String Bool Lia Sorted Permutation Floats.
From stdpp Require Import base option list strings gmap.

Import ListNotations.
Local Open Scope string_scope.
Local Open Scope Z_scope.

(* ===================================================================== *)
(** ** Python string primitives *)
(* ===================================================================== *)

Module PyStr.

Definition code (c : ascii) : Z := Z.of_N (N_of_ascii c).
Definition chr (z : Z) : ascii := ascii_of_N (Z.to_N z).

(** [str.isspace] for one code point below 256: the characters whose
    bidirectional class is WS, B or S, or whose category is Zs. *)
Definition isspace (c : ascii) : bool :=
  let n := code c in
  ((9 <=? n) && (n <=? 13)) || ((28 <=? n) && (n <=? 32))
  || (n =? 133) || (n =? 160).

Fixpoint lstrip (s : string) : string :=
  match s with
  | String c s' => if isspace c then lstrip s' else s
  | EmptyString => EmptyString
  end.

(** [rstrip] walks to the end and drops a character only when everything
    after it has already been dropped. *)
Fixpoint rstrip (s : string) : string :=
  match s with
  | EmptyString => EmptyString
  | String c s' =>
      match rstrip s' with
      | EmptyString => if isspace c then EmptyString else String c EmptyString
      | r => String c r
      end
  end.

(** [s.strip()] *)
Definition strip (s : string) : string := rstrip (lstrip s).

(** [c.isalnum()] for one code point below 256: ASCII letters and digits,
    the Latin-1 letters, and the superscript digits and vulgar fractions. *)
Definition isalnum (c : ascii) : bool :=
  let n := code c in
  ((48 <=? n) && (n <=? 57)) || ((65 <=? n) && (n <=? 90))
  || ((97 <=? n) && (n <=? 122))
  || (n =? 170) || (n =? 178) || (n =? 179) || (n =? 181)
  || (n =? 185) || (n =? 186) || ((188 <=? n) && (n <=? 190))
  || ((192 <=? n) && (n <=? 214)) || ((216 <=? n) && (n <=? 246))
  || (248 <=? n).

(** Truthiness of a [str]: non-empty. *)
Definition truthy (s : string) : bool :=
  match s with EmptyString => false | _ => true end.

(** [s[:n]] for [n >= 0]. *)
Definition take (n : nat) (s : string) : string := substring 0 n s.

(** [s.startswith(p)] *)
Definition startswith (p s : string) : bool := String.prefix p s.

(** [join] on the empty separator. *)
Definition join (parts : list string) : string :=
  fold_right append EmptyString parts.

(** Decimal digits of a natural number, most significant first. *)
Fixpoint digits_fuel (fuel : nat) (n : Z) (acc : string) : string :=
  match fuel with
  | O => acc
  | S fuel' =>
      let acc' := String (chr (48 + n mod 10)) acc in
      if n / 10 =? 0 then acc' else digits_fuel fuel' (n / 10) acc'
  end.

Definition digits (n : Z) : string :=
  digits_fuel (S (Z.to_nat (Z.log2 n))) n EmptyString.

Fixpoint zeros (k : nat) : string :=
  match k with O => EmptyString | S k' => String "0" (zeros k') end.

(** [format(n, "0{w}d")]: the sign counts towards the width and the zeros
    go between the sign and the digits. *)
Definition fmt_0d (w : nat) (n : Z) : string :=
  let body := digits (Z.abs n) in
  if n <? 0
  then String "-" (zeros (w - 1 - String.length body)%nat +:+ body)
  else zeros (w - String.length body)%nat +:+ body.

(** [str(n)] for an [int]. *)
Definition str_int (n : Z) : string :=
  if n <? 0 then String "-" (digits (Z.abs n)) else digits n.

End PyStr.

(* ===================================================================== *)
(** ** [hashlib.md5]: RFC 1321 on byte lists *)
(* ===================================================================== *)

Module MD5.

Definition w32 (x : Z) : Z := x mod 2 ^ 32.
Definition not32 (x : Z) : Z := Z.lxor x 0xFFFFFFFF.
Definition rotl32 (x c : Z) : Z :=
  w32 (Z.lor (Z.shiftl x c) (Z.shiftr x (32 - c))).

(** [K[i] = floor(2^32 * |sin(i + 1)|)] *)
Definition K : list Z :=
  [ 0xd76aa478; 0xe8c7b756; 0x242070db; 0xc1bdceee;
    0xf57c0faf; 0x4787c62a; 0xa8304613; 0xfd469501;
    0x698098d8; 0x8b44f7af; 0xffff5bb1; 0x895cd7be;
    0x6b901122; 0xfd987193; 0xa679438e; 0x49b40821;
    0xf61e2562; 0xc040b340; 0x265e5a51; 0xe9b6c7aa;
    0xd62f105d; 0x02441453; 0xd8a1e681; 0xe7d3fbc8;
    0x21e1cde6; 0xc33707d6; 0xf4d50d87; 0x455a14ed;
    0xa9e3e905; 0xfcefa3f8; 0x676f02d9; 0x8d2a4c8a;
    0xfffa3942; 0x8771f681; 0x6d9d6122; 0xfde5380c;
    0xa4beea44; 0x4bdecfa9; 0xf6bb4b60; 0xbebfbc70;
    0x289b7ec6; 0xeaa127fa; 0xd4ef3085; 0x04881d05;
    0xd9d4d039; 0xe6db99e5; 0x1fa27cf8; 0xc4ac5665;
    0xf4292244; 0x432aff97; 0xab9423a7; 0xfc93a039;
    0x655b59c3; 0x8f0ccc92; 0xffeff47d; 0x85845dd1;
    0x6fa87e4f; 0xfe2ce6e0; 0xa3014314; 0x4e0811a1;
    0xf7537e82; 0xbd3af235; 0x2ad7d2bb; 0xeb86d391 ].

Definition shifts : list Z :=
  [ 7; 12; 17; 22; 7; 12; 17; 22; 7; 12; 17; 22; 7; 12; 17; 22;
    5;  9; 14; 20; 5;  9; 14; 20; 5;  9; 14; 20; 5;  9; 14; 20;
    4; 11; 16; 23; 4; 11; 16; 23; 4; 11; 16; 23; 4; 11; 16; 23;
    6; 10; 15; 21; 6; 10; 15; 21; 6; 10; 15; 21; 6; 10; 15; 21 ].

Record state := mk_state { sa : Z; sb : Z; sc : Z; sd : Z }.

Definition init : state :=
  mk_state 0x67452301 0xefcdab89 0x98badcfe 0x10325476.

(** One of the 64 operations of a block; [M] holds the block's 16 words. *)
Definition step (M : list Z) (st : state) (i : nat) : state :=
  let '(mk_state a b c d) := st in
  let iz := Z.of_nat i in
  let f :=
    if iz <? 16 then Z.lor (Z.land b c) (Z.land (not32 b) d)
    else if iz <? 32 then Z.lor (Z.land d b) (Z.land (not32 d) c)
    else if iz <? 48 then Z.lxor (Z.lxor b c) d
    else Z.lxor c (Z.lor b (not32 d)) in
  let g :=
    if iz <? 16 then iz
    else if iz <? 32 then (5 * iz + 1) mod 16
    else if iz <? 48 then (3 * iz + 5) mod 16
    else (7 * iz) mod 16 in
  let x := w32 (a + f + nth i K 0 + nth (Z.to_nat g) M 0) in
  mk_state d (w32 (b + rotl32 x (nth i shifts 0))) b c.

Definition process_block (st : state) (M : list Z) : state :=
  let st' := fold_left (step M) (seq 0 64) st in
  mk_state (w32 (sa st + sa st')) (w32 (sb st + sb st'))
           (w32 (sc st + sc st')) (w32 (sd st + sd st')).

(** Little-endian bytes of [x], [n] of them. *)
Fixpoint le_bytes (n : nat) (x : Z) : list Z :=
  match n with
  | O => []
  | S n' => x mod 256 :: le_bytes n' (x / 256)
  end.

Fixpoint le_word (bs : list Z) : Z :=
  match bs with
  | [] => 0
  | b :: bs' => b + 256 * le_word bs'
  end.

(** Append the bit 1, zeros up to 56 mod 64, and the bit length on 64 bits. *)
Definition pad (msg : list Z) : list Z :=
  let n := Z.of_nat (length msg) in
  msg ++ [128] ++ repeat 0 (Z.to_nat ((55 - n) mod 64))
      ++ le_bytes 8 ((8 * n) mod 2 ^ 64).

Fixpoint chunks (fuel : nat) (k : nat) (l : list Z) : list (list Z) :=
  match fuel, l with
  | O, _ | _, [] => []
  | S fuel', _ => firstn k l :: chunks fuel' k (skipn k l)
  end.

Definition words (block : list Z) : list Z :=
  map le_word (chunks 16 4 block).

Definition digest (msg : list Z) : list Z :=
  let p := pad msg in
  let st := fold_left process_block (map words (chunks (length p) 64 p)) init in
  le_bytes 4 (sa st) ++ le_bytes 4 (sb st) ++ le_bytes 4 (sc st) ++ le_bytes 4 (sd st).

Definition hex_digit (n : Z) : ascii :=
  if n <? 10 then PyStr.chr (48 + n) else PyStr.chr (87 + n).

Fixpoint hex (bs : list Z) : string :=
  match bs with
  | [] => EmptyString
  | b :: bs' => String (hex_digit (b / 16)) (String (hex_digit (b mod 16)) (hex bs'))
  end.

(** [s.encode()]: UTF-8 of a string of code points below 256. *)
Fixpoint encode (s : string) : list Z :=
  match s with
  | EmptyString => []
  | String c s' =>
      let n := PyStr.code c in
      if n <? 128 then n :: encode s'
      else Z.lor 0xC0 (Z.shiftr n 6) :: Z.lor 0x80 (Z.land n 0x3F) :: encode s'
  end.

(** [hashlib.md5(s.encode()).hexdigest()] *)
Definition hexdigest (s : string) : string := hex (digest (encode s)).

End MD5.

(* ===================================================================== *)
(** ** Exceptions and results *)
(* ===================================================================== *)

Inductive exn_kind :=
| TypeError | ValueError | KeyError | AttributeError | OverflowError
| RuntimeError | FileNotFoundError | JSONDecodeError | OSError
| HTTPException (status_code : Z).

(** An exception: its class and [str(e)]. *)
Record exn := mk_exn { exn_kind_of : exn_kind; exn_str : string }.

Inductive result (A : Type) :=
| Ok (a : A)
| Raise (e : exn).
Arguments Ok {A} a.
Arguments Raise {A} e.

Definition is_ok {A} (r : result A) : bool :=
match r with Ok _ => true | Raise _ => false end.

Global Instance result_ret : MRet result := fun A a => Ok a.
Global Instance result_bind : MBind result := fun A B k r =>
match r with Ok a => k a | Raise e => Raise e end.

(* ===================================================================== *)
(** ** Feed entries as the feed parser hands them over *)
(* ===================================================================== *)

Record Enclosure := { enc_type : string; enc_href : string }.

(** [time.struct_time]: a 9-tuple. *)
Record struct_time := {
tm_year : Z; tm_mon : Z; tm_mday : Z;
tm_hour : Z; tm_min : Z; tm_sec : Z;
tm_wday : Z; tm_yday : Z; tm_isdst : Z }.

(** An optional attribute of a parsed entry: missing, set to [None], or set. *)
Inductive attr (A : Type) :=
| Missing
| IsNone
| Val (a : A).
Arguments Missing {A}.
Arguments IsNone {A}.
Arguments Val {A} a.

Record Entry := {
entry_id : option string;
entry_title : option string;
entry_published : option string;
entry_published_parsed : attr struct_time;
entry_enclosures : list Enclosure }.

(** One element of [feeds.json]. *)
Record Feed := { feed_name : string; feed_rss : string }.

(* ===================================================================== *)
(** ** Episode identifiers *)
(* ===================================================================== *)

Module EpisodeId.

(** Lines 351-364 of [get_episodes]. *)
Definition get_episodes_id (feed : Feed) (entry : Entry) : string :=
  let base_id := default "" (entry_id entry) in
  let title := default "Unknown Title" (entry_title entry) in
  let episode_base :=
    if PyStr.truthy base_id then base_id
    else PyStr.take 12 (MD5.hexdigest title) in
  let feed_hash := PyStr.take 8 (MD5.hexdigest (feed_rss feed)) in
  feed_hash +:+ "_" +:+ episode_base.

(** Lines 435-448 of [start_transcription]. *)
Definition start_transcription_id (feed : Feed) (entry : Entry) : string :=
  let base_id := default "" (entry_id entry) in
  let title := default "Unknown Title" (entry_title entry) in
  let episode_base :=
    if PyStr.truthy base_id then base_id
    else PyStr.take 12 (MD5.hexdigest title) in
  let feed_hash := PyStr.take 8 (MD5.hexdigest (feed_rss feed)) in
  feed_hash +:+ "_" +:+ episode_base.

(** The derivation in the words of the specification, section 4.1. *)
Definition md5_hex_prefix (n : nat) (s : string) : string :=
  PyStr.take n (MD5.hexdigest s).

Definition spec_episode_base (entry : Entry) : string :=
  match entry_id entry with
  | Some i => if decide (i = "") then
                md5_hex_prefix 12 (default "Unknown Title" (entry_title entry))
              else i
  | None => md5_hex_prefix 12 (default "Unknown Title" (entry_title entry))
  end.

Definition derive_id (feed_url : string) (entry : Entry) : string :=
  md5_hex_prefix 8 feed_url +:+ "_" +:+ spec_episode_base entry.

End EpisodeId.

(* ===================================================================== *)
(** ** [datetime]: aware UTC instants *)
(* ===================================================================== *)

Module DateTime.

Definition is_leap (y : Z) : bool :=
  (y mod 4 =? 0) && (negb (y mod 100 =? 0) || (y mod 400 =? 0)).

Definition days_in_month (y m : Z) : Z :=
  if m =? 2 then (if is_leap y then 29 else 28)
  else if (m =? 4) || (m =? 6) || (m =? 9) || (m =? 11) then 30
  else 31.

Definition days_before_year (y : Z) : Z :=
  let p := y - 1 in p * 365 + p / 4 - p / 100 + p / 400.

Definition days_before_month (y m : Z) : Z :=
  nth (Z.to_nat m) [0; 0; 31; 59; 90; 120; 151; 181; 212; 243; 273; 304; 334] 0
  + (if (2 <? m) && is_leap y then 1 else 0).

(** Proleptic Gregorian ordinal, 1 for 0001-01-01. *)
Definition ymd2ord (y m d : Z) : Z :=
  days_before_year y + days_before_month y m + d.

(** A [datetime] with [tzinfo=timezone.utc]. *)
Record datetime := {
  year : Z; month : Z; day : Z;
  hour : Z; minute : Z; second : Z; microsecond : Z }.

Definition valid (d : datetime) : bool :=
  (1 <=? year d) && (year d <=? 9999)
  && (1 <=? month d) && (month d <=? 12)
  && (1 <=? day d) && (day d <=? days_in_month (year d) (month d))
  && (0 <=? hour d) && (hour d <=? 23)
  && (0 <=? minute d) && (minute d <=? 59)
  && (0 <=? second d) && (second d <=? 59)
  && (0 <=? microsecond d) && (microsecond d <=? 999999).

(** [datetime] built from the first six fields of [t], with [tzinfo=timezone.utc]. *)
Definition of_struct_time (t : struct_time) : result datetime :=
  let d := {| year := tm_year t; month := tm_mon t; day := tm_mday t;
              hour := tm_hour t; minute := tm_min t; second := tm_sec t;
              microsecond := 0 |} in
  if valid d then Ok d
  else Raise (mk_exn ValueError "datetime field is out of range").

(** Microseconds elapsed since 0001-01-01T00:00:00Z.  Two aware datetimes
    in the same zone compare as these numbers do. *)
Definition instant (d : datetime) : Z :=
  (((ymd2ord (year d) (month d) (day d) - 1) * 86400
    + hour d * 3600 + minute d * 60 + second d) * 1000000) + microsecond d.

Definition max_instant : Z := 3652059 * 86400 * 1000000 - 1.

(** [now - timedelta(days=days)], as an instant. *)
Definition minus_days (now : datetime) (days : Z) : result Z :=
  if (days <? -999999999) || (999999999 <? days)
  then Raise (mk_exn OverflowError "days out of range for timedelta")
  else
    let c := instant now - days * 86400 * 1000000 in
    if (c <? 0) || (max_instant <? c)
    then Raise (mk_exn OverflowError "date value out of range")
    else Ok c.

(** [d.isoformat()] for a UTC datetime; the fraction is printed only when
    the microseconds are not zero. *)
Definition isoformat (d : datetime) : string :=
  PyStr.fmt_0d 4 (year d) +:+ "-" +:+ PyStr.fmt_0d 2 (month d) +:+ "-"
  +:+ PyStr.fmt_0d 2 (day d) +:+ "T" +:+ PyStr.fmt_0d 2 (hour d) +:+ ":"
  +:+ PyStr.fmt_0d 2 (minute d) +:+ ":" +:+ PyStr.fmt_0d 2 (second d)
  +:+ (if microsecond d =? 0 then "" else "." +:+ PyStr.fmt_0d 6 (microsecond d))
  +:+ "+00:00".

End DateTime.

(* ===================================================================== *)
(** ** [sorted(..., key=..., reverse=True)] *)
(* ===================================================================== *)

Module PySort.

Section Sort.
Context {A K : Type}.
(** [ltb] is [<] on comparable keys; a key [None] stands for Python's
    [None], which supports no ordering comparison at all. *)
Variable ltb : K -> K -> bool.
Variable key : A -> option K.

Definition key_lt (x y : A) : bool :=
  match key x, key y with
  | Some a, Some b => ltb a b
  | _, _ => false
  end.

(** [x] goes in front of the first element that is not strictly greater:
    equal keys keep the order they had (the sort is stable, also with
    [reverse=True]). *)
Fixpoint insert_desc (x : A) (l : list A) : list A :=
  match l with
  | [] => [x]
  | y :: ys => if key_lt x y then y :: insert_desc x ys else x :: y :: ys
  end.

Fixpoint sort_desc (l : list A) : list A :=
  match l with
  | [] => []
  | x :: xs => insert_desc x (sort_desc xs)
  end.

(** Neighbours in descending order: the later one is never strictly greater. *)
Definition desc (x y : A) : Prop := key_lt x y = false.

Definition has_none (l : list A) : bool :=
  existsb (fun x => match key x with None => true | Some _ => false end) l.

(** With two elements or more every element takes part in a comparison,
    and comparing [None] raises [TypeError]; a list of fewer than two
    elements is returned without any comparison. *)
Definition sorted_desc (l : list A) : result (list A) :=
  if (2 <=? length l)%nat && has_none l
  then Raise (mk_exn TypeError "'<' not supported between instances of 'NoneType' and another type")
  else Ok (sort_desc l).

End Sort.

(** Tuples of integers compare lexicographically, a proper prefix first. *)
Fixpoint tuple_ltb (a b : list Z) : bool :=
  match a, b with
  | _, [] => false
  | [], _ :: _ => true
  | x :: a', y :: b' => (x <? y) || ((x =? y) && tuple_ltb a' b')
  end.

(** Strings compare by code point, a proper prefix first. *)
Fixpoint str_ltb (a b : string) : bool :=
  match a, b with
  | _, EmptyString => false
  | EmptyString, String _ _ => true
  | String x a', String y b' =>
      (PyStr.code x <? PyStr.code y) || ((PyStr.code x =? PyStr.code y) && str_ltb a' b')
  end.

End PySort.

(* ===================================================================== *)
(** ** The feed aggregator: [get_episodes] *)
(* ===================================================================== *)

(** A Status Record is a JSON object with string members; the Status Store
    maps episode identifiers to Status Records. *)
Abbreviation StatusRecord := (gmap string string).
Abbreviation StatusStore := (gmap string (gmap string string)).

(** The dictionary [episode_data]; [ep_pub_date_parsed = None] is the
    member whose value is [None]. *)
Record Episode := {
  ep_id : string;
  ep_podcast_name : string;
  ep_title : string;
  ep_pub_date : string;
  ep_pub_date_parsed : option string;
  ep_audio_url : string;
  ep_status : string }.

Module Aggregator.

(** The first enclosure whose type starts with [audio/] decides. *)
Fixpoint find_audio (enclosures : list Enclosure) : option string :=
  match enclosures with
  | [] => None
  | enclosure :: rest =>
      if PyStr.startswith "audio/" (enc_type enclosure)
      then Some (enc_href enclosure)
      else find_audio rest
  end.

(** [audio_url] after the enclosure loop, when it is truthy. *)
Definition audio_of (entry : Entry) : option string :=
  match find_audio (entry_enclosures entry) with
  | Some href => if PyStr.truthy href then Some href else None
  | None => None
  end.

Definition st_tuple (t : struct_time) : list Z :=
  [tm_year t; tm_mon t; tm_mday t; tm_hour t; tm_min t; tm_sec t;
   tm_wday t; tm_yday t; tm_isdst t].

(** [x.get('published_parsed', (0,0,0,0,0,0,0,0,0))] *)
Definition entry_sort_key (x : Entry) : option (list Z) :=
  match entry_published_parsed x with
  | Missing => Some [0; 0; 0; 0; 0; 0; 0; 0; 0]
  | IsNone => None
  | Val t => Some (st_tuple t)
  end.

(** [pub_date_parsed], lines 371-373. *)
Definition pub_date_parsed_of (entry : Entry) : result (option DateTime.datetime) :=
  match entry_published_parsed entry with
  | Val t => d ← DateTime.of_struct_time t; Ok (Some d)
  | _ => Ok None
  end.

(** [status.get(episode_id, {}).get("status", "pending")] *)
Definition status_of (status : StatusStore) (episode_id : string) : string :=
  default "pending" (default ∅ (status !! episode_id) !! "status").

(** The dictionary literal of lines 379-387. *)
Definition episode_data_of (feed : Feed) (status : StatusStore) (entry : Entry)
    (audio_url : string) (pub_date_parsed : option DateTime.datetime) : Episode :=
  let episode_id := EpisodeId.get_episodes_id feed entry in
  {| ep_id := episode_id;
     ep_podcast_name := feed_name feed;
     ep_title := default "Unknown Title" (entry_title entry);
     ep_pub_date := default "" (entry_published entry);
     ep_pub_date_parsed := DateTime.isoformat <$> pub_date_parsed;
     ep_audio_url := audio_url;
     ep_status := status_of status episode_id |}.

(** [pub_date_parsed and pub_date_parsed < cutoff_date] *)
Definition too_old (pub_date_parsed : option DateTime.datetime) (cutoff_date : Z) : bool :=
  match pub_date_parsed with
  | Some d => DateTime.instant d <? cutoff_date
  | None => false
  end.

(** How the loop over one feed's sorted entries ended. *)
Inductive loop_end :=
| Exhausted
| Broke
| Raised (e : exn).

(** The body of [for entry in sorted_entries], lines 339-389.  The list
    [all_episodes] is shared by all feeds and appended to in place, so what
    was appended before a [break] or an exception stays. *)
Fixpoint scan_entries (feed : Feed) (status : StatusStore) (cutoff_date : Z)
    (sorted_entries : list Entry) (all_episodes : list Episode)
  : list Episode * loop_end :=
  match sorted_entries with
  | [] => (all_episodes, Exhausted)
  | entry :: rest =>
      match audio_of entry with
      | None => scan_entries feed status cutoff_date rest all_episodes
      | Some audio_url =>
          match pub_date_parsed_of entry with
          | Raise e => (all_episodes, Raised e)
          | Ok pub_date_parsed =>
              if too_old pub_date_parsed cutoff_date
              then (all_episodes, Broke)
              else
                scan_entries feed status cutoff_date rest
                  (all_episodes
                     ++ [episode_data_of feed status entry audio_url pub_date_parsed])
          end
      end
  end.

(** One turn of [for feed in feeds]: the [try] body, with every exception
    swallowed by the handler. *)
Definition process_feed (parse : string -> result (list Entry))
    (status : StatusStore) (cutoff_date : Z)
    (all_episodes : list Episode) (feed : Feed) : list Episode :=
  match parse (feed_rss feed) with
  | Raise _ => all_episodes
  | Ok [] => all_episodes
  | Ok entries =>
      match PySort.sorted_desc PySort.tuple_ltb entry_sort_key entries with
      | Raise _ => all_episodes
      | Ok sorted_entries =>
          fst (scan_entries feed status cutoff_date sorted_entries all_episodes)
      end
  end.

(** [all_episodes] when the loop over the feeds is done (line 393). *)
Definition collect (parse : string -> result (list Entry)) (feeds : list Feed)
    (status : StatusStore) (cutoff_date : Z) : list Episode :=
  fold_left (process_feed parse status cutoff_date) feeds [].

(** [ep] is the episode of an audio entry among [entries] whose parsed date,
    if it has one, is not before the cutoff. *)
Definition built_from (status : StatusStore) (cutoff_date : Z)
    (feed : Feed) (entries : list Entry) (ep : Episode) : Prop :=
  exists entry audio_url pd,
    In entry entries /\ audio_of entry = Some audio_url
    /\ pub_date_parsed_of entry = Ok pd
    /\ (forall d, pd = Some d -> cutoff_date <= DateTime.instant d)
    /\ ep = episode_data_of feed status entry audio_url pd.

(** An audio entry that neither raises in [datetime] nor triggers the [break]. *)
Definition in_range (cutoff_date : Z) (entry : Entry) : Prop :=
  forall a, audio_of entry = Some a ->
  exists pd, pub_date_parsed_of entry = Ok pd /\ too_old pd cutoff_date = false.

(** [l[:limit]] *)
Definition slice_to {A} (limit : Z) (l : list A) : list A :=
  if limit <? 0
  then firstn (Z.to_nat (Z.of_nat (length l) + limit)) l
  else firstn (Z.to_nat limit) l.

(** Lines 314-400, on the feeds and the Status Store already loaded. *)
Definition list_episodes (parse : string -> result (list Entry))
    (feeds : list Feed) (status : StatusStore)
    (now : DateTime.datetime) (limit days : Z) : result (list Episode) :=
  cutoff_date ← DateTime.minus_days now days;
  let all_episodes := collect parse feeds status cutoff_date in
  sorted ← PySort.sorted_desc PySort.str_ltb ep_pub_date_parsed all_episodes;
  Ok (slice_to limit sorted).

End Aggregator.

(* ===================================================================== *)
(** ** Python numbers: [int] and [float] *)
(* ===================================================================== *)

Module PyNum.

Inductive number :=
| PyInt (n : Z)
| PyFloat (f : float).

(** The integer [n] as a binary64 number, rounded to nearest even. *)
Definition of_Z (n : Z) : float := SF2Prim (binary_normalize 53 1024 n 0 false).

Definition signed (s : bool) (m : positive) : Z := if s then Z.neg m else Z.pos m.

(** C's [fmod]: the exact remainder of the truncated division, with the
    sign of [x]. *)
Definition fmod (x y : float) : float :=
  match Prim2SF x, Prim2SF y with
  | S754_nan, _ | _, S754_nan | S754_infinity _, _ | _, S754_zero _ => nan
  | S754_zero _, _ | S754_finite _ _ _, S754_infinity _ => x
  | S754_finite sx mx ex, S754_finite _ my ey =>
      let e := Z.min ex ey in
      let r := Z.rem (Z.pos mx * 2 ^ (ex - e)) (Z.pos my * 2 ^ (ey - e)) in
      if r =? 0 then (if sx then (-0)%float else 0%float)
      else SF2Prim (binary_normalize 53 1024 (if sx then - r else r) e false)
  end.

(** C's [floor]. *)
Definition floor (x : float) : float :=
  match Prim2SF x with
  | S754_finite s m e =>
      if 0 <=? e then x
      else of_Z (Z.shiftr (signed s m) (- e))
  | _ => x
  end.

Definition copysign (x y : float) : float :=
  if xorb (PrimFloat.get_sign x) (PrimFloat.get_sign y) then (- x)%float else x.

Definition is_zero (x : float) : bool :=
  match Prim2SF x with S754_zero _ => true | _ => false end.

(** [float_rem] of floatobject.c, for a divisor other than zero. *)
Definition float_rem (vx wx : float) : float :=
  let mod_ := fmod vx wx in
  if negb (is_zero mod_) && negb (PrimFloat.is_nan mod_) then
    if xorb (wx <? 0)%float (mod_ <? 0)%float then (mod_ + wx)%float else mod_
  else if PrimFloat.is_nan mod_ then mod_
  else copysign 0%float wx.

(** [float_floor_div], through [_float_div_mod]. *)
Definition float_floor_div (vx wx : float) : float :=
  let mod_ := fmod vx wx in
  let div := ((vx - mod_) / wx)%float in
  let div :=
    if negb (is_zero mod_) && negb (PrimFloat.is_nan mod_)
       && xorb (wx <? 0)%float (mod_ <? 0)%float
    then (div - 1)%float else div in
  if negb (is_zero div) then
    let floordiv := floor div in
    if (0.5 <? div - floordiv)%float then (floordiv + 1)%float else floordiv
  else copysign 0%float (vx / wx)%float.

(** [a // d], [a % d] and [a * k] for an [int] constant on the right. *)
Definition floordiv (a : number) (d : Z) : number :=
  match a with
  | PyInt n => PyInt (n / d)
  | PyFloat x => PyFloat (float_floor_div x (of_Z d))
  end.

Definition modulo (a : number) (d : Z) : number :=
  match a with
  | PyInt n => PyInt (n mod d)
  | PyFloat x => PyFloat (float_rem x (of_Z d))
  end.

Definition times (a : number) (k : Z) : number :=
  match a with
  | PyInt n => PyInt (n * k)
  | PyFloat x => PyFloat (x * of_Z k)%float
  end.

(** [int(a)]: truncation towards zero. *)
Definition to_int (a : number) : result Z :=
  match a with
  | PyInt n => Ok n
  | PyFloat x =>
      match Prim2SF x with
      | S754_zero _ => Ok 0
      | S754_finite s m e =>
          Ok (if 0 <=? e then signed s m * 2 ^ e
              else Z.quot (signed s m) (2 ^ (- e)))
      | S754_infinity _ =>
          Raise (mk_exn OverflowError "cannot convert float infinity to integer")
      | S754_nan => Raise (mk_exn ValueError "cannot convert float NaN to integer")
      end
  end.

End PyNum.

(* ===================================================================== *)
(** ** The provider's poll response and its normalization *)
(* ===================================================================== *)

(** A speaker label: a string or a number. *)
Inductive label :=
| LStr (s : string)
| LInt (n : Z).

Record Utterance := {
  utt_speaker : option label;
  utt_text : option string;
  utt_start : option PyNum.number }.

Record Segment := {
  seg_speaker : option label;
  seg_text : option string }.

(** The members of a [transcription] object that the code looks at. *)
Record TranscriptionObject := {
  t_utterances : option (list Utterance);
  t_full_transcript : option string;
  t_segments : option (list Segment) }.

(** The value under [transcription]: an object, or something else
    (a string or [null]). *)
Inductive TranscriptionValue :=
| TObject (o : TranscriptionObject)
| TText (s : string)
| TNull.

(** The value under [result] when it is an object.  [r_full_transcript] is
    a root-level [full_transcript] member; no line of the code reads it. *)
Record ResultObject := {
  r_transcription : option TranscriptionValue;
  r_utterances : option (list Utterance);
  r_segments : option (list Segment);
  r_full_transcript : option string }.

(** The JSON body of a poll response. *)
Record PollData := {
  p_status : string;
  p_result : attr ResultObject;
  p_error_code : option label }.

(** What a function hands back: a [str] or [None]. *)
Inductive pyval :=
| VStr (s : string)
| VNone.

Module Normalizer.

Definition nl : string := String (ascii_of_nat 10) EmptyString.

(** [str(x)] inside an f-string. *)
Definition show (x : label) : string :=
  match x with
  | LStr s => s
  | LInt n => PyStr.str_int n
  end.

(** Lines 159-162 (and again 193-196): seconds to [MM:SS.mmm]. *)
Definition timestamp (start_time : PyNum.number) : result string :=
  minutes ← PyNum.to_int (PyNum.floordiv start_time 60);
  seconds ← PyNum.to_int (PyNum.modulo start_time 60);
  milliseconds ← PyNum.to_int (PyNum.times (PyNum.modulo start_time 1) 1000);
  Ok (PyStr.fmt_0d 2 minutes +:+ ":" +:+ PyStr.fmt_0d 2 seconds +:+ "."
      +:+ PyStr.fmt_0d 3 milliseconds).

(** The loop of lines 152-164 over [transcription_data["utterances"]]. *)
Fixpoint nested_utterance_lines (utterances : list Utterance) (lines : list string)
  : result (list string) :=
  match utterances with
  | [] => Ok lines
  | utterance :: rest =>
      let speaker := default (LStr "Unknown") (utt_speaker utterance) in
      let text := default "" (utt_text utterance) in
      let start_time := default (PyNum.PyInt 0) (utt_start utterance) in
      if PyStr.truthy (PyStr.strip text) then
        ts ← timestamp start_time;
        nested_utterance_lines rest
          (lines ++ ["Speaker " +:+ show speaker +:+ " | " +:+ ts +:+ nl
                     +:+ text +:+ nl +:+ nl])
      else nested_utterance_lines rest lines
  end.

(** The loop of lines 173-177 over [transcription_data["segments"]]. *)
Fixpoint nested_segment_lines (segments : list Segment) (lines : list string)
  : list string :=
  match segments with
  | [] => lines
  | segment :: rest =>
      let speaker := default (LStr "Unknown") (seg_speaker segment) in
      let text := default "" (seg_text segment) in
      if PyStr.truthy (PyStr.strip text)
      then nested_segment_lines rest
             (lines ++ ["[" +:+ show speaker +:+ "]: " +:+ text +:+ nl])
      else nested_segment_lines rest lines
  end.

(** The loop of lines 186-198 over [data["result"]["utterances"]]. *)
Fixpoint root_utterance_lines (utterances : list Utterance) (lines : list string)
  : result (list string) :=
  match utterances with
  | [] => Ok lines
  | utterance :: rest =>
      let speaker := default (LStr "Unknown") (utt_speaker utterance) in
      let text := default "" (utt_text utterance) in
      let start_time := default (PyNum.PyInt 0) (utt_start utterance) in
      if PyStr.truthy (PyStr.strip text) then
        ts ← timestamp start_time;
        root_utterance_lines rest
          (lines ++ ["Speaker " +:+ show speaker +:+ " | " +:+ ts +:+ nl
                     +:+ text +:+ nl +:+ nl])
      else root_utterance_lines rest lines
  end.

(** The loop of lines 203-207 over [data["result"]["segments"]]. *)
Fixpoint root_segment_lines (segments : list Segment) (lines : list string)
  : list string :=
  match segments with
  | [] => lines
  | segment :: rest =>
      let speaker := default (LStr "Unknown") (seg_speaker segment) in
      let text := default "" (seg_text segment) in
      if PyStr.truthy (PyStr.strip text)
      then root_segment_lines rest
             (lines ++ ["[" +:+ show speaker +:+ "]: " +:+ text +:+ nl])
      else root_segment_lines rest lines
  end.

(** The rendering in the words of the specification, section 4.3. *)

(** The text is kept when something is left of it after trimming. *)
Definition has_text (text : option string) : bool :=
  PyStr.truthy (PyStr.strip (default "" text)).

Definition utterance_block (u : Utterance) : result string :=
  ts ← timestamp (default (PyNum.PyInt 0) (utt_start u));
  Ok ("Speaker " +:+ show (default (LStr "Unknown") (utt_speaker u)) +:+ " | " +:+ ts
      +:+ nl +:+ default "" (utt_text u) +:+ nl +:+ nl).

Definition segment_line (s : Segment) : string :=
  "[" +:+ show (default (LStr "Unknown") (seg_speaker s)) +:+ "]: "
  +:+ default "" (seg_text s) +:+ nl.

Inductive shape :=
| UtteranceList (utterances : list Utterance)
| FullTranscript (text : string)
| SegmentList (segments : list Segment).

Definition render (sh : shape) : result string :=
  match sh with
  | UtteranceList utterances =>
      blocks ← mapM utterance_block
                 (List.filter (fun u => has_text (utt_text u)) utterances);
      Ok (PyStr.strip (PyStr.join blocks))
  | FullTranscript text => Ok text
  | SegmentList segments =>
      Ok (PyStr.strip (PyStr.join
            (map segment_line (List.filter (fun s => has_text (seg_text s)) segments))))
  end.

(** Inside a [transcription] object: (a) utterances, (b) full transcript,
    (c) segments, in this order. *)
Definition nested_shape (o : TranscriptionObject) : option shape :=
  match t_utterances o, t_full_transcript o, t_segments o with
  | Some utterances, _, _ => Some (UtteranceList utterances)
  | None, Some text, _ => Some (FullTranscript text)
  | None, None, Some segments => Some (SegmentList segments)
  | None, None, None => None
  end.

(** At the result root: (a) utterances, then (c) segments. *)
Definition root_shape (r : ResultObject) : option shape :=
  match r_utterances r, r_segments r with
  | Some utterances, _ => Some (UtteranceList utterances)
  | None, Some segments => Some (SegmentList segments)
  | None, None => None
  end.

(** What one turn of the polling loop does after reading the response. *)
Inductive poll_step :=
| Return (v : pyval)
| Fail (e : exn)
| Sleep.

Definition of_result (r : result string) : poll_step :=
  match r with
  | Ok s => Return (VStr s)
  | Raise e => Fail e
  end.

(** Lines 145-210: the branch [status == "done"].  An object under
    [transcription] with none of the three members matches no [elif] and no
    [else]: control leaves the [if] and reaches [time.sleep(10)]. *)
Definition on_done (data : PollData) : poll_step :=
  match p_result data with
  | Missing => Fail (mk_exn KeyError "'result'")
  | IsNone => Fail (mk_exn RuntimeError "No transcription data found in result.")
  | Val result =>
      match r_transcription result with
      | Some transcription_data =>
          match transcription_data with
          | TObject o =>
              match t_utterances o, t_full_transcript o, t_segments o with
              | Some utterances, _, _ =>
                  of_result (lines ← nested_utterance_lines utterances [];
                             Ok (PyStr.strip (PyStr.join lines)))
              | None, Some full_transcript, _ => Return (VStr full_transcript)
              | None, None, Some segments =>
                  Return (VStr (PyStr.strip (PyStr.join (nested_segment_lines segments []))))
              | None, None, None => Sleep
              end
          | TText s => Return (VStr s)
          | TNull => Return VNone
          end
      | None =>
          match r_utterances result, r_segments result with
          | Some utterances, _ =>
              of_result (lines ← root_utterance_lines utterances [];
                         Ok (PyStr.strip (PyStr.join lines)))
          | None, Some segments =>
              Return (VStr (PyStr.strip (PyStr.join (root_segment_lines segments []))))
          | None, None =>
              Fail (mk_exn RuntimeError "No transcription data found in result.")
          end
      end
  end.

(** Lines 141-215 without the message update: one response. *)
Definition on_response (data : PollData) : poll_step :=
  if decide (p_status data = "done") then on_done data
  else if decide (p_status data = "error") then
    Fail (mk_exn RuntimeError
            ("Transcription failed: "
             +:+ show (default (LStr "Unknown error") (p_error_code data))))
  else Sleep.

End Normalizer.

(* ===================================================================== *)
(** ** [json.dump(..., indent=2)] and [json.load] on the Status Store *)
(* ===================================================================== *)

Module Json.

Definition dq : ascii := ascii_of_nat 34.
Definition bs : ascii := ascii_of_nat 92.
Definition nl : string := String (ascii_of_nat 10) EmptyString.

Definition hex4 (n : Z) : string :=
  String (MD5.hex_digit (n / 4096 mod 16)) (String (MD5.hex_digit (n / 256 mod 16))
    (String (MD5.hex_digit (n / 16 mod 16)) (String (MD5.hex_digit (n mod 16)) EmptyString))).

(** [py_encode_basestring_ascii] on one character: the two-character
    escapes, then a [u] escape for everything outside space..tilde. *)
Definition escape_char (c : ascii) : string :=
  let n := PyStr.code c in
  if n =? 34 then String bs (String dq EmptyString)
  else if n =? 92 then String bs (String bs EmptyString)
  else if n =? 10 then String bs "n"
  else if n =? 13 then String bs "r"
  else if n =? 9 then String bs "t"
  else if n =? 12 then String bs "f"
  else if n =? 8 then String bs "b"
  else if (n <? 32) || (126 <? n) then String bs (String "u" (hex4 n))
  else String c EmptyString.

Fixpoint escape (s : string) : string :=
  match s with
  | EmptyString => EmptyString
  | String c s' => escape_char c +:+ escape s'
  end.

Definition quote (s : string) : string :=
  String dq (escape s +:+ String dq EmptyString).

Fixpoint join_with (sep : string) (parts : list string) : string :=
  match parts with
  | [] => EmptyString
  | [p] => p
  | p :: rest => p +:+ sep +:+ join_with sep rest
  end.

(** An object at nesting depth [pad]: members one per line, indented. *)
Definition dump_object {V} (dump_value : V -> string) (inner outer : string)
    (items : list (string * V)) : string :=
  match items with
  | [] => "{}"
  | _ =>
      "{" +:+ nl
      +:+ join_with ("," +:+ nl)
            (map (fun kv => inner +:+ quote (fst kv) +:+ ": " +:+ dump_value (snd kv)) items)
      +:+ nl +:+ outer +:+ "}"
  end.

Definition dump_record (r : StatusRecord) : string :=
  dump_object quote "    " "  " (map_to_list r).

(** The text [json.dump(status, f, indent=2)] writes. *)
Definition dumps (status : StatusStore) : string :=
  dump_object dump_record "  " "" (map_to_list status).

(** The text of a non-empty object from its first key on, followed by
    [tail]: what the decoder faces after the opening brace and the blanks. *)
Fixpoint members_text {V} (dump_value : V -> string) (inner outer : string)
    (items : list (string * V)) (tail : string) : string :=
  match items with
  | [] => tail
  | kv :: rest =>
      quote (fst kv) +:+ ": " +:+ dump_value (snd kv)
      +:+ match rest with
          | [] => nl +:+ outer +:+ "}" +:+ tail
          | _ => "," +:+ nl +:+ inner +:+ members_text dump_value inner outer rest tail
          end
  end.

(** Decoding. *)

Definition is_ws (c : ascii) : bool :=
  let n := PyStr.code c in (n =? 32) || (n =? 9) || (n =? 10) || (n =? 13).

Fixpoint skip_ws (s : string) : string :=
  match s with
  | String c s' => if is_ws c then skip_ws s' else s
  | EmptyString => EmptyString
  end.

(** Strings of blanks. *)
Fixpoint blank (s : string) : bool :=
  match s with
  | EmptyString => true
  | String c s' => is_ws c && blank s'
  end.

Definition hex_val (c : ascii) : option Z :=
  let n := PyStr.code c in
  if (48 <=? n) && (n <=? 57) then Some (n - 48)
  else if (97 <=? n) && (n <=? 102) then Some (n - 87)
  else if (65 <=? n) && (n <=? 70) then Some (n - 55)
  else None.

Definition unescape (e : ascii) : option ascii :=
  let n := PyStr.code e in
  if n =? 34 then Some dq
  else if n =? 92 then Some bs
  else if n =? 47 then Some "/"%char
  else if n =? 98 then Some (ascii_of_nat 8)
  else if n =? 102 then Some (ascii_of_nat 12)
  else if n =? 110 then Some (ascii_of_nat 10)
  else if n =? 114 then Some (ascii_of_nat 13)
  else if n =? 116 then Some (ascii_of_nat 9)
  else None.

Definition cons_fst (c : ascii) (r : option (string * string)) : option (string * string) :=
  match r with
  | Some (a, rest) => Some (String c a, rest)
  | None => None
  end.

(** The characters of a string literal after its opening quote, up to the
    closing one.  A [u] escape above 255 is outside the modelled alphabet. *)
Fixpoint scan_string (s : string) : option (string * string) :=
  match s with
  | EmptyString => None
  | String c s' =>
      if Ascii.eqb c dq then Some (EmptyString, s')
      else if Ascii.eqb c bs then
        match s' with
        | EmptyString => None
        | String e s'' =>
            if Ascii.eqb e "u" then
              match s'' with
              | String h1 (String h2 (String h3 (String h4 t))) =>
                  match hex_val h1, hex_val h2, hex_val h3, hex_val h4 with
                  | Some a, Some b, Some c', Some d =>
                      let n := ((a * 16 + b) * 16 + c') * 16 + d in
                      if n <? 256 then cons_fst (PyStr.chr n) (scan_string t) else None
                  | _, _, _, _ => None
                  end
              | _ => None
              end
            else
              match unescape e with
              | Some c' => cons_fst c' (scan_string s'')
              | None => None
              end
        end
      else if PyStr.code c <? 32 then None
      else cons_fst c (scan_string s')
  end.

Definition parse_string (s : string) : option (string * string) :=
  match s with
  | String c s' => if Ascii.eqb c dq then scan_string s' else None
  | EmptyString => None
  end.

Definition expect (c : ascii) (s : string) : option string :=
  match s with
  | String c' s' => if Ascii.eqb c c' then Some s' else None
  | EmptyString => None
  end.

Section Object.
Context {V : Type}.
Variable parse_value : string -> option (V * string).

(** Members after the opening brace, the text standing at a key. *)
Fixpoint parse_members (fuel : nat) (s : string) : option (list (string * V) * string) :=
  match fuel with
  | O => None
  | S fuel' =>
      '(k, s1) ← parse_string s;
      s2 ← expect ":" (skip_ws s1);
      '(v, s3) ← parse_value (skip_ws s2);
      match skip_ws s3 with
      | String c s4 =>
          if Ascii.eqb c "," then
            '(items, rest) ← parse_members fuel' (skip_ws s4);
            Some ((k, v) :: items, rest)
          else if Ascii.eqb c "}" then Some ([(k, v)], s4)
          else None
      | EmptyString => None
      end
  end.

(** An object: the brace, then nothing or members.  Every member takes at
    least one character, so the length of the text bounds their number. *)
Definition parse_object (s : string) : option (list (string * V) * string) :=
  s1 ← expect "{" s;
  match skip_ws s1 with
  | String c s2 =>
      if Ascii.eqb c "}" then Some ([], s2)
      else parse_members (String.length s1) (skip_ws s1)
  | EmptyString => None
  end.

End Object.

(** A later member replaces an earlier one of the same name. *)
Definition dict_of {V} (items : list (string * V)) : gmap string V :=
  list_to_map (reverse items).

Definition parse_record (s : string) : option (StatusRecord * string) :=
  '(items, rest) ← parse_object parse_string s;
  Some (dict_of items, rest).

(** [json.load] on the whole text of the file: an object of objects of
    strings, and nothing but white space after it. *)
Definition loads (text : string) : result StatusStore :=
  match parse_object parse_record (skip_ws text) with
  | Some (items, rest) =>
      match skip_ws rest with
      | EmptyString => Ok (dict_of items)
      | _ => Raise (mk_exn JSONDecodeError "Extra data")
      end
  | None => Raise (mk_exn JSONDecodeError "Expecting value")
  end.

End Json.

(* ===================================================================== *)
(** ** Server state *)
(* ===================================================================== *)

(** A Task Record.  [created_at] holds what [datetime.now().isoformat()]
    wrote, read back by [datetime.fromisoformat]; it is kept as the datetime
    itself. *)
Record TaskRecord := {
  task_type : string;
  task_status : string;
  task_message : string;
  task_episode_title : string;
  task_created_at : option DateTime.datetime }.

(** The dictionary [target_episode] handed to a job. *)
Record EpisodeData := {
  ed_id : option string;
  ed_podcast_name : option string;
  ed_title : option string;
  ed_audio_url : option string }.

(** The process and its working directory: the global [background_tasks],
    the text of [status.json] when the file exists, whether the file can be
    opened for writing, the transcript files by path, and the jobs handed to
    threads that have not run yet. *)
Record World := {
  background_tasks : gmap string TaskRecord;
  status_file : option string;
  status_writable : bool;
  transcripts : gmap string string;
  threads : list (EpisodeData * string) }.

Definition set_tasks (w : World) (tasks : gmap string TaskRecord) : World :=
  {| background_tasks := tasks; status_file := status_file w;
     status_writable := status_writable w; transcripts := transcripts w;
     threads := threads w |}.

Definition set_status_file (w : World) (text : option string) : World :=
  {| background_tasks := background_tasks w; status_file := text;
     status_writable := status_writable w; transcripts := transcripts w;
     threads := threads w |}.

Definition set_transcripts (w : World) (files : gmap string string) : World :=
  {| background_tasks := background_tasks w; status_file := status_file w;
     status_writable := status_writable w; transcripts := files;
     threads := threads w |}.

Definition set_threads (w : World) (ts : list (EpisodeData * string)) : World :=
  {| background_tasks := background_tasks w; status_file := status_file w;
     status_writable := status_writable w; transcripts := transcripts w;
     threads := ts |}.

(* ===================================================================== *)
(** ** The Task Registry sweep: [cleanup_old_tasks] *)
(* ===================================================================== *)

Module Registry.

(** ['2000-01-01'], the default of [task_data.get('created_at', ...)]. *)
Definition default_created_at : DateTime.datetime :=
  {| DateTime.year := 2000; DateTime.month := 1; DateTime.day := 1;
     DateTime.hour := 0; DateTime.minute := 0; DateTime.second := 0;
     DateTime.microsecond := 0 |}.

(** [task_data.get('status') in ['completed', 'error']] *)
Definition is_terminal (status : string) : bool :=
  bool_decide (status = "completed") || bool_decide (status = "error").

(** [(current_time - created_at).total_seconds() > 3600].  The difference
    is a whole number of microseconds; [total_seconds] divides it by 10^6,
    correctly rounded, which exceeds 3600 exactly when the count exceeds
    3600 * 10^6. *)
Definition expired (current_time created_at : DateTime.datetime) : bool :=
  3600 * 1000000 <? DateTime.instant current_time - DateTime.instant created_at.

(** The condition under which the first loop appends [task_id]. *)
Definition to_remove (current_time : DateTime.datetime) (task_data : TaskRecord) : bool :=
  is_terminal (task_status task_data)
  && expired current_time (default default_created_at (task_created_at task_data)).

(** Lines 41-48: the identifiers collected by the first loop. *)
Definition tasks_to_remove (current_time : DateTime.datetime)
    (tasks : gmap string TaskRecord) : list string :=
  omap (fun kv => if to_remove current_time (snd kv) then Some (fst kv) else None)
       (map_to_list tasks).

(** Lines 50-51: [del background_tasks[task_id]] for each of them. *)
Definition cleanup_old_tasks (current_time : DateTime.datetime)
    (tasks : gmap string TaskRecord) : gmap string TaskRecord :=
  foldl (fun m task_id => delete task_id m) tasks (tasks_to_remove current_time tasks).

(** [background_tasks[task_id][field] = value]; [KeyError] when the task
    is not registered. *)
Definition update (task_id : string) (f : TaskRecord -> TaskRecord)
    (tasks : gmap string TaskRecord) : result (gmap string TaskRecord) :=
  match tasks !! task_id with
  | Some r => Ok (<[task_id := f r]> tasks)
  | None => Raise (mk_exn KeyError ("'" +:+ task_id +:+ "'"))
  end.

Definition with_status (s : string) (r : TaskRecord) : TaskRecord :=
  {| task_type := task_type r; task_status := s; task_message := task_message r;
     task_episode_title := task_episode_title r; task_created_at := task_created_at r |}.

Definition with_message (m : string) (r : TaskRecord) : TaskRecord :=
  {| task_type := task_type r; task_status := task_status r; task_message := m;
     task_episode_title := task_episode_title r; task_created_at := task_created_at r |}.

End Registry.

(* ===================================================================== *)
(** ** The Status Store: [load_status] and [save_status] *)
(* ===================================================================== *)

Module Store.

(** [load_status]: only a missing file is handled. *)
Definition load_status (w : World) : result StatusStore :=
  match status_file w with
  | None => Ok ∅
  | Some text => Json.loads text
  end.

(** [save_status], run to its end: [open(STATUS_FILE, 'w')] truncates the
    file, [json.dump] writes the text, leaving the [with] block closes it. *)
Definition save_status (status : StatusStore) (w : World) : result World :=
  if status_writable w
  then Ok (set_status_file w (Some (Json.dumps status)))
  else Raise (mk_exn OSError "[Errno 13] Permission denied: 'status.json'").

(** Every record of the mapping is a terminal one. *)
Definition all_terminal (status : StatusStore) : Prop :=
  forall episode_id r,
    status !! episode_id = Some r ->
    r !! "status" = Some "completed" \/ r !! "status" = Some "error".

(** The file loads, and what it holds are terminal records. *)
Definition sound (w : World) : Prop :=
  exists status, load_status w = Ok status /\ all_terminal status.

(** The same call in steps, to see the file in between: [open] truncates,
    the text reaches the file piece by piece, the end of the [with] block
    closes it.  [Opened k]: the first [k] characters are in the file. *)
Inductive save_point :=
| Before
| Opened (k : nat)
| Closed.

Inductive save_step (text : string) : save_point -> save_point -> Prop :=
| save_open : save_step text Before (Opened 0)
| save_write k k' :
    (k < k')%nat -> (k' <= String.length text)%nat ->
    save_step text (Opened k) (Opened k')
| save_close : save_step text (Opened (String.length text)) Closed.

Inductive save_reaches (text : string) : save_point -> Prop :=
| reaches_start : save_reaches text Before
| reaches_step p p' : save_reaches text p -> save_step text p p' -> save_reaches text p'.

Definition file_at (old : option string) (text : string) (p : save_point) : option string :=
  match p with
  | Before => old
  | Opened k => Some (PyStr.take k text)
  | Closed => Some text
  end.

(** The world left behind when the process stops at [p] while saving. *)
Definition stopped_at (status : StatusStore) (p : save_point) (w : World) : World :=
  set_status_file w (file_at (status_file w) (Json.dumps status) p).

(** Two saves at once.  Each [open] truncates the file and starts its own
    offset at zero; each writer puts its text at its own offset, over what
    is there. *)
Inductive writer := WriterA | WriterB.

Inductive file_op :=
| OpOpen
| OpWrite (data : string)
| OpClose.

Record file_state := {
  content : string;
  offset_a : nat;
  offset_b : nat }.

Definition drop (n : nat) (s : string) : string :=
  substring n (String.length s - n) s.

Definition write_at (file : string) (offset : nat) (data : string) : string :=
  PyStr.take offset file +:+ data +:+ drop (offset + String.length data) file.

Definition file_do (st : file_state) (who : writer) (op : file_op) : file_state :=
  match op, who with
  | OpOpen, WriterA => {| content := ""; offset_a := 0; offset_b := offset_b st |}
  | OpOpen, WriterB => {| content := ""; offset_a := offset_a st; offset_b := 0 |}
  | OpWrite data, WriterA =>
      {| content := write_at (content st) (offset_a st) data;
         offset_a := offset_a st + String.length data; offset_b := offset_b st |}
  | OpWrite data, WriterB =>
      {| content := write_at (content st) (offset_b st) data;
         offset_a := offset_a st; offset_b := offset_b st + String.length data |}
  | OpClose, _ => st
  end.

Definition run_schedule (schedule : list (writer * file_op)) (st : file_state)
  : file_state :=
  fold_left (fun st ev => file_do st (fst ev) (snd ev)) schedule st.

End Store.

(* ===================================================================== *)
(** ** The transcription job *)
(* ===================================================================== *)

(** What the outside world answers during one job: the file system, the
    audio host and the transcription provider. *)
Record JobEnv := {
  je_makedirs : result unit;
  je_audio_present : bool;
  je_download : result unit;
  je_read_audio : result unit;
  je_upload : result string;
  je_submit : result (option string);
  je_polls : list (result PollData);
  je_write_transcript : result unit;
  je_now : DateTime.datetime }.

Module Job.

(** [sanitize_filename] *)
Fixpoint sanitize_filename (s : string) : string :=
  match s with
  | EmptyString => EmptyString
  | String c s' =>
      String (if PyStr.isalnum c || Ascii.eqb c "_" || Ascii.eqb c "-" then c else "_"%char)
             (sanitize_filename s')
  end.

(** [download_audio].  The disk-space check sits in a [try] whose handler
    catches the [RuntimeError] it raises and prints a warning, so it never
    stops a download. *)
Definition download_audio (env : JobEnv) (folder : string) : result string :=
  let local_path := folder +:+ "/audio.mp3" in
  if je_audio_present env then Ok local_path
  else _ ← je_download env; Ok local_path.

(** How far a computation got: it returned, it raised, or it is still in
    the polling loop when the scripted answers end. *)
Inductive run (A : Type) :=
| Finished (r : result A)
| Polling.
Arguments Finished {A} r.
Arguments Polling {A}.

(** Statements run against the world; what was written before an exception
    stays written. *)
Definition M (A : Type) : Type := World -> World * run A.

Definition ret {A} (a : A) : M A := fun w => (w, Finished (Ok a)).
Definition raise {A} (e : exn) : M A := fun w => (w, Finished (Raise e)).
Definition lift {A} (r : result A) : M A := fun w => (w, Finished r).

Definition bindM {A B} (m : M A) (k : A -> M B) : M B := fun w =>
  match m w with
  | (w', Finished (Ok a)) => k a w'
  | (w', Finished (Raise e)) => (w', Finished (Raise e))
  | (w', Polling) => (w', Polling)
  end.

Notation "x <~ m ;; k" := (bindM m (fun x => k))
  (at level 100, m at next level, right associativity).
Notation "m ;;; k" := (bindM m (fun _ => k))
  (at level 100, right associativity).

(** The task has a record in the registry. *)
Definition registered (task_id : string) (w : World) : Prop :=
  is_Some (background_tasks w !! task_id).

(** Statements that leave [status.json] alone. *)
Definition keeps_files {A} (m : M A) : Prop :=
  forall w, status_file (fst (m w)) = status_file w
            /\ status_writable (fst (m w)) = status_writable w.

(** Statements that remove no task from the registry. *)
Definition keeps_registered {A} (task_id : string) (m : M A) : Prop :=
  forall w, registered task_id w -> registered task_id (fst (m w)).

(** Statements that keep the Status Store sound. *)
Definition keeps_sound {A} (m : M A) : Prop :=
  forall w, Store.sound w -> Store.sound (fst (m w)).

(** [background_tasks[task_id][...] = ...] *)
Definition set_task (task_id : string) (f : TaskRecord -> TaskRecord) : M unit := fun w =>
  match Registry.update task_id f (background_tasks w) with
  | Ok tasks => (set_tasks w tasks, Finished (Ok tt))
  | Raise e => (w, Finished (Raise e))
  end.

Definition load_status : M StatusStore := fun w => (w, Finished (Store.load_status w)).

Definition save_status (status : StatusStore) : M unit := fun w =>
  match Store.save_status status w with
  | Ok w' => (w', Finished (Ok tt))
  | Raise e => (w, Finished (Raise e))
  end.

(** The [while True] loop of [transcribe_with_gladia], lines 137-215, over
    the answers the provider gives to the successive requests. *)
Fixpoint poll_loop (task_id : string) (answers : list (result PollData)) : M pyval :=
  match answers with
  | [] => fun w => (w, Polling)
  | answer :: rest =>
      data <~ lift answer;;
      set_task task_id
        (Registry.with_message ("Transcription status: " +:+ p_status data));;;
      match Normalizer.on_response data with
      | Normalizer.Return v => ret v
      | Normalizer.Fail e => raise e
      | Normalizer.Sleep => poll_loop task_id rest
      end
  end.

(** Lines 103-215: the body of the [try] in [transcribe_with_gladia]. *)
Definition upload_and_poll (env : JobEnv) (task_id : string) : M pyval :=
  lift (je_read_audio env);;;
  lift (je_upload env);;;
  result_url <~ lift (je_submit env);;
  if PyStr.truthy (default "" result_url)
  then poll_loop task_id (je_polls env)
  else raise (mk_exn RuntimeError "No result_url in response").

(** [transcribe_with_gladia]: the handler of line 217 turns every
    exception into a [RuntimeError]. *)
Definition transcribe_with_gladia (env : JobEnv) (task_id : string) : M pyval := fun w =>
  match upload_and_poll env task_id w with
  | (w', Finished (Raise e)) =>
      (w', Finished (Raise (mk_exn RuntimeError ("Transcription error: " +:+ exn_str e))))
  | other => other
  end.

(** [save_transcript].  The file is opened for writing, hence created or
    emptied, before [f.write] rejects a value that is not a [str]. *)
Definition save_transcript (env : JobEnv) (folder : string) (transcript_text : pyval)
  : M string :=
  let file_path := folder +:+ "/transcript.txt" in
  lift (je_write_transcript env);;;
  fun w =>
    match transcript_text with
    | VStr text =>
        (set_transcripts w (<[file_path := text]> (transcripts w)),
         Finished (Ok file_path))
    | VNone =>
        (set_transcripts w (<[file_path := ""]> (transcripts w)),
         Finished (Raise (mk_exn TypeError "write() argument must be str, not None")))
    end.

(** The record written on success, lines 256-262. *)
Definition completed_record (transcript_path completed_at podcast_name episode_title : string)
  : StatusRecord :=
  <["status" := "completed"]> (<["transcript_path" := transcript_path]>
    (<["completed_at" := completed_at]> (<["podcast_name" := podcast_name]>
      (<["episode_title" := episode_title]> ∅)))).

(** The record written on failure, lines 276-282. *)
Definition error_record (error failed_at podcast_name episode_title : string)
  : StatusRecord :=
  <["status" := "error"]> (<["error" := error]>
    (<["failed_at" := failed_at]> (<["podcast_name" := podcast_name]>
      (<["episode_title" := episode_title]> ∅)))).

(** [datetime.now().isoformat()] for a naive datetime. *)
Definition naive_isoformat (d : DateTime.datetime) : string :=
  PyStr.fmt_0d 4 (DateTime.year d) +:+ "-" +:+ PyStr.fmt_0d 2 (DateTime.month d) +:+ "-"
  +:+ PyStr.fmt_0d 2 (DateTime.day d) +:+ "T" +:+ PyStr.fmt_0d 2 (DateTime.hour d) +:+ ":"
  +:+ PyStr.fmt_0d 2 (DateTime.minute d) +:+ ":" +:+ PyStr.fmt_0d 2 (DateTime.second d)
  +:+ (if DateTime.microsecond d =? 0 then ""
       else "." +:+ PyStr.fmt_0d 6 (DateTime.microsecond d)).

(** The [try] block of [transcribe_episode] up to the saved transcript,
    lines 231-252. *)
Definition run_stages (env : JobEnv) (episode_data : EpisodeData) (task_id : string)
  : M string :=
  set_task task_id (Registry.with_status "running");;;
  set_task task_id (Registry.with_message "Starting transcription...");;;
  let podcast_name := default "podcast" (ed_podcast_name episode_data) in
  let episode_title := default "episode" (ed_title episode_data) in
  let audio_url := default "" (ed_audio_url episode_data) in
  if negb (PyStr.truthy audio_url)
  then raise (mk_exn ValueError "No audio URL provided")
  else
    let folder_name := sanitize_filename (podcast_name +:+ "_" +:+ episode_title) in
    let folder_path := "episodes/" +:+ folder_name in
    lift (je_makedirs env);;;
    set_task task_id (Registry.with_message "Downloading audio...");;;
    audio_path <~ lift (download_audio env folder_path);;
    set_task task_id (Registry.with_message "Transcribing audio...");;;
    transcript <~ transcribe_with_gladia env task_id;;
    save_transcript env folder_path transcript.

(** The rest of the [try] block, lines 254-268: update the status. *)
Definition record_success (env : JobEnv) (episode_data : EpisodeData) (task_id : string)
    (transcript_path : string) : M string :=
  let podcast_name := default "podcast" (ed_podcast_name episode_data) in
  let episode_title := default "episode" (ed_title episode_data) in
  let episode_id := default "" (ed_id episode_data) in
  status <~ load_status;;
  save_status
    (<[episode_id := completed_record transcript_path (naive_isoformat (je_now env))
                       podcast_name episode_title]> status);;;
  set_task task_id (Registry.with_status "completed");;;
  set_task task_id
    (Registry.with_message ("Transcription complete: " +:+ transcript_path));;;
  ret transcript_path.

Definition try_block (env : JobEnv) (episode_data : EpisodeData) (task_id : string)
  : M string :=
  transcript_path <~ run_stages env episode_data task_id;;
  record_success env episode_data task_id transcript_path.

(** The handler, lines 270-285.  Nothing guards its own statements: an
    exception raised here leaves the function. *)
Definition except_block (env : JobEnv) (episode_data : EpisodeData) (task_id : string)
    (e : exn) : M pyval :=
  let podcast_name := default "podcast" (ed_podcast_name episode_data) in
  let episode_title := default "episode" (ed_title episode_data) in
  let episode_id := default "" (ed_id episode_data) in
  set_task task_id (Registry.with_status "error");;;
  set_task task_id (Registry.with_message ("Error: " +:+ exn_str e));;;
  status <~ load_status;;
  save_status
    (<[episode_id := error_record (exn_str e) (naive_isoformat (je_now env))
                       podcast_name episode_title]> status);;;
  ret VNone.

(** [transcribe_episode] *)
Definition transcribe_episode (env : JobEnv) (episode_data : EpisodeData)
    (task_id : string) : M pyval := fun w =>
  match try_block env episode_data task_id w with
  | (w', Polling) => (w', Polling)
  | (w', Finished (Ok transcript_path)) => (w', Finished (Ok (VStr transcript_path)))
  | (w', Finished (Raise e)) => except_block env episode_data task_id e w'
  end.

End Job.

(* ===================================================================== *)
(** ** The request handlers *)
(* ===================================================================== *)

(** What a handler reads from outside the process: the contents of
    [feeds.json], the feed parser, and the clocks. *)
Record Outside := {
  feeds : list Feed;
  parse : string -> result (list Entry);
  now_utc : DateTime.datetime;
  now_local : DateTime.datetime;
  time_time : Z }.

(** The body [{"task_id": ..., "message": ...}]. *)
Record Started := { st_task_id : string; st_message : string }.

Module Server.

(** [GET /episodes] *)
Definition get_episodes (o : Outside) (limit days : Z) (w : World)
  : World * result (list Episode) :=
  let w1 := set_tasks w (Registry.cleanup_old_tasks (now_local o) (background_tasks w)) in
  (w1, status ← Store.load_status w1;
       Aggregator.list_episodes (parse o) (feeds o) status (now_utc o) limit days).

(** The loop of lines 423-457 over one feed's entries, in feed order. *)
Fixpoint find_entry (feed : Feed) (episode_id : string) (entries : list Entry)
  : option EpisodeData :=
  match entries with
  | [] => None
  | entry :: rest =>
      match Aggregator.audio_of entry with
      | None => find_entry feed episode_id rest
      | Some audio_url =>
          let current_episode_id := EpisodeId.start_transcription_id feed entry in
          if decide (current_episode_id = episode_id) then
            Some {| ed_id := Some episode_id;
                    ed_podcast_name := Some (feed_name feed);
                    ed_title := Some (default "Unknown Title" (entry_title entry));
                    ed_audio_url := Some audio_url |}
          else find_entry feed episode_id rest
      end
  end.

(** The loop of lines 409-463 over the feeds; a feed that fails to parse
    is reported and skipped. *)
Fixpoint find_episode (parse : string -> result (list Entry)) (episode_id : string)
    (feeds : list Feed) : option EpisodeData :=
  match feeds with
  | [] => None
  | feed :: rest =>
      match parse (feed_rss feed) with
      | Raise _ => find_episode parse episode_id rest
      | Ok entries =>
          match find_entry feed episode_id entries with
          | Some target_episode => Some target_episode
          | None => find_episode parse episode_id rest
          end
      end
  end.

(** Some entry of a feed that parses carries an audio enclosure and the
    identifier [episode_id]. *)
Definition resolves (o : Outside) (episode_id : string) : Prop :=
  exists feed entries entry audio_url,
    In feed (feeds o) /\ parse o (feed_rss feed) = Ok entries
    /\ In entry entries /\ Aggregator.audio_of entry = Some audio_url
    /\ EpisodeId.derive_id (feed_rss feed) entry = episode_id.

(** The Status Store marks the episode as completed. *)
Definition marked_completed (status : StatusStore) (episode_id : string) : Prop :=
  exists r, status !! episode_id = Some r /\ r !! "status" = Some "completed".

(** [episode_id in status and status[episode_id].get("status") == "completed"] *)
Definition already_completed (status : StatusStore) (episode_id : string) : bool :=
  match status !! episode_id with
  | Some r => bool_decide (r !! "status" = Some "completed")
  | None => false
  end.

Definition pending_record (o : Outside) (target_episode : EpisodeData) : TaskRecord :=
  {| task_type := "transcribe";
     task_status := "pending";
     task_message := "Starting...";
     task_episode_title := default "" (ed_title target_episode);
     task_created_at := Some (now_local o) |}.

(** [POST /transcribe/{episode_id}] *)
Definition start_transcription (o : Outside) (episode_id : string) (w : World)
  : World * result Started :=
  match find_episode (parse o) episode_id (feeds o) with
  | None => (w, Raise (mk_exn (HTTPException 404) "Episode not found"))
  | Some target_episode =>
      match Store.load_status w with
      | Raise e => (w, Raise e)
      | Ok status =>
          if already_completed status episode_id
          then (w, Raise (mk_exn (HTTPException 400) "Episode already transcribed"))
          else
            let task_id :=
              "transcribe_" +:+ episode_id +:+ "_" +:+ PyStr.str_int (time_time o) in
            let w1 := set_tasks w (<[task_id := pending_record o target_episode]>
                                     (background_tasks w)) in
            let w2 := set_threads w1 (threads w1 ++ [(target_episode, task_id)]) in
            (w2, Ok {| st_task_id := task_id;
                       st_message := "Transcription task started" |})
      end
  end.

(** [GET /task-status/{task_id}] *)
Definition get_task_status (task_id : string) (w : World) : result TaskRecord :=
  match background_tasks w !! task_id with
  | Some r => Ok r
  | None => Raise (mk_exn (HTTPException 404) "Task not found")
  end.

(** [GET /transcript/{episode_id}]: the record and the text of the file.
    The read happens inside a [try] that answers 500, but a path that
    exists always reads here. *)
Definition get_transcript (episode_id : string) (w : World)
  : result (StatusRecord * string) :=
  status ← Store.load_status w;
  match status !! episode_id with
  | None => Raise (mk_exn (HTTPException 404) "Episode not found")
  | Some episode_status =>
      if negb (bool_decide (episode_status !! "status" = Some "completed"))
      then Raise (mk_exn (HTTPException 400) "Episode not yet transcribed")
      else
        match episode_status !! "transcript_path" with
        | None => Raise (mk_exn (HTTPException 404) "Transcript file not found")
        | Some transcript_path =>
            match (if PyStr.truthy transcript_path
                   then transcripts w !! transcript_path else None) with
            | None => Raise (mk_exn (HTTPException 404) "Transcript file not found")
            | Some transcript => Ok (episode_status, transcript)
            end
        end
  end.

(** [GET /status] *)
Definition get_all_status (w : World) : result StatusStore := Store.load_status w.

(** One thing the process does: answer a request, or run a job that a
    request handed to a thread. *)
Inductive step : World -> World -> Prop :=
| step_get_episodes o limit days w :
    step w (fst (get_episodes o limit days w))
| step_start_transcription o episode_id w :
    step w (fst (start_transcription o episode_id w))
| step_read_only w :
    step w w
| step_job env episode_data task_id before after w :
    threads w = (before ++ (episode_data, task_id) :: after)%list ->
    step w (fst (Job.transcribe_episode env episode_data task_id
                   (set_threads w (before ++ after)%list))).

Inductive steps : World -> World -> Prop :=
| steps_refl w : steps w w
| steps_step w1 w2 w3 : steps w1 w2 -> step w2 w3 -> steps w1 w3.

End Server.

(* ===================================================================== *)
(** ** Runs of a job, described from outside *)
(* ===================================================================== *)

Module Scenario.

(** The folder a job works in, lines 243-244 of [transcribe_episode], and
    the transcript file [save_transcript] writes there. *)
Definition folder_path (episode_data : EpisodeData) : string :=
  "episodes/"
  +:+ Job.sanitize_filename
        (default "podcast" (ed_podcast_name episode_data) +:+ "_"
         +:+ default "episode" (ed_title episode_data)).

Definition transcript_path (episode_data : EpisodeData) : string :=
  folder_path episode_data +:+ "/transcript.txt".

(** The episode data carries an audio URL that is not empty. *)
Definition has_audio_url (episode_data : EpisodeData) : Prop :=
  exists audio_url, ed_audio_url episode_data = Some audio_url /\ audio_url <> "".

(** The folder can be made, the audio file is there or can be downloaded,
    the upload and the submission are accepted and name a result URL. *)
Definition reaches_polling (env : JobEnv) : Prop :=
  je_makedirs env = Ok tt
  /\ (je_audio_present env = true \/ je_download env = Ok tt)
  /\ je_read_audio env = Ok tt
  /\ (exists audio_url, je_upload env = Ok audio_url)
  /\ (exists result_url, je_submit env = Ok (Some result_url) /\ result_url <> "").

(** The provider's answers: responses after which the loop sleeps, then
    [data]. *)
Definition polls_end_with (env : JobEnv) (data : PollData) : Prop :=
  exists sleeps rest,
    je_polls env = (map Ok sleeps ++ Ok data :: rest)%list
    /\ Forall (fun d => Normalizer.on_response d = Normalizer.Sleep) sleeps.

(** What may differ between two worlds when only the Task Record of
    [task_id], the Status Record of [episode_id] and the file [path] were
    written. *)
Definition changes_only (task_id episode_id path : string) (w w' : World) : Prop :=
  (forall t, t <> task_id -> background_tasks w' !! t = background_tasks w !! t)
  /\ (is_Some (background_tasks w' !! task_id) <-> is_Some (background_tasks w !! task_id))
  /\ (forall p, p <> path -> transcripts w' !! p = transcripts w !! p)
  /\ threads w' = threads w
  /\ status_writable w' = status_writable w
  /\ (forall status,
        Store.load_status w = Ok status ->
        exists status',
          Store.load_status w' = Ok status'
          /\ forall k, k <> episode_id -> status' !! k = status !! k).

(** A statement whose effect stays inside the relation [R]. *)
Definition within {A} (R : World -> World -> Prop) (m : Job.M A) : Prop :=
  forall w, R w (fst (m w)).

(** Every job waiting for its thread was built by [start_transcription]:
    it has an identifier, a podcast name, a title and an audio URL that is
    not empty. *)
Definition queued_ok (w : World) : Prop :=
  forall episode_data task_id,
    In (episode_data, task_id) (threads w) ->
    exists episode_id podcast_name title audio_url,
      episode_data = {| ed_id := Some episode_id;
                        ed_podcast_name := Some podcast_name;
                        ed_title := Some title;
                        ed_audio_url := Some audio_url |}
      /\ audio_url <> "".

(** Every Task Record is one that [start_transcription] created and a job
    may have updated: its type is [transcribe], it has a [created_at], and
    its status is one of the four the code writes. *)
Definition registry_ok (w : World) : Prop :=
  forall task_id r,
    background_tasks w !! task_id = Some r ->
    task_type r = "transcribe"
    /\ is_Some (task_created_at r)
    /\ (task_status r = "pending" \/ task_status r = "running"
        \/ task_status r = "completed" \/ task_status r = "error").

End Scenario.

(* ===================================================================== *)
(** ** The disk-space check of [download_audio] *)
(* ===================================================================== *)

Module Download.

(** Lines 84-91.  [usage] is what [shutil.disk_usage(folder)] answers, the
    triple (total, used, free) or an exception.  The [RuntimeError] raised
    on a small [free] is raised inside the [try] and caught by its handler,
    like any exception of [disk_usage]; the handler prints one line.  The
    result is what was printed. *)
Definition check_disk_space (usage : result (Z * Z * Z)) : list string :=
  let checked : result unit :=
    match usage with
    | Raise e => Raise e
    | Ok (total, used, free) =>
        if free <? 50 * 1024 * 1024
        then Raise (mk_exn RuntimeError
                      ("Insufficient disk space. Only "
                       +:+ PyStr.str_int (free / (1024 * 1024)) +:+ "MB available"))
        else Ok tt
    end in
  match checked with
  | Ok _ => []
  | Raise e => ["Warning: Could not check disk space: " +:+ exn_str e]
  end.

(** [download_audio], lines 78-98, with the check: what it returns or
    raises, and what it printed. *)
Definition download_audio (env : JobEnv) (usage : result (Z * Z * Z)) (folder : string)
  : result string * list string :=
  let local_path := folder +:+ "/audio.mp3" in
  if je_audio_present env then (Ok local_path, [])
  else
    let printed := check_disk_space usage in
    (_ ← je_download env; Ok local_path, printed).

End Download.

(* ===================================================================== *)
(** ** Calendar order *)
(* ===================================================================== *)

Module Chrono.

(** The calendar fields of a datetime, most significant first. *)
Definition fields (d : DateTime.datetime) : list Z :=
  [DateTime.year d; DateTime.month d; DateTime.day d;
   DateTime.hour d; DateTime.minute d; DateTime.second d].

End Chrono.
(* ===================================================================== *)
(** ** Sample data used by the examples and counterexamples below *)
(* ===================================================================== *)

Module Sample.

Definition pod : Feed :=
  {| feed_name := "Pod"; feed_rss := "https://example.com/feed.xml" |}.

Definition mp3 : Enclosure :=
  {| enc_type := "audio/mpeg"; enc_href := "https://example.com/a.mp3" |}.

Definition utc (y mo d h mi s : Z) : struct_time :=
  {| tm_year := y; tm_mon := mo; tm_mday := d; tm_hour := h; tm_min := mi;
     tm_sec := s; tm_wday := 0; tm_yday := 1; tm_isdst := 0 |}.

(** Published 2024-01-02 03:04:05 UTC. *)
Definition recent : Entry :=
  {| entry_id := Some "ep-recent"; entry_title := Some "Recent";
     entry_published := Some "Tue, 02 Jan 2024 03:04:05 GMT";
     entry_published_parsed := Val (utc 2024 1 2 3 4 5);
     entry_enclosures := [mp3] |}.

(** Published 2023-01-01 00:00:00 UTC. *)
Definition old : Entry :=
  {| entry_id := Some "ep-old"; entry_title := Some "Old";
     entry_published := Some "Sun, 01 Jan 2023 00:00:00 GMT";
     entry_published_parsed := Val (utc 2023 1 1 0 0 0);
     entry_enclosures := [mp3] |}.

(** No publication date at all. *)
Definition undated : Entry :=
  {| entry_id := Some "ep-undated"; entry_title := Some "Undated";
     entry_published := None;
     entry_published_parsed := Missing;
     entry_enclosures := [mp3] |}.

(** The clock reads 2024-01-10 12:00:00 UTC. *)
Definition now : DateTime.datetime :=
  {| DateTime.year := 2024; DateTime.month := 1; DateTime.day := 10;
     DateTime.hour := 12; DateTime.minute := 0; DateTime.second := 0;
     DateTime.microsecond := 0 |}.

(** A parser that knows one feed. *)
Definition serve (entries : list Entry) (url : string) : result (list Entry) :=
  if decide (url = feed_rss pod) then Ok entries else Ok [].

(** Provider responses. *)
Definition hello : Utterance :=
  {| utt_speaker := Some (LStr "A"); utt_text := Some "hello";
     utt_start := Some (PyNum.PyFloat 65.5) |}.

(** An utterance whose text is one space. *)
Definition space : Utterance :=
  {| utt_speaker := Some (LStr "A"); utt_text := Some " ";
     utt_start := Some (PyNum.PyInt 0) |}.

Definition no_members : TranscriptionObject :=
  {| t_utterances := None; t_full_transcript := None; t_segments := None |}.

Definition nested (o : TranscriptionObject) : ResultObject :=
  {| r_transcription := Some (TObject o); r_utterances := None;
     r_segments := None; r_full_transcript := None |}.

Definition done (r : ResultObject) : PollData :=
  {| p_status := "done"; p_result := Val r; p_error_code := None |}.

(** [{"transcription": {"utterances": [u, ...]}}] *)
Definition nested_utterances (us : list Utterance) : PollData :=
  done (nested {| t_utterances := Some us; t_full_transcript := None;
                  t_segments := None |}).

(** [{"utterances": [u, ...]}] *)
Definition root_utterances (us : list Utterance) : PollData :=
  done {| r_transcription := None; r_utterances := Some us;
          r_segments := None; r_full_transcript := None |}.

(** [{"transcription": {"full_transcript": text}}] *)
Definition nested_full (text : string) : PollData :=
  done (nested {| t_utterances := None; t_full_transcript := Some text;
                  t_segments := None |}).

(** [{"full_transcript": text}] *)
Definition root_full (text : string) : PollData :=
  done {| r_transcription := None; r_utterances := None;
          r_segments := None; r_full_transcript := Some text |}.

(** [{"transcription": {}}] *)
Definition empty_transcription : PollData := done (nested no_members).

(** [{"transcription": null}] *)
Definition null_transcription : PollData :=
  done {| r_transcription := Some TNull; r_utterances := None;
          r_segments := None; r_full_transcript := None |}.

(** A job for the recent episode. *)
Definition target : EpisodeData :=
  {| ed_id := Some "f7880620_ep-recent"; ed_podcast_name := Some "Pod";
     ed_title := Some "Recent"; ed_audio_url := Some "https://example.com/a.mp3" |}.

Definition task : string := "transcribe_f7880620_ep-recent_1704888000".

Definition pending : TaskRecord :=
  {| task_type := "transcribe"; task_status := "pending"; task_message := "Starting...";
     task_episode_title := "Recent"; task_created_at := Some now |}.

(** The task is registered, there is no [status.json] yet. *)
Definition world (writable : bool) : World :=
  {| background_tasks := {[ task := pending ]}; status_file := None;
     status_writable := writable; transcripts := ∅; threads := [] |}.

(** Everything works and the provider answers [done] with a full
    transcript at the second poll. *)
Definition env_ok : JobEnv :=
  {| je_makedirs := Ok tt; je_audio_present := false; je_download := Ok tt;
     je_read_audio := Ok tt; je_upload := Ok "https://api.gladia.io/file/1";
     je_submit := Ok (Some "https://api.gladia.io/v2/pre-recorded/1");
     je_polls := [Ok {| p_status := "processing"; p_result := IsNone;
                        p_error_code := None |};
                  Ok (nested_full "hi there")];
     je_write_transcript := Ok tt; je_now := now |}.

(** The audio host answers 404. *)
Definition env_no_audio : JobEnv :=
  {| je_makedirs := Ok tt; je_audio_present := false;
     je_download := Raise (mk_exn OSError "404 Client Error: Not Found");
     je_read_audio := Ok tt; je_upload := Ok "https://api.gladia.io/file/1";
     je_submit := Ok (Some "https://api.gladia.io/v2/pre-recorded/1");
     je_polls := []; je_write_transcript := Ok tt; je_now := now |}.

(** Two stores: one holding a completed record, one holding a failed one. *)
Definition store_completed : StatusStore :=
  {[ "f7880620_ep-recent" :=
       Job.completed_record "episodes/Pod_Recent/transcript.txt"
         "2024-01-10T12:00:00" "Pod" "Recent" ]}.

Definition store_error : StatusStore :=
  {[ "f7880620_ep-old" :=
       Job.error_record "boom" "2024-01-10T12:00:00" "Pod" "Old" ]}.

(** [status.json] holds the first of them. *)
Definition world_completed : World :=
  {| background_tasks := ∅; status_file := Some (Json.dumps store_completed);
     status_writable := true; transcripts := ∅; threads := [] |}.

(** What the handlers see from outside: one feed with the recent episode. *)
Definition outside : Outside :=
  {| feeds := [pod]; parse := serve [recent];
     now_utc := now; now_local := now; time_time := 1704888000 |}.

(** A response of a transcription still in progress. *)
Definition processing : PollData :=
  {| p_status := "processing"; p_result := IsNone; p_error_code := None |}.

(** The provider answers [done] with [{"transcription": null}]. *)
Definition env_null : JobEnv :=
  {| je_makedirs := Ok tt; je_audio_present := true; je_download := Ok tt;
     je_read_audio := Ok tt; je_upload := Ok "https://api.gladia.io/file/1";
     je_submit := Ok (Some "https://api.gladia.io/v2/pre-recorded/1");
     je_polls := [Ok processing; Ok null_transcription];
     je_write_transcript := Ok tt; je_now := now |}.

(** The provider reports the status [error]. *)
Definition env_provider_error : JobEnv :=
  {| je_makedirs := Ok tt; je_audio_present := true; je_download := Ok tt;
     je_read_audio := Ok tt; je_upload := Ok "https://api.gladia.io/file/1";
     je_submit := Ok (Some "https://api.gladia.io/v2/pre-recorded/1");
     je_polls := [Ok processing;
                  Ok {| p_status := "error"; p_result := IsNone;
                        p_error_code := Some (LInt 500) |}];
     je_write_transcript := Ok tt; je_now := now |}.

End Sample.

(* ===================================================================== *)
(** * Properties *)
(* ===================================================================== *)

(** Let [simpl] compute the concatenation of a literal with a string. *)
Local Arguments String.append !s1 s2 : simpl nomatch.

Example strip_ex : PyStr.strip "  hi there
 " = "hi there".
Proof. reflexivity. Qed.

Example fmt_ex : PyStr.fmt_0d 3 7 = "007" /\ PyStr.fmt_0d 2 123 = "123"
               /\ PyStr.fmt_0d 2 0 = "00" /\ PyStr.fmt_0d 3 (-5) = "-05".
Proof. repeat split; reflexivity. Qed.

(** The RFC 1321 test suite, and one message longer than a block. *)
Example md5_rfc_empty : MD5.hexdigest "" = "d41d8cd98f00b204e9800998ecf8427e".
Proof. vm_compute. reflexivity. Qed.

Example md5_rfc_a : MD5.hexdigest "a" = "0cc175b9c0f1b6a831c399e269772661".
Proof. vm_compute. reflexivity. Qed.

Example md5_rfc_abc : MD5.hexdigest "abc" = "900150983cd24fb0d6963f7d28e17f72".
Proof. vm_compute. reflexivity. Qed.

Example md5_two_blocks :
MD5.hexdigest "xxxxxxxxxxxxxxxxxxxxxxxxxxxxxxxxxxxxxxxxxxxxxxxxxxxxxxxxxxxxxxxxxxxxxx"
= "7d56c0f83fd1e320d60ea2f13dfdeedd".
Proof. vm_compute. reflexivity. Qed.

Example md5_unknown_title :
MD5.hexdigest "Unknown Title" = "3ff03eb2bab0a1640ae2a6d4bc91b100".
Proof. vm_compute. reflexivity. Qed.

(* ===================================================================== *)
(** ** Results *)
(* ===================================================================== *)

Lemma bind_Ok_inv {A B} (r : result A) (k : A -> result B) (b : B) :
  r ≫= k = Ok b -> exists a, r = Ok a /\ k a = Ok b.
Proof. destruct r as [a|e]; [intros H; now exists a|discriminate]. Qed.

Lemma bind_Raise_inv {A B} (r : result A) (k : A -> result B) (e : exn) :
  r ≫= k = Raise e -> r = Raise e \/ exists a, r = Ok a /\ k a = Raise e.
Proof. destruct r as [a|e']; [intros H; right; now exists a|intros [= ->]; now left]. Qed.

(* ===================================================================== *)
(** ** Episode identifiers *)
(* ===================================================================== *)

Module EpisodeIdFacts.
Import EpisodeId.

Lemma get_episodes_id_derive feed entry :
  get_episodes_id feed entry = derive_id (feed_rss feed) entry.
Proof.
  unfold get_episodes_id, derive_id, spec_episode_base, md5_hex_prefix.
  destruct (entry_id entry) as [i|]; simpl; [|reflexivity].
  destruct (decide (i = "")) as [->|Hne]; [reflexivity|].
  destruct i; [congruence|reflexivity].
Qed.

Lemma start_transcription_id_derive feed entry :
  start_transcription_id feed entry = derive_id (feed_rss feed) entry.
Proof. exact (get_episodes_id_derive feed entry). Qed.

Lemma derive_id_inputs url entry entry' :
  entry_id entry' = entry_id entry ->
  entry_title entry' = entry_title entry ->
  derive_id url entry' = derive_id url entry.
Proof.
  intros Hid Ht. unfold derive_id, spec_episode_base. now rewrite Hid, Ht.
Qed.

(** C3.  Both handlers derive the identifier the specification describes:
    the first 8 hex characters of the MD5 of the feed URL, an underscore, and
    the entry's own identifier when it has a non-empty one, else the first 12
    hex characters of the MD5 of its title (of "Unknown Title" when it has no
    title).  The two inlined derivations agree, and the result depends on the
    feed URL, the entry identifier and the entry title only. *)
Theorem episode_id_derivation (feed : Feed) (entry : Entry) :
  get_episodes_id feed entry
  = PyStr.take 8 (MD5.hexdigest (feed_rss feed)) +:+ "_"
    +:+ match entry_id entry with
        | Some i =>
            if PyStr.truthy i then i
            else PyStr.take 12 (MD5.hexdigest (default "Unknown Title" (entry_title entry)))
        | None => PyStr.take 12 (MD5.hexdigest (default "Unknown Title" (entry_title entry)))
        end
  /\ get_episodes_id feed entry = derive_id (feed_rss feed) entry
  /\ start_transcription_id feed entry = get_episodes_id feed entry
  /\ (forall feed' entry',
        feed_rss feed' = feed_rss feed ->
        entry_id entry' = entry_id entry ->
        entry_title entry' = entry_title entry ->
        get_episodes_id feed' entry' = get_episodes_id feed entry
        /\ start_transcription_id feed' entry' = get_episodes_id feed entry).
Proof.
  split; [|split; [|split]].
  - unfold get_episodes_id. destruct (entry_id entry) as [[|c i]|]; reflexivity.
  - apply get_episodes_id_derive.
  - reflexivity.
  - intros feed' entry' Hu Hi Ht.
    rewrite start_transcription_id_derive, !get_episodes_id_derive, Hu.
    split; apply derive_id_inputs; assumption.
Qed.

(** An entry with its own identifier, one with a title only, one with neither. *)
Example episode_id_guid :
  get_episodes_id {| feed_name := "Pod"; feed_rss := "https://example.com/feed.xml" |}
    {| entry_id := Some "ep-42"; entry_title := Some "Pilot"; entry_published := None;
       entry_published_parsed := Missing; entry_enclosures := [] |}
  = "f7880620_ep-42".
Proof. vm_compute. reflexivity. Qed.

Example episode_id_untitled :
  start_transcription_id {| feed_name := "Pod"; feed_rss := "https://example.com/feed.xml" |}
    {| entry_id := Some ""; entry_title := None; entry_published := None;
       entry_published_parsed := Missing; entry_enclosures := [] |}
  = "f7880620_3ff03eb2bab0".
Proof. vm_compute. reflexivity. Qed.

End EpisodeIdFacts.

(* ===================================================================== *)
(** ** Sorting *)
(* ===================================================================== *)

Module PySortFacts.
Import PySort.

Section SortFacts.
Context {A K : Type} (ltb : K -> K -> bool) (key : A -> option K).

Lemma insert_desc_perm x l : Permutation (insert_desc ltb key x l) (x :: l).
Proof.
  induction l as [|y ys IH]; simpl; [reflexivity|].
  destruct (key_lt ltb key x y); [|reflexivity].
  rewrite IH. apply perm_swap.
Qed.

Lemma sort_desc_perm l : Permutation (sort_desc ltb key l) l.
Proof.
  induction l as [|x xs IH]; simpl; [reflexivity|].
  rewrite insert_desc_perm. now rewrite IH.
Qed.

Lemma sort_desc_length l : length (sort_desc ltb key l) = length l.
Proof. apply Permutation_length, sort_desc_perm. Qed.

Lemma sort_desc_In x l : In x (sort_desc ltb key l) <-> In x l.
Proof.
  split; apply Permutation_in; [|symmetry]; apply sort_desc_perm.
Qed.

Lemma sorted_desc_Ok_perm l l' :
  sorted_desc ltb key l = Ok l' -> Permutation l' l.
Proof.
  unfold sorted_desc. destruct (_ && _); [discriminate|].
  intros [= <-]. apply sort_desc_perm.
Qed.

Hypothesis ltb_asym : forall a b, ltb a b = true -> ltb b a = false.

Lemma key_lt_asym x y : key_lt ltb key x y = true -> key_lt ltb key y x = false.
Proof.
  unfold key_lt. destruct (key x), (key y); try discriminate. apply ltb_asym.
Qed.

Lemma insert_desc_hd x l y :
  HdRel (desc ltb key) y l -> desc ltb key y x -> HdRel (desc ltb key) y (insert_desc ltb key x l).
Proof.
  destruct l as [|z zs]; simpl; intros Hl Hx.
  - now constructor.
  - destruct (key_lt ltb key x z); constructor; [|assumption].
    now inversion Hl.
Qed.

Lemma insert_desc_sorted x l :
  Sorted (desc ltb key) l -> Sorted (desc ltb key) (insert_desc ltb key x l).
Proof.
  induction 1 as [|y ys Hs IH Hhd]; simpl.
  - repeat constructor.
  - destruct (key_lt ltb key x y) eqn:E.
    + constructor; [assumption|].
      apply insert_desc_hd; [assumption|]. now apply key_lt_asym.
    + constructor; [now constructor|]. now constructor.
Qed.

Lemma sort_desc_sorted l : Sorted (desc ltb key) (sort_desc ltb key l).
Proof.
  induction l as [|x xs IH]; simpl; [constructor|].
  now apply insert_desc_sorted.
Qed.

End SortFacts.

Lemma str_ltb_asym a b : str_ltb a b = true -> str_ltb b a = false.
Proof.
  revert b; induction a as [|x a IH]; intros [|y b]; simpl; try easy.
  rewrite !orb_true_iff, !andb_true_iff, !orb_false_iff, !andb_false_iff.
  rewrite !Z.ltb_lt, !Z.eqb_eq, !Z.ltb_ge, Z.eqb_neq.
  intros [H|[H1 H2]].
  - split; [lia|]. left. lia.
  - split; [lia|]. right. now apply IH.
Qed.

End PySortFacts.

(* ===================================================================== *)
(** ** The feed aggregator *)
(* ===================================================================== *)

Module AggregatorFacts.
Import Aggregator.

Section Collect.
Variable parse : string -> result (list Entry).
Variable status : StatusStore.
Variable cutoff_date : Z.

Lemma too_old_false pd :
  too_old pd cutoff_date = false <->
  (forall d, pd = Some d -> cutoff_date <= DateTime.instant d).
Proof.
  destruct pd as [d|]; simpl.
  - rewrite Z.ltb_ge. split; [intros H ? [= <-]; exact H | intros H; now apply H].
  - split; [intros _ ? [=] | reflexivity].
Qed.

Lemma scan_entries_from feed entries sorted_entries all_episodes ep :
  (forall e, In e sorted_entries -> In e entries) ->
  In ep (fst (scan_entries feed status cutoff_date sorted_entries all_episodes)) ->
  In ep all_episodes \/ built_from status cutoff_date feed entries ep.
Proof.
  revert all_episodes.
  induction sorted_entries as [|entry rest IH]; intros acc Hsub; simpl.
  - now left.
  - assert (Hrest : forall e, In e rest -> In e entries)
      by (intros e He; apply Hsub; now right).
    destruct (audio_of entry) as [audio_url|] eqn:Ha; [|now apply IH].
    destruct (pub_date_parsed_of entry) as [pd|e] eqn:Hp; [|now left].
    destruct (too_old pd cutoff_date) eqn:Hold; [now left|].
    intros Hin. apply IH in Hin; [|assumption].
    destruct Hin as [Hin|Hin]; [|now right].
    apply in_app_or in Hin as [Hin|[<-|[]]]; [now left|].
    right. exists entry, audio_url, pd.
    repeat split; try assumption; [apply Hsub; now left|].
    now apply too_old_false.
Qed.

Lemma scan_entries_keeps feed sorted_entries all_episodes ep :
  In ep all_episodes ->
  In ep (fst (scan_entries feed status cutoff_date sorted_entries all_episodes)).
Proof.
  revert all_episodes.
  induction sorted_entries as [|entry rest IH]; intros acc Hin; simpl; [assumption|].
  destruct (audio_of entry); [|now apply IH].
  destruct (pub_date_parsed_of entry) as [pd|]; [|assumption].
  destruct (too_old pd cutoff_date); [assumption|].
  apply IH, in_or_app. now left.
Qed.

Lemma scan_entries_reaches feed sorted_entries all_episodes entry audio_url pd :
  (forall e, In e sorted_entries -> in_range cutoff_date e) ->
  In entry sorted_entries ->
  audio_of entry = Some audio_url ->
  pub_date_parsed_of entry = Ok pd ->
  In (episode_data_of feed status entry audio_url pd)
     (fst (scan_entries feed status cutoff_date sorted_entries all_episodes)).
Proof.
  revert all_episodes.
  induction sorted_entries as [|e rest IH]; intros acc Hall Hin Ha Hp; [destruct Hin|].
  assert (Hrest : forall e', In e' rest -> in_range cutoff_date e')
    by (intros e' He'; apply Hall; now right).
  simpl. destruct (audio_of e) as [a|] eqn:Hae.
  - destruct (Hall e (or_introl eq_refl) a Hae) as (pd' & Hpd' & Hold').
    rewrite Hpd', Hold'.
    destruct Hin as [->|Hin]; [|now apply IH].
    apply scan_entries_keeps, in_or_app. right. left.
    rewrite Hae in Ha. rewrite Hpd' in Hp. congruence.
  - destruct Hin as [->|Hin]; [congruence|now apply IH].
Qed.

Lemma process_feed_from all_episodes feed ep :
  In ep (process_feed parse status cutoff_date all_episodes feed) ->
  In ep all_episodes
  \/ exists entries, parse (feed_rss feed) = Ok entries /\ built_from status cutoff_date feed entries ep.
Proof.
  unfold process_feed.
  destruct (parse (feed_rss feed)) as [entries|] eqn:Hparse; [|now left].
  destruct entries as [|e0 es]; [now left|].
  destruct (PySort.sorted_desc _ _ _) as [sorted_entries|] eqn:Hsort; [|now left].
  intros Hin. apply (scan_entries_from feed (e0 :: es)) in Hin.
  - destruct Hin; [now left|right; eauto].
  - intros e. apply Permutation_in.
    now apply PySortFacts.sorted_desc_Ok_perm in Hsort.
Qed.

Lemma process_feed_keeps all_episodes feed ep :
  In ep all_episodes -> In ep (process_feed parse status cutoff_date all_episodes feed).
Proof.
  intros Hin. unfold process_feed.
  destruct (parse (feed_rss feed)) as [[|e0 es]|]; try assumption.
  destruct (PySort.sorted_desc _ _ _); [|assumption].
  now apply scan_entries_keeps.
Qed.

Lemma fold_process_feed_keeps feeds all_episodes ep :
  In ep all_episodes ->
  In ep (fold_left (process_feed parse status cutoff_date) feeds all_episodes).
Proof.
  revert all_episodes. induction feeds as [|f fs IH]; intros acc Hin; simpl; [assumption|].
  now apply IH, process_feed_keeps.
Qed.

Lemma fold_process_feed_from feeds all_episodes ep :
  In ep (fold_left (process_feed parse status cutoff_date) feeds all_episodes) ->
  In ep all_episodes
  \/ exists feed entries,
       In feed feeds /\ parse (feed_rss feed) = Ok entries /\ built_from status cutoff_date feed entries ep.
Proof.
  revert all_episodes. induction feeds as [|f fs IH]; intros acc; simpl; [now left|].
  intros Hin. apply IH in Hin as [Hin|(feed & entries & Hf & Hp & Hb)].
  - apply process_feed_from in Hin as [Hin|(entries & Hp & Hb)]; [now left|].
    right. exists f, entries. auto.
  - right. exists feed, entries. auto.
Qed.

Lemma collect_from feeds ep :
  In ep (collect parse feeds status cutoff_date) ->
  exists feed entries,
    In feed feeds /\ parse (feed_rss feed) = Ok entries /\ built_from status cutoff_date feed entries ep.
Proof.
  intros Hin. apply fold_process_feed_from in Hin as [[]|H]. exact H.
Qed.

(** No entry of the feed has its parsed date set to [None], so the keys of
    the per-feed sort are all tuples. *)
Lemma has_none_false entries :
  (forall e, In e entries -> entry_published_parsed e <> IsNone) ->
  PySort.has_none entry_sort_key entries = false.
Proof.
  induction entries as [|e es IH]; intros H; simpl; [reflexivity|].
  rewrite IH by (intros e' He'; apply H; now right).
  pose proof (H e (or_introl eq_refl)) as He.
  unfold entry_sort_key. destruct (entry_published_parsed e); easy.
Qed.

Lemma process_feed_reaches all_episodes feed entries entry audio_url pd :
  parse (feed_rss feed) = Ok entries ->
  (length entries <= 1)%nat \/ (forall e, In e entries -> entry_published_parsed e <> IsNone) ->
  (forall e, In e entries -> in_range cutoff_date e) ->
  In entry entries ->
  audio_of entry = Some audio_url ->
  pub_date_parsed_of entry = Ok pd ->
  In (episode_data_of feed status entry audio_url pd)
     (process_feed parse status cutoff_date all_episodes feed).
Proof.
  intros Hparse Hkeys Hall Hin Ha Hp. unfold process_feed. rewrite Hparse.
  destruct entries as [|e0 es]; [destruct Hin|].
  unfold PySort.sorted_desc.
  assert ((2 <=? length (e0 :: es))%nat && PySort.has_none entry_sort_key (e0 :: es) = false)
    as ->.
  { destruct Hkeys as [Hlen|Hnone].
    - apply andb_false_iff. left. apply Nat.leb_gt. lia.
    - apply andb_false_iff. right. now apply has_none_false. }
  apply scan_entries_reaches; try assumption.
  - intros e He. apply Hall. now apply PySortFacts.sort_desc_In in He.
  - now apply PySortFacts.sort_desc_In.
Qed.

Lemma collect_reaches feeds feed entries entry audio_url pd :
  In feed feeds ->
  parse (feed_rss feed) = Ok entries ->
  (length entries <= 1)%nat \/ (forall e, In e entries -> entry_published_parsed e <> IsNone) ->
  (forall e, In e entries -> in_range cutoff_date e) ->
  In entry entries ->
  audio_of entry = Some audio_url ->
  pub_date_parsed_of entry = Ok pd ->
  In (episode_data_of feed status entry audio_url pd)
     (collect parse feeds status cutoff_date).
Proof.
  intros Hfeed Hparse Hkeys Hall Hin Ha Hp. unfold collect.
  generalize (@nil Episode) as acc.
  induction feeds as [|f fs IH]; intros acc; [destruct Hfeed|]. simpl.
  destruct Hfeed as [->|Hfeed]; [|now apply IH].
  apply fold_process_feed_keeps. now apply process_feed_reaches with (entries := entries).
Qed.

End Collect.

Lemma slice_to_In {A} limit (l : list A) x : In x (slice_to limit l) -> In x l.
Proof.
  unfold slice_to. destruct (limit <? 0); intros H;
    match type of H with
    | In _ (firstn ?n _) => rewrite <- (firstn_skipn n l); apply in_or_app; now left
    end.
Qed.

Lemma slice_to_all {A} limit (l : list A) :
  Z.of_nat (length l) <= limit -> slice_to limit l = l.
Proof.
  intros H. unfold slice_to.
  destruct (limit <? 0) eqn:E; [apply Z.ltb_lt in E; lia|].
  apply firstn_all2. lia.
Qed.

Lemma slice_to_length {A} limit (l : list A) :
  0 <= limit -> Z.of_nat (length (slice_to limit l)) <= limit.
Proof.
  intros H. unfold slice_to.
  destruct (limit <? 0) eqn:E; [apply Z.ltb_lt in E; lia|].
  rewrite length_firstn. lia.
Qed.


Lemma in_range_of_dates cutoff_date (entry : Entry) :
  (forall a t, audio_of entry = Some a -> entry_published_parsed entry = Val t ->
     exists d, DateTime.of_struct_time t = Ok d /\ cutoff_date <= DateTime.instant d) ->
  in_range cutoff_date entry.
Proof.
  intros H a Ha. unfold pub_date_parsed_of.
  destruct (entry_published_parsed entry) as [| |t] eqn:Hpp;
    try (exists None; now split).
  destruct (H a t Ha eq_refl) as (d & -> & Hd).
  exists (Some d). split; [reflexivity|]. simpl. now apply Z.ltb_ge.
Qed.

Lemma pub_date_parsed_of_undated (entry : Entry) :
  (forall t, entry_published_parsed entry <> Val t) ->
  pub_date_parsed_of entry = Ok None.
Proof.
  unfold pub_date_parsed_of. destruct (entry_published_parsed entry); try reflexivity.
  intros H. now destruct (H a).
Qed.

Lemma minus_days_Ok now days cutoff_date :
  DateTime.minus_days now days = Ok cutoff_date ->
  cutoff_date = DateTime.instant now - days * 86400 * 1000000.
Proof.
  unfold DateTime.minus_days. destruct (_ || _); [discriminate|].
  destruct (_ || _); [discriminate|]. now intros [= <-].
Qed.

Lemma list_episodes_Ok parse feeds status now limit days res :
  list_episodes parse feeds status now limit days = Ok res ->
  exists cutoff_date,
    DateTime.minus_days now days = Ok cutoff_date
    /\ PySort.sorted_desc PySort.str_ltb ep_pub_date_parsed
         (collect parse feeds status cutoff_date)
       = Ok (PySort.sort_desc PySort.str_ltb ep_pub_date_parsed
               (collect parse feeds status cutoff_date))
    /\ res = slice_to limit (PySort.sort_desc PySort.str_ltb ep_pub_date_parsed
                               (collect parse feeds status cutoff_date)).
Proof.
  unfold list_episodes. intros H.
  apply bind_Ok_inv in H as (c & Hc & H). exists c. split; [assumption|].
  apply bind_Ok_inv in H as (sorted & Hsort & [= <-]).
  unfold PySort.sorted_desc in *.
  destruct (_ && _); [discriminate Hsort|].
  now injection Hsort as <-.
Qed.

(** C2, as amended.  With [cutoff_date] the instant [days] days before
    [now]: every episode of the result was built from an audio entry whose
    parsed publication date, if it has one, is not before the cutoff, so
    entries older than that are excluded; and an audio entry without a parsed
    date is appended to the aggregate whenever its feed sorts (no date set to
    [None] among two entries or more) and no audio entry of that feed has a
    parsed date that is invalid or before the cutoff.  It is then in the
    result as well when the final sort returns and the limit covers the
    aggregate. *)
Theorem age_filter parse feeds status now limit days cutoff_date :
  DateTime.minus_days now days = Ok cutoff_date ->
  cutoff_date = DateTime.instant now - days * 86400 * 1000000
  /\ (forall res ep,
        list_episodes parse feeds status now limit days = Ok res ->
        In ep res ->
        exists feed entries,
          In feed feeds /\ parse (feed_rss feed) = Ok entries
          /\ built_from status cutoff_date feed entries ep)
  /\ (forall feed entries entry audio_url,
        In feed feeds ->
        parse (feed_rss feed) = Ok entries ->
        (length entries <= 1)%nat
          \/ (forall e, In e entries -> entry_published_parsed e <> IsNone) ->
        (forall e a t,
           In e entries -> audio_of e = Some a -> entry_published_parsed e = Val t ->
           exists d, DateTime.of_struct_time t = Ok d /\ cutoff_date <= DateTime.instant d) ->
        In entry entries ->
        audio_of entry = Some audio_url ->
        (forall t, entry_published_parsed entry <> Val t) ->
        In (episode_data_of feed status entry audio_url None)
           (collect parse feeds status cutoff_date)
        /\ (forall res,
              list_episodes parse feeds status now limit days = Ok res ->
              Z.of_nat (length (collect parse feeds status cutoff_date)) <= limit ->
              In (episode_data_of feed status entry audio_url None) res)).
Proof.
  intros Hcut. split; [now apply minus_days_Ok|]. split.
  - intros res ep Hres Hin.
    apply list_episodes_Ok in Hres as (c & Hc & _ & ->).
    rewrite Hcut in Hc. injection Hc as <-.
    apply slice_to_In, PySortFacts.sort_desc_In in Hin.
    now apply collect_from in Hin.
  - intros feed entries entry audio_url Hfeed Hparse Hkeys Hdates Hin Ha Hund.
    assert (Hcol : In (episode_data_of feed status entry audio_url None)
                      (collect parse feeds status cutoff_date)).
    { apply collect_reaches with (entries := entries); try assumption.
      - intros e He. apply in_range_of_dates. intros a t. now apply Hdates.
      - now apply pub_date_parsed_of_undated. }
    split; [exact Hcol|].
    intros res Hres Hlim.
    apply list_episodes_Ok in Hres as (c & Hc & _ & ->).
    rewrite Hcut in Hc. injection Hc as <-.
    rewrite slice_to_all by now rewrite PySortFacts.sort_desc_length.
    now apply PySortFacts.sort_desc_In.
Qed.

(** The clock of the samples, thirty days back. *)
Example sample_cutoff : DateTime.minus_days Sample.now 30 = Ok 63837892800000000.
Proof. vm_compute. reflexivity. Qed.

(** [age_filter] on a request with [days=30]: at a feed whose only entry
    is a recent episode, the episode listed was built from that entry; at a
    feed whose only entry is undated, that entry is collected and listed. *)
Lemma age_filter_witness :
  DateTime.minus_days Sample.now 30 = Ok 63837892800000000
  /\ (exists feed entries,
        In feed [Sample.pod] /\ Sample.serve [Sample.recent] (feed_rss feed) = Ok entries
        /\ built_from ∅ 63837892800000000 feed entries
             (episode_data_of Sample.pod ∅ Sample.recent "https://example.com/a.mp3"
                (Some {| DateTime.year := 2024; DateTime.month := 1; DateTime.day := 2;
                         DateTime.hour := 3; DateTime.minute := 4; DateTime.second := 5;
                         DateTime.microsecond := 0 |})))
  /\ In (episode_data_of Sample.pod ∅ Sample.undated "https://example.com/a.mp3" None)
        (collect (Sample.serve [Sample.undated]) [Sample.pod] ∅ 63837892800000000)
  /\ list_episodes (Sample.serve [Sample.undated]) [Sample.pod] ∅ Sample.now 100 30
     = Ok [episode_data_of Sample.pod ∅ Sample.undated "https://example.com/a.mp3" None].
Proof.
  split; [vm_compute; reflexivity|]. split; [|split].
  - refine (proj1 (proj2 (age_filter (Sample.serve [Sample.recent]) [Sample.pod] ∅
                            Sample.now 100 30 _ _)) _ _ _ _).
    + vm_compute; reflexivity.
    + vm_compute; reflexivity.
    + left. reflexivity.
  - refine (proj1 (proj2 (proj2 (age_filter (Sample.serve [Sample.undated]) [Sample.pod] ∅
                                   Sample.now 100 30 _ _))
                     Sample.pod [Sample.undated] Sample.undated _ _ _ _ _ _ _ _)).
    + vm_compute; reflexivity.
    + now left.
    + reflexivity.
    + left. simpl. lia.
    + intros e a t [<-|[]] _ H. discriminate H.
    + now left.
    + reflexivity.
    + intros t H. discriminate H.
  - vm_compute. reflexivity.
Defined.

(** C2 as stated fails: with [days=30], a feed holding an undated audio
    entry and an audio entry published a year ago yields the empty list.  The
    undated entry sorts last, and the loop breaks on the old one before
    reaching it. *)
Lemma age_filter_counterexample :
  audio_of Sample.undated = Some "https://example.com/a.mp3"
  /\ entry_published_parsed Sample.undated = Missing
  /\ PySort.sorted_desc PySort.tuple_ltb entry_sort_key [Sample.undated; Sample.old]
     = Ok [Sample.old; Sample.undated]
  /\ list_episodes (Sample.serve [Sample.undated; Sample.old]) [Sample.pod] ∅
       Sample.now 100 30 = Ok [].
Proof. repeat split; vm_compute; reflexivity. Qed.

Lemma has_none_exists {A K} (key : A -> option K) (l : list A) :
  PySort.has_none key l = true <-> exists x, In x l /\ key x = None.
Proof.
  unfold PySort.has_none. rewrite existsb_exists. split.
  - intros (x & Hin & Hk). exists x. split; [assumption|]. now destruct (key x).
  - intros (x & Hin & Hk). exists x. split; [assumption|]. now rewrite Hk.
Qed.

(** Whenever two or more episodes are collected and one of them has no
    parsed date, the final sort raises. *)
Lemma list_episodes_raises parse feeds status now limit days cutoff_date :
  DateTime.minus_days now days = Ok cutoff_date ->
  (2 <= length (collect parse feeds status cutoff_date))%nat ->
  (exists ep, In ep (collect parse feeds status cutoff_date)
              /\ ep_pub_date_parsed ep = None) ->
  exists msg,
    list_episodes parse feeds status now limit days = Raise (mk_exn TypeError msg).
Proof.
  intros Hcut Hlen Hnone. unfold list_episodes. rewrite Hcut.
  cbn [mbind result_bind]. unfold PySort.sorted_desc.
  apply Nat.leb_le in Hlen. apply has_none_exists in Hnone.
  rewrite Hlen, Hnone. cbn. eauto.
Qed.

Lemma Sorted_firstn {A} (R : A -> A -> Prop) n (l : list A) :
  Sorted R l -> Sorted R (firstn n l).
Proof.
  revert l. induction n as [|n IH]; intros l Hs; [constructor|].
  destruct l as [|x l]; [constructor|]. simpl.
  inversion Hs as [|? ? Hs' Hhd]; subst. constructor; [now apply IH|].
  destruct n; [constructor|]. destruct l; simpl; [constructor|].
  constructor. now inversion Hhd.
Qed.

(** When the request returns, the list is in descending order of the
    ISO strings, is a prefix of a rearrangement of what was collected, and
    holds at most [limit] episodes when [limit] is not negative. *)
Lemma list_episodes_sorted parse feeds status now limit days res :
  list_episodes parse feeds status now limit days = Ok res ->
  Sorted (PySort.desc PySort.str_ltb ep_pub_date_parsed) res
  /\ (0 <= limit -> Z.of_nat (length res) <= limit)
  /\ exists cutoff_date sorted,
       DateTime.minus_days now days = Ok cutoff_date
       /\ Permutation sorted (collect parse feeds status cutoff_date)
       /\ res = slice_to limit sorted.
Proof.
  intros H. apply list_episodes_Ok in H as (c & Hc & _ & ->).
  split; [|split].
  - unfold slice_to. destruct (limit <? 0);
      apply Sorted_firstn, PySortFacts.sort_desc_sorted, PySortFacts.str_ltb_asym.
  - apply slice_to_length.
  - eexists c, _. split; [assumption|]. split; [|reflexivity].
    apply PySortFacts.sort_desc_perm.
Qed.

(** C1 fails on the code whenever the aggregate mixes dated and undated
    episodes: with two or more episodes collected, one of them without a
    parsed date, the final sort raises [TypeError] and no list is returned.
    The failing input is a feed with one dated and one undated audio entry:
    both are collected, the keys of the final sort are a string and [None],
    and the request ends in the exception. *)
Lemma mixed_dates_sort_raises :
  (forall parse feeds status now limit days cutoff_date,
     DateTime.minus_days now days = Ok cutoff_date ->
     (2 <= length (collect parse feeds status cutoff_date))%nat ->
     (exists ep, In ep (collect parse feeds status cutoff_date)
                 /\ ep_pub_date_parsed ep = None) ->
     exists msg,
       list_episodes parse feeds status now limit days = Raise (mk_exn TypeError msg))
  /\ (exists cutoff_date,
        DateTime.minus_days Sample.now 90 = Ok cutoff_date
        /\ map ep_pub_date_parsed
             (collect (Sample.serve [Sample.recent; Sample.undated]) [Sample.pod] ∅
                cutoff_date)
           = [Some "2024-01-02T03:04:05+00:00"; None])
  /\ exists msg,
       list_episodes (Sample.serve [Sample.recent; Sample.undated]) [Sample.pod] ∅
         Sample.now 100 90 = Raise (mk_exn TypeError msg).
Proof.
  split; [exact list_episodes_raises|]. split.
  - eexists. split; vm_compute; reflexivity.
  - eexists. vm_compute. reflexivity.
Qed.

(** With dates on every episode the same request returns, newest first. *)
Example dated_episodes_sorted :
  exists res,
    list_episodes (Sample.serve [Sample.old; Sample.recent]) [Sample.pod] ∅
      Sample.now 100 900 = Ok res
    /\ map ep_pub_date_parsed res
       = [Some "2024-01-02T03:04:05+00:00"; Some "2023-01-01T00:00:00+00:00"].
Proof. eexists. split; vm_compute; reflexivity. Qed.

End AggregatorFacts.

(* ===================================================================== *)
(** ** The JSON text of the Status Store reads back *)
(* ===================================================================== *)

Module JsonFacts.
Import Json.

Lemma app_assoc (a b c : string) : (a +:+ b) +:+ c = a +:+ (b +:+ c).
Proof. induction a as [|x a IH]; simpl; [reflexivity|]. now rewrite IH. Qed.

Lemma app_nil_r (a : string) : a +:+ "" = a.
Proof. induction a as [|x a IH]; simpl; [reflexivity|]. now rewrite IH. Qed.

Ltac str_norm := repeat first [ rewrite app_assoc | progress simpl ].

Lemma app_length (a b : string) :
  String.length (a +:+ b) = (String.length a + String.length b)%nat.
Proof. induction a as [|x a IH]; simpl; [reflexivity|]. now rewrite IH. Qed.

(** Reading an escaped character gives the character back. *)
Lemma scan_escape_char c t :
  scan_string (escape_char c +:+ t) = cons_fst c (scan_string t).
Proof.
  destruct c as [[] [] [] [] [] [] [] []]; reflexivity.
Qed.

Lemma scan_escape s rest :
  scan_string (escape s +:+ String dq rest) = Some (s, rest).
Proof.
  induction s as [|c s IH]; [reflexivity|].
  cbn [escape]. now rewrite app_assoc, scan_escape_char, IH.
Qed.

Lemma parse_string_quote s rest : parse_string (quote s +:+ rest) = Some (s, rest).
Proof.
  unfold quote. simpl. rewrite app_assoc. simpl. apply scan_escape.
Qed.

Lemma skip_ws_blank s t : blank s = true -> skip_ws (s +:+ t) = skip_ws t.
Proof.
  induction s as [|c s IH]; simpl; [reflexivity|].
  intros [Hc Hs]%andb_true_iff. rewrite Hc. now apply IH.
Qed.

Lemma skip_ws_quote s t : skip_ws (quote s +:+ t) = quote s +:+ t.
Proof. reflexivity. Qed.

Section ObjectFacts.
Context {V : Type}.
Variable parse_value : string -> option (V * string).
Variable dump_value : V -> string.
Variables inner outer : string.

Hypothesis parse_dump : forall v rest, parse_value (dump_value v +:+ rest) = Some (v, rest).
Hypothesis dump_no_ws : forall v rest,
  skip_ws (dump_value v +:+ rest) = dump_value v +:+ rest.
Hypothesis inner_blank : blank inner = true.
Hypothesis outer_blank : blank outer = true.

Lemma members_text_no_ws items tail :
  items <> [] -> skip_ws (members_text dump_value inner outer items tail) = members_text dump_value inner outer items tail.
Proof. destruct items as [|kv rest]; [congruence|reflexivity]. Qed.

Lemma members_text_length items tail :
  (length items <= String.length (members_text dump_value inner outer items tail))%nat.
Proof.
  induction items as [|kv rest IH]; [simpl; lia|].
  destruct rest as [|kv' rest'].
  - simpl. lia.
  - change (members_text dump_value inner outer (kv :: kv' :: rest') tail)
      with (quote (fst kv) +:+ ": " +:+ dump_value (snd kv) +:+ "," +:+ nl +:+ inner
            +:+ members_text dump_value inner outer (kv' :: rest') tail).
    set (T := members_text dump_value inner outer (kv' :: rest') tail) in *.
    unfold quote, nl. rewrite !app_length. simpl in *. lia.
Qed.

Lemma members_text_cons kv rest tail :
  members_text dump_value inner outer (kv :: rest) tail
  = quote (fst kv) +:+ ": " +:+ dump_value (snd kv)
    +:+ match rest with
        | [] => nl +:+ outer +:+ "}" +:+ tail
        | _ => "," +:+ nl +:+ inner +:+ members_text dump_value inner outer rest tail
        end.
Proof. reflexivity. Qed.

Lemma parse_members_text items tail fuel :
  items <> [] ->
  (length items <= fuel)%nat ->
  parse_members parse_value fuel (members_text dump_value inner outer items tail) = Some (items, tail).
Proof.
  revert fuel. induction items as [|[k v] rest IH]; intros fuel Hne Hfuel; [congruence|].
  destruct fuel as [|fuel]; [simpl in Hfuel; lia|].
  rewrite members_text_cons. cbn [parse_members fst snd].
  rewrite parse_string_quote.
  destruct rest as [|kv' rest'].
  - simpl. rewrite dump_no_ws, parse_dump. simpl.
    rewrite skip_ws_blank by assumption. reflexivity.
  - set (T := members_text dump_value inner outer (kv' :: rest') tail) in *.
    simpl. rewrite dump_no_ws, parse_dump. simpl.
    rewrite skip_ws_blank by assumption.
    assert (HT : skip_ws T = T) by (apply members_text_no_ws; congruence).
    rewrite HT, IH; [reflexivity|congruence|simpl in *; lia].
Qed.

Lemma join_members kv rest tail :
  (join_with ("," +:+ nl)
     (map (fun kv => inner +:+ quote (fst kv) +:+ ": " +:+ dump_value (snd kv)) (kv :: rest))
   +:+ nl +:+ outer +:+ "}") +:+ tail
  = inner +:+ members_text dump_value inner outer (kv :: rest) tail.
Proof.
  revert kv. induction rest as [|kv' rest IH]; intros kv.
  - str_norm. reflexivity.
  - rewrite members_text_cons. rewrite <- IH.
    cbn [map join_with]. unfold quote. str_norm. reflexivity.
Qed.

Lemma dump_object_text items tail :
  items <> [] ->
  dump_object dump_value inner outer items +:+ tail
  = "{" +:+ nl +:+ inner +:+ members_text dump_value inner outer items tail.
Proof.
  intros Hne. unfold dump_object. destruct items as [|kv rest]; [congruence|].
  rewrite <- join_members. str_norm. reflexivity.
Qed.

Lemma parse_object_brace s1 :
  parse_object parse_value (String "{" s1)
  = match skip_ws s1 with
    | String c s2 =>
        if Ascii.eqb c "}" then Some ([], s2)
        else parse_members parse_value (String.length s1) (skip_ws s1)
    | EmptyString => None
    end.
Proof. reflexivity. Qed.

Lemma parse_object_dump items tail :
  parse_object parse_value (dump_object dump_value inner outer items +:+ tail)
  = Some (items, tail).
Proof.
  destruct items as [|kv rest] eqn:E; [reflexivity|]. rewrite <- E.
  assert (Hne : items <> []) by (subst; congruence).
  rewrite dump_object_text by assumption.
  pose proof (members_text_length items tail) as Hlen.
  pose proof (members_text_no_ws items tail Hne) as Hws.
  assert (Hhd : exists c s2, members_text dump_value inner outer items tail = String c s2
                             /\ Ascii.eqb c "}" = false).
  { rewrite E. simpl. eauto. }
  destruct Hhd as (c & s2 & HT & Hc).
  set (T := members_text dump_value inner outer items tail) in *.
  change ("{" +:+ nl +:+ inner +:+ T) with (String "{" (nl +:+ inner +:+ T)).
  rewrite parse_object_brace.
  assert (Hskip : skip_ws (nl +:+ inner +:+ T) = T).
  { simpl. now rewrite skip_ws_blank. }
  rewrite Hskip, HT, Hc, <- HT. subst T.
  apply parse_members_text; [assumption|].
  rewrite !app_length. lia.
Qed.

End ObjectFacts.

Lemma dict_of_map_to_list {V} (m : gmap string V) : dict_of (map_to_list m) = m.
Proof.
  unfold dict_of. symmetry. apply list_to_map_flip.
  now rewrite reverse_Permutation.
Qed.

Lemma dump_object_no_ws {V} (dv : V -> string) inner outer items rest :
  skip_ws (dump_object dv inner outer items +:+ rest)
  = dump_object dv inner outer items +:+ rest.
Proof. unfold dump_object. destruct items; reflexivity. Qed.

Lemma parse_record_dump r rest :
  parse_record (dump_record r +:+ rest) = Some (r, rest).
Proof.
  unfold parse_record, dump_record.
  rewrite (parse_object_dump parse_string quote "    " "  ");
    try reflexivity; try apply parse_string_quote.
  simpl. now rewrite dict_of_map_to_list.
Qed.

(** [json.load] after [json.dump] returns the mapping that was dumped. *)
Lemma loads_dumps (status : StatusStore) : loads (dumps status) = Ok status.
Proof.
  unfold loads, dumps.
  rewrite <- (app_nil_r (dump_object _ _ _ _)).
  rewrite dump_object_no_ws.
  rewrite (parse_object_dump parse_record dump_record "  " "");
    try reflexivity.
  - simpl. now rewrite dict_of_map_to_list.
  - apply parse_record_dump.
  - intros v rest. apply dump_object_no_ws.
Qed.

(** *** A truncated text never loads *)

Lemma cons_fst_Some c r a rest :
  cons_fst c r = Some (a, rest) ->
  exists a', r = Some (a', rest) /\ a = String c a'.
Proof.
  destruct r as [[a' rest']|]; simpl; [|discriminate].
  intros [= <- <-]. eauto.
Qed.

(** What a successful scan did not look at can be replaced. *)
Lemma scan_string_ext_le n :
  forall s a r q,
    (String.length s <= n)%nat ->
    scan_string s = Some (a, r) -> scan_string (s +:+ q) = Some (a, r +:+ q).
Proof.
  induction n as [|n IH]; intros s a r q Hlen.
  - destruct s; [discriminate|simpl in Hlen; lia].
  - destruct s as [|c s1]; [discriminate|]. simpl in Hlen.
    cbn [String.append]. cbn [scan_string].
    destruct (Ascii.eqb c dq); [now intros [= <- <-]|].
    destruct (Ascii.eqb c bs).
    + destruct s1 as [|e s2]; [discriminate|]. simpl in Hlen. cbn [String.append].
      destruct (Ascii.eqb e "u").
      * destruct s2 as [|h1 [|h2 [|h3 [|h4 t]]]]; try discriminate.
        simpl in Hlen. cbn [String.append].
        destruct (hex_val h1), (hex_val h2), (hex_val h3), (hex_val h4); try discriminate.
        destruct (_ <? 256); [|discriminate].
        intros H. apply cons_fst_Some in H as (a' & H & ->).
        apply (IH t a' r q) in H; [|lia]. now rewrite H.
      * destruct (unescape e); [|discriminate].
        intros H. apply cons_fst_Some in H as (a' & H & ->).
        apply (IH s2 a' r q) in H; [|lia]. now rewrite H.
    + destruct (PyStr.code c <? 32); [discriminate|].
      intros H. apply cons_fst_Some in H as (a' & H & ->).
      apply (IH s1 a' r q) in H; [|lia]. now rewrite H.
Qed.

Lemma parse_string_ext s a r q :
  parse_string s = Some (a, r) -> parse_string (s +:+ q) = Some (a, r +:+ q).
Proof.
  destruct s as [|c s1]; [discriminate|]. cbn [String.append parse_string].
  destruct (Ascii.eqb c dq); [|discriminate].
  now apply (scan_string_ext_le (String.length s1)).
Qed.

Lemma skip_ws_ext s c r q :
  skip_ws s = String c r -> skip_ws (s +:+ q) = String c (r +:+ q).
Proof.
  induction s as [|x s IH]; [discriminate|]. cbn [String.append skip_ws].
  destruct (is_ws x); [apply IH|]. now intros [= <- <-].
Qed.

Lemma expect_ext c s r q : expect c s = Some r -> expect c (s +:+ q) = Some (r +:+ q).
Proof.
  destruct s as [|x s]; [discriminate|]. cbn [String.append expect].
  destruct (Ascii.eqb c x); [|discriminate]. now intros [= <-].
Qed.

Lemma expect_Some c s r : expect c s = Some r -> s = String c r.
Proof.
  destruct s as [|x s]; [discriminate|]. simpl.
  destruct (Ascii.eqb_spec c x); [|discriminate]. now intros [= <-]; subst.
Qed.

Section Extension.
Context {V : Type}.
Variable parse_value : string -> option (V * string).
Hypothesis parse_value_ext : forall s v r q,
  parse_value s = Some (v, r) -> parse_value (s +:+ q) = Some (v, r +:+ q).
Hypothesis parse_value_nil : parse_value "" = None.

Lemma parse_members_S fuel s :
  parse_members parse_value (S fuel) s
  = ('(k, s1) ← parse_string s;
     s2 ← expect ":" (skip_ws s1);
     '(v, s3) ← parse_value (skip_ws s2);
     match skip_ws s3 with
     | String c s4 =>
         if Ascii.eqb c "," then
           '(items, rest) ← parse_members parse_value fuel (skip_ws s4);
           Some ((k, v) :: items, rest)
         else if Ascii.eqb c "}" then Some ([(k, v)], s4)
         else None
     | EmptyString => None
     end).
Proof. reflexivity. Qed.

Lemma parse_members_nil fuel : parse_members parse_value fuel "" = None.
Proof. now destruct fuel. Qed.

Lemma parse_members_ext fuel :
  forall s items r q,
    parse_members parse_value fuel s = Some (items, r) ->
    parse_members parse_value fuel (s +:+ q) = Some (items, r +:+ q).
Proof.
  induction fuel as [|fuel IH]; intros s items r q; [discriminate|].
  rewrite !parse_members_S.
  destruct (parse_string s) as [[k s1]|] eqn:Hk; [|discriminate].
  rewrite (parse_string_ext s k s1 q Hk). cbn [mbind option_bind].
  destruct (expect ":" (skip_ws s1)) as [s2|] eqn:Hc; [|discriminate].
  pose proof (expect_Some _ _ _ Hc) as Hs1.
  rewrite (skip_ws_ext s1 ":" s2 q Hs1). cbn [expect mbind option_bind].
  rewrite Ascii.eqb_refl. cbn [mbind option_bind].
  destruct (skip_ws s2) as [|c2 r2] eqn:Hs2; [now rewrite parse_value_nil|].
  rewrite (skip_ws_ext s2 c2 r2 q Hs2).
  destruct (parse_value (String c2 r2)) as [[v s3]|] eqn:Hv; [|discriminate].
  change (String c2 (r2 +:+ q)) with (String c2 r2 +:+ q).
  rewrite (parse_value_ext _ v s3 q Hv). cbn [mbind option_bind].
  destruct (skip_ws s3) as [|c3 s4] eqn:Hs3; [discriminate|].
  rewrite (skip_ws_ext s3 c3 s4 q Hs3).
  destruct (Ascii.eqb c3 ",").
  - destruct (skip_ws s4) as [|c4 r4] eqn:Hs4; [now rewrite parse_members_nil|].
    rewrite (skip_ws_ext s4 c4 r4 q Hs4).
    destruct (parse_members parse_value fuel (String c4 r4)) as [[items' rest]|] eqn:Hm;
      [|discriminate].
    change (String c4 (r4 +:+ q)) with (String c4 r4 +:+ q).
    rewrite (IH _ items' rest q Hm). cbn [mbind option_bind].
    now intros [= <- <-].
  - destruct (Ascii.eqb c3 "}"); [|discriminate]. now intros [= <- <-].
Qed.

Lemma parse_members_fuel fuel :
  forall fuel' s y,
    (fuel <= fuel')%nat ->
    parse_members parse_value fuel s = Some y ->
    parse_members parse_value fuel' s = Some y.
Proof.
  induction fuel as [|fuel IH]; intros fuel' s y Hle; [discriminate|].
  destruct fuel' as [|fuel']; [lia|]. rewrite !parse_members_S.
  destruct (parse_string s) as [[k s1]|]; [|discriminate]. cbn [mbind option_bind].
  destruct (expect ":" (skip_ws s1)) as [s2|]; [|discriminate]. cbn [mbind option_bind].
  destruct (parse_value (skip_ws s2)) as [[v s3]|]; [|discriminate].
  cbn [mbind option_bind].
  destruct (skip_ws s3) as [|c3 s4]; [discriminate|].
  destruct (Ascii.eqb c3 ","); [|trivial].
  destruct (parse_members parse_value fuel (skip_ws s4)) as [[items rest]|] eqn:Hm;
    [|discriminate].
  rewrite (IH fuel' _ _ ltac:(lia) Hm). trivial.
Qed.

Lemma parse_object_ext s items r q :
  parse_object parse_value s = Some (items, r) ->
  parse_object parse_value (s +:+ q) = Some (items, r +:+ q).
Proof.
  unfold parse_object.
  destruct (expect "{" s) as [s1|] eqn:Hb; [|discriminate].
  rewrite (expect_ext _ _ _ q Hb). cbn [mbind option_bind].
  destruct (skip_ws s1) as [|c s2] eqn:Hs1; [discriminate|].
  rewrite (skip_ws_ext s1 c s2 q Hs1).
  destruct (Ascii.eqb c "}"); [now intros [= <- <-]|].
  intros Hm. change (String c (s2 +:+ q)) with (String c s2 +:+ q).
  apply parse_members_ext with (q := q) in Hm.
  apply (parse_members_fuel (String.length s1)); [|assumption].
  rewrite app_length. lia.
Qed.

End Extension.

Lemma parse_record_ext s v r q :
  parse_record s = Some (v, r) -> parse_record (s +:+ q) = Some (v, r +:+ q).
Proof.
  unfold parse_record.
  destruct (parse_object parse_string s) as [[items rest]|] eqn:Ho; [|discriminate].
  rewrite (parse_object_ext parse_string parse_string_ext eq_refl s items rest q Ho).
  cbn [mbind option_bind]. now intros [= <- <-].
Qed.

Lemma take_drop (k : nat) (s : string) :
  exists q, s = PyStr.take k s +:+ q /\ (String.length s = k + String.length q
                                         \/ (String.length s < k /\ q = ""))%nat.
Proof.
  unfold PyStr.take. revert k. induction s as [|c s IH]; intros k.
  - exists "". destruct k; simpl; split; auto; right; split; [lia|reflexivity].
  - destruct k as [|k].
    + exists (String c s). simpl. auto.
    + destruct (IH k) as (q & Hq & Hlen). exists q. simpl. split; [now rewrite <- Hq|].
      destruct Hlen as [Hlen|[Hlen ->]]; [left; lia|right; split; [lia|reflexivity]].
Qed.

Lemma loads_Raise text :
  is_ok (loads text) = false -> exists msg, loads text = Raise (mk_exn JSONDecodeError msg).
Proof.
  unfold loads. destruct (parse_object _ _) as [[items rest]|]; [|eauto].
  destruct (skip_ws rest); [discriminate|eauto].
Qed.

(** Every proper prefix of the text of a store is rejected. *)
Lemma loads_truncated (status : StatusStore) (k : nat) :
  (k < String.length (dumps status))%nat ->
  exists msg, loads (PyStr.take k (dumps status)) = Raise (mk_exn JSONDecodeError msg).
Proof.
  intros Hk. apply loads_Raise.
  destruct (take_drop k (dumps status)) as (q & Hq & Hlen).
  assert (Hqne : q <> "") by (intros ->; simpl in Hlen; lia).
  set (p := PyStr.take k (dumps status)) in *.
  destruct (is_ok (loads p)) eqn:Hok; [exfalso|reflexivity].
  unfold loads in Hok.
  destruct (parse_object parse_record (skip_ws p)) as [[items rest]|] eqn:Hp;
    [|discriminate].
  destruct (skip_ws rest) eqn:Hrest; [|discriminate].
  destruct (skip_ws p) as [|c p'] eqn:Hsp; [discriminate|].
  assert (Hfull : parse_object parse_record (dumps status) = Some (map_to_list status, "")).
  { rewrite <- (app_nil_r (dumps status)). unfold dumps.
    apply (parse_object_dump parse_record dump_record "  " ""); try reflexivity.
    - apply parse_record_dump.
    - intros v r. apply dump_object_no_ws. }
  assert (Hsame : skip_ws (p +:+ q) = p +:+ q).
  { rewrite <- Hq. unfold dumps. rewrite <- (app_nil_r (dump_object _ _ _ _)).
    apply dump_object_no_ws. }
  pose proof (skip_ws_ext p c p' q Hsp) as Hext. rewrite Hsame in Hext.
  apply (parse_object_ext parse_record parse_record_ext eq_refl _ _ _ q) in Hp.
  change (String c p' +:+ q) with (String c (p' +:+ q)) in Hp.
  rewrite <- Hext, <- Hq, Hfull in Hp. injection Hp as _ Hnil.
  destruct rest; [simpl in Hnil; now subst q|discriminate].
Qed.

(** An empty file is not JSON. *)
Lemma loads_empty : exists msg, loads "" = Raise (mk_exn JSONDecodeError msg).
Proof. eexists. reflexivity. Qed.

End JsonFacts.

(* ===================================================================== *)
(** ** The Task Registry sweep *)
(* ===================================================================== *)

Module RegistryFacts.
Import Registry.

Lemma foldl_delete_lookup (ks : list string) (m : gmap string TaskRecord) (i : string) :
  foldl (fun m k => delete k m) m ks !! i = if decide (i ∈ ks) then None else m !! i.
Proof.
  revert m. induction ks as [|k ks IH]; intros m; simpl.
  - destruct (decide (i ∈ [])) as [H|_]; [now apply elem_of_nil in H|reflexivity].
  - rewrite IH. destruct (decide (i ∈ ks)) as [Hin|Hnin].
    + rewrite decide_True by now apply elem_of_cons; right. reflexivity.
    + destruct (decide (i = k)) as [->|Hne].
      * rewrite decide_True by now apply elem_of_cons; left.
        apply lookup_delete_eq.
      * rewrite decide_False by (rewrite elem_of_cons; tauto).
        now apply lookup_delete_ne.
Qed.

Lemma elem_of_tasks_to_remove current_time (tasks : gmap string TaskRecord) (i : string) :
  i ∈ tasks_to_remove current_time tasks
  <-> exists r, tasks !! i = Some r /\ to_remove current_time r = true.
Proof.
  unfold tasks_to_remove. rewrite list_elem_of_omap. split.
  - intros ([k r] & Hin & Hsome). apply elem_of_map_to_list in Hin. simpl in Hsome.
    destruct (to_remove current_time r) eqn:E; [|discriminate].
    injection Hsome as <-. eauto.
  - intros (r & Hl & Hr). exists (i, r). split; [now apply elem_of_map_to_list|].
    simpl. now rewrite Hr.
Qed.

Lemma cleanup_lookup current_time (tasks : gmap string TaskRecord) (i : string) :
  cleanup_old_tasks current_time tasks !! i
  = match tasks !! i with
    | Some r => if to_remove current_time r then None else Some r
    | None => None
    end.
Proof.
  unfold cleanup_old_tasks. rewrite foldl_delete_lookup.
  destruct (decide (i ∈ tasks_to_remove current_time tasks)) as [Hin|Hnin].
  - apply elem_of_tasks_to_remove in Hin as (r & -> & ->). reflexivity.
  - destruct (tasks !! i) as [r|] eqn:Hl; [|reflexivity].
    destruct (to_remove current_time r) eqn:Hr; [|reflexivity].
    exfalso. apply Hnin, elem_of_tasks_to_remove. eauto.
Qed.

Lemma is_terminal_spec status :
  is_terminal status = true <-> status = "completed" \/ status = "error".
Proof.
  unfold is_terminal. rewrite orb_true_iff, !bool_decide_eq_true. reflexivity.
Qed.

Lemma to_remove_spec current_time r :
  to_remove current_time r = true
  <-> (task_status r = "completed" \/ task_status r = "error")
      /\ 3600 * 1000000
         < DateTime.instant current_time
           - DateTime.instant (default default_created_at (task_created_at r)).
Proof.
  unfold to_remove, expired.
  rewrite andb_true_iff, is_terminal_spec, Z.ltb_lt. reflexivity.
Qed.

(** C9.  The sweep removes a record exactly when its status is [completed]
    or [error] and its [created_at] (2000-01-01 when the record has none)
    lies more than 3600 seconds before the current time.  Every other record
    is still there and unchanged; in particular a [pending] or [running]
    record stays whatever its age, and so does a terminal record inside the
    hour.  Nothing is added. *)
Theorem sweep_removes_exactly current_time (tasks : gmap string TaskRecord)
    (task_id : string) :
  (tasks !! task_id = None ->
   cleanup_old_tasks current_time tasks !! task_id = None)
  /\ (forall r, tasks !! task_id = Some r ->
        let created_at := default default_created_at (task_created_at r) in
        let terminal := task_status r = "completed" \/ task_status r = "error" in
        let age := DateTime.instant current_time - DateTime.instant created_at in
        (terminal /\ 3600 * 1000000 < age ->
           cleanup_old_tasks current_time tasks !! task_id = None)
        /\ (~ (terminal /\ 3600 * 1000000 < age) ->
           cleanup_old_tasks current_time tasks !! task_id = Some r)
        /\ (task_status r = "pending" \/ task_status r = "running" ->
           cleanup_old_tasks current_time tasks !! task_id = Some r)
        /\ (terminal -> age <= 3600 * 1000000 ->
           cleanup_old_tasks current_time tasks !! task_id = Some r)).
Proof.
  split.
  - intros H. now rewrite cleanup_lookup, H.
  - intros r Hr created_at terminal age. rewrite cleanup_lookup, Hr.
    pose proof (to_remove_spec current_time r) as Hspec.
    fold created_at in Hspec. fold terminal age in Hspec.
    destruct (to_remove current_time r).
    + destruct (proj1 Hspec eq_refl) as [Hterm Hage].
      repeat split; try reflexivity.
      * intros Hn. now destruct Hn.
      * intros [Hp|Hp]; destruct Hterm as [Ht|Ht]; rewrite Hp in Ht; discriminate.
      * intros _ Hle. lia.
    + assert (Hn : ~ (terminal /\ 3600 * 1000000 < age))
        by (intros H; apply Hspec in H; discriminate).
      repeat split; try reflexivity. intros H. now destruct Hn.
Qed.

(** The sweep at 2024-01-10 12:00 on four records: a completed one of
    10:00 goes, an error one of 11:30 stays, a running one of 2023 stays,
    and a completed one without [created_at] goes. *)
Example sweep_sample :
  let record status created_at :=
    {| task_type := "transcribe"; task_status := status; task_message := "";
       task_episode_title := "Recent"; task_created_at := created_at |} in
  let at_ y m d h mi :=
    Some {| DateTime.year := y; DateTime.month := m; DateTime.day := d;
            DateTime.hour := h; DateTime.minute := mi; DateTime.second := 0;
            DateTime.microsecond := 0 |} in
  cleanup_old_tasks Sample.now
    (<["a" := record "completed" (at_ 2024 1 10 10 0)]>
       (<["b" := record "error" (at_ 2024 1 10 11 30)]>
          (<["c" := record "running" (at_ 2023 1 1 0 0)]>
             (<["d" := record "completed" None]> ∅))))
  = <["b" := record "error" (at_ 2024 1 10 11 30)]>
      (<["c" := record "running" (at_ 2023 1 1 0 0)]> ∅).
Proof. vm_compute. reflexivity. Qed.

End RegistryFacts.

(* ===================================================================== *)
(** ** Normalizing the provider's result *)
(* ===================================================================== *)

Module NormalizerFacts.
Import Normalizer.

(** The loops with their accumulator against the rendering by filter and map. *)
Lemma nested_utterance_lines_cons u us lines :
  nested_utterance_lines (u :: us) lines
  = if has_text (utt_text u)
    then block ← utterance_block u; nested_utterance_lines us (lines ++ [block])%list
    else nested_utterance_lines us lines.
Proof.
  cbn [nested_utterance_lines]. unfold has_text, utterance_block.
  destruct (PyStr.truthy _); [|reflexivity].
  destruct (timestamp _); reflexivity.
Qed.

Lemma mapM_cons {A B} (f : A -> result B) x l :
  mapM f (x :: l) = (y ← f x; k ← mapM f l; Ok (y :: k)).
Proof. reflexivity. Qed.

Lemma nested_utterance_lines_spec utterances lines :
  nested_utterance_lines utterances lines
  = (blocks ← mapM utterance_block
                (List.filter (fun u => has_text (utt_text u)) utterances);
     Ok (lines ++ blocks)%list).
Proof.
  revert lines. induction utterances as [|u us IH]; intros lines.
  - cbn. now rewrite app_nil_r.
  - rewrite nested_utterance_lines_cons. cbn [List.filter].
    destruct (has_text (utt_text u)); [|apply IH].
    rewrite mapM_cons. destruct (utterance_block u) as [block|e]; [|reflexivity].
    cbn [mbind result_bind]. rewrite IH.
    destruct (mapM _ _) as [blocks|e]; [|reflexivity].
    cbn [mbind result_bind]. now rewrite <- app_assoc.
Qed.

Lemma root_utterance_lines_nested utterances lines :
  root_utterance_lines utterances lines = nested_utterance_lines utterances lines.
Proof.
  revert lines. induction utterances as [|u us IH]; intros lines; [reflexivity|].
  cbn [root_utterance_lines nested_utterance_lines].
  destruct (PyStr.truthy _); [|apply IH].
  destruct (timestamp _); [|reflexivity]. cbn [mbind result_bind]. apply IH.
Qed.

Lemma nested_segment_lines_spec segments lines :
  nested_segment_lines segments lines
  = (lines ++ map segment_line (List.filter (fun s => has_text (seg_text s)) segments))%list.
Proof.
  revert lines. induction segments as [|s ss IH]; intros lines.
  - cbn. now rewrite app_nil_r.
  - cbn [nested_segment_lines List.filter]. unfold has_text at 1.
    destruct (PyStr.truthy _); [|apply IH].
    rewrite IH. cbn [map]. now rewrite <- app_assoc.
Qed.

Lemma root_segment_lines_nested segments lines :
  root_segment_lines segments lines = nested_segment_lines segments lines.
Proof.
  revert lines. induction segments as [|s ss IH]; intros lines; [reflexivity|].
  cbn [root_segment_lines nested_segment_lines].
  destruct (PyStr.truthy _); apply IH.
Qed.

Lemma utterances_rendered utterances :
  (lines ← nested_utterance_lines utterances []; Ok (PyStr.strip (PyStr.join lines)))
  = render (UtteranceList utterances).
Proof.
  rewrite nested_utterance_lines_spec. cbn [render].
  now destruct (mapM _ _).
Qed.

Lemma on_done_nested data r o sh :
  p_result data = Val r ->
  r_transcription r = Some (TObject o) ->
  nested_shape o = Some sh ->
  on_done data = of_result (render sh).
Proof.
  intros Hr Ht Hs. unfold on_done. rewrite Hr, Ht. unfold nested_shape in Hs.
  destruct (t_utterances o) as [us|].
  - injection Hs as <-. now rewrite utterances_rendered.
  - destruct (t_full_transcript o) as [text|]; [now injection Hs as <-|].
    destruct (t_segments o) as [ss|]; [|discriminate]. injection Hs as <-.
    cbn [render of_result]. now rewrite nested_segment_lines_spec.
Qed.

Lemma on_done_root data r sh :
  p_result data = Val r ->
  r_transcription r = None ->
  root_shape r = Some sh ->
  on_done data = of_result (render sh).
Proof.
  intros Hr Ht Hs. unfold on_done. rewrite Hr, Ht. unfold root_shape in Hs.
  destruct (r_utterances r) as [us|].
  - injection Hs as <-.
    now rewrite root_utterance_lines_nested, utterances_rendered.
  - destruct (r_segments r) as [ss|]; [|discriminate]. injection Hs as <-.
    cbn [render of_result].
    now rewrite root_segment_lines_nested, nested_segment_lines_spec.
Qed.

Lemma on_response_done data : p_status data = "done" -> on_response data = on_done data.
Proof. intros H. unfold on_response. now rewrite decide_True. Qed.

(** Whole seconds: minutes and seconds by floor division and remainder,
    and no milliseconds. *)
Lemma timestamp_int (n : Z) :
  timestamp (PyNum.PyInt n)
  = Ok (PyStr.fmt_0d 2 (n / 60) +:+ ":" +:+ PyStr.fmt_0d 2 (n mod 60) +:+ ".000").
Proof.
  unfold timestamp. cbn [PyNum.floordiv PyNum.modulo PyNum.times PyNum.to_int mbind result_bind].
  now rewrite Z.mod_1_r.
Qed.

(** C4, as amended.  On a [done] response the shapes are probed in order.
    Under a [transcription] object: (a) an utterance list, (b) a full
    transcript, (c) a segment list.  At the result root, without a
    [transcription] member: an utterance list, then a segment list.  An
    utterance or segment is rendered when its text is not blank, that is
    when something remains of it after trimming white space; utterances
    become the block [Speaker s | MM:SS.mmm], the text and an empty line,
    segments the line [[s]: text]; the pieces are joined and the whole is
    trimmed; a full transcript is returned as it is.  On whole seconds the
    stamp is floor(start/60), start mod 60 and 000, padded to 2, 2 and 3
    digits.  At 65.5 seconds the stamp is 01:05.500. *)
Theorem normalize_shapes :
  (forall data r o sh,
     p_status data = "done" -> p_result data = Val r ->
     r_transcription r = Some (TObject o) -> nested_shape o = Some sh ->
     on_response data = of_result (render sh))
  /\ (forall data r sh,
        p_status data = "done" -> p_result data = Val r ->
        r_transcription r = None -> root_shape r = Some sh ->
        on_response data = of_result (render sh))
  /\ (forall n : Z,
        timestamp (PyNum.PyInt n)
        = Ok (PyStr.fmt_0d 2 (n / 60) +:+ ":" +:+ PyStr.fmt_0d 2 (n mod 60) +:+ ".000"))
  /\ on_response (Sample.nested_utterances [Sample.hello])
     = Return (VStr ("Speaker A | 01:05.500" +:+ nl +:+ "hello"))
  /\ on_response (Sample.root_utterances [Sample.hello])
     = Return (VStr ("Speaker A | 01:05.500" +:+ nl +:+ "hello"))
  /\ on_response (Sample.nested_full "hi there") = Return (VStr "hi there").
Proof.
  split; [|split; [|split; [|split; [|split]]]].
  - intros data r o sh Hd Hr Ht Hs. rewrite on_response_done by assumption.
    now apply on_done_nested with (r := r) (o := o).
  - intros data r sh Hd Hr Ht Hs. rewrite on_response_done by assumption.
    now apply on_done_root with (r := r).
  - apply timestamp_int.
  - vm_compute. reflexivity.
  - vm_compute. reflexivity.
  - vm_compute. reflexivity.
Qed.

(** C4 as stated fails: an utterance whose text is a single space has a
    non-empty text, yet it is skipped, and the transcript is empty instead
    of the block for that utterance. *)
Lemma blank_text_counterexample :
  utt_text Sample.space = Some " "
  /\ PyStr.truthy " " = true
  /\ utterance_block Sample.space
     = Ok ("Speaker A | 00:00.000" +:+ nl +:+ " " +:+ nl +:+ nl)
  /\ on_response (Sample.nested_utterances [Sample.space]) = Return (VStr "")
  /\ on_response (Sample.root_utterances [Sample.space]) = Return (VStr "").
Proof. repeat split; vm_compute; reflexivity. Qed.

(** A root-level [full_transcript] is not looked at. *)
Example root_full_transcript_ignored :
  on_response (Sample.root_full "hi there")
  = Fail (mk_exn RuntimeError "No transcription data found in result.").
Proof. reflexivity. Qed.

(** Binary64 arithmetic shows in the milliseconds: 2.3 seconds are
    stamped 299, not 300. *)
Example timestamp_float :
  timestamp (PyNum.PyFloat 65.5) = Ok "01:05.500"
  /\ timestamp (PyNum.PyFloat (PyNum.of_Z 23 / PyNum.of_Z 10)) = Ok "00:02.299".
Proof. split; vm_compute; reflexivity. Qed.

(** What does raise: a [done] result without any of the members at the
    root, and the status [error]. *)
Lemma on_response_raises :
  (forall data r,
     p_status data = "done" -> p_result data = Val r ->
     r_transcription r = None -> r_utterances r = None -> r_segments r = None ->
     on_response data
     = Fail (mk_exn RuntimeError "No transcription data found in result."))
  /\ (forall data,
        p_status data = "error" ->
        on_response data
        = Fail (mk_exn RuntimeError
                  ("Transcription failed: "
                   +:+ show (default (LStr "Unknown error") (p_error_code data))))).
Proof.
  split.
  - intros data r Hd Hr Ht Hu Hs. rewrite on_response_done by assumption.
    unfold on_done. now rewrite Hr, Ht, Hu, Hs.
  - intros data He. unfold on_response. rewrite He.
    rewrite decide_False by discriminate. now rewrite decide_True.
Qed.

End NormalizerFacts.

(* ===================================================================== *)
(** ** Saving and loading the Status Store *)
(* ===================================================================== *)

Module StoreFacts.
Import Store.

Lemma save_status_Ok status w w' :
  save_status status w = Ok w' ->
  w' = stopped_at status Closed w /\ status_writable w' = true.
Proof.
  unfold save_status. destruct (status_writable w) eqn:Hw; [|discriminate].
  intros [= <-]. now split.
Qed.

Lemma load_saved status w w' : save_status status w = Ok w' -> load_status w' = Ok status.
Proof.
  intros H. apply save_status_Ok in H as [-> _].
  unfold load_status. simpl. apply JsonFacts.loads_dumps.
Qed.

Lemma save_reaches_bound text p :
  save_reaches text p ->
  match p with
  | Opened k => (k <= String.length text)%nat
  | _ => True
  end.
Proof.
  induction 1 as [|p p' _ _ Hstep]; [exact I|].
  destruct Hstep; trivial. lia.
Qed.

Lemma save_reaches_opened text k :
  (k <= String.length text)%nat -> save_reaches text (Opened k).
Proof.
  intros Hk. destruct k as [|k].
  - apply reaches_step with (p := Before); constructor.
  - apply reaches_step with (p := Opened 0).
    + apply reaches_step with (p := Before); constructor.
    + constructor; lia.
Qed.

Lemma take_all s : PyStr.take (String.length s) s = s.
Proof.
  unfold PyStr.take. induction s as [|c s IH]; [reflexivity|].
  simpl. now rewrite IH.
Qed.

(** C8, as amended.  A save that runs to its end leaves the text of the
    new mapping, and the next load returns exactly that mapping, whatever
    the file held before; of two saves one after the other, the second is
    what a load returns.  The save is not atomic: it first truncates the
    file and then writes the text in place, so from the moment it opens the
    file until the last character is written the file holds a proper prefix
    of the new text, and a load of any such prefix raises
    [JSONDecodeError]. *)
Theorem save_then_load (status : StatusStore) (w : World) :
  (forall w', save_status status w = Ok w' ->
     w' = stopped_at status Closed w /\ load_status w' = Ok status)
  /\ (forall status2 w1 w2,
        save_status status w = Ok w1 -> save_status status2 w1 = Ok w2 ->
        load_status w2 = Ok status2)
  /\ (forall p, save_reaches (Json.dumps status) p ->
        match p with
        | Before => load_status (stopped_at status p w) = load_status w
        | Opened k =>
            (k < String.length (Json.dumps status))%nat
              /\ (exists msg, load_status (stopped_at status p w)
                              = Raise (mk_exn JSONDecodeError msg))
            \/ k = String.length (Json.dumps status)
              /\ load_status (stopped_at status p w) = Ok status
        | Closed => load_status (stopped_at status p w) = Ok status
        end)
  /\ (forall k, (k <= String.length (Json.dumps status))%nat ->
        save_reaches (Json.dumps status) (Opened k)).
Proof.
  split; [|split; [|split]].
  - intros w' H. split; [now apply save_status_Ok in H|now apply load_saved in H].
  - intros status2 w1 w2 _ H. now apply load_saved in H.
  - intros p Hp. pose proof (save_reaches_bound _ _ Hp) as Hb.
    destruct p as [|k|].
    + unfold stopped_at, load_status. simpl. now destruct (status_file w).
    + destruct (decide (k = String.length (Json.dumps status))) as [->|Hne].
      * right. split; [reflexivity|]. unfold stopped_at, load_status. simpl.
        rewrite take_all. apply JsonFacts.loads_dumps.
      * left. split; [lia|]. unfold stopped_at, load_status. simpl.
        apply JsonFacts.loads_truncated. lia.
    + unfold stopped_at, load_status. simpl. apply JsonFacts.loads_dumps.
  - apply save_reaches_opened.
Qed.

(** C8 as stated fails.  The file holds a store with one completed record
    and a second store is being saved.  Stopped right after [open], the save
    leaves an empty file: a load raises, and returns neither the previous
    mapping nor the new one.  And when two saves overlap so that both have
    opened the file before either writes, the shorter text written last
    leaves the tail of the longer one behind it: what the last writer wrote
    is not what a load returns. *)
Lemma interrupted_save_corrupts :
  load_status Sample.world_completed = Ok Sample.store_completed
  /\ save_reaches (Json.dumps Sample.store_error) (Opened 0)
  /\ status_file (stopped_at Sample.store_error (Opened 0) Sample.world_completed)
     = Some ""
  /\ load_status (stopped_at Sample.store_error (Opened 0) Sample.world_completed)
     = Raise (mk_exn JSONDecodeError "Expecting value")
  /\ Json.loads
       (content
          (run_schedule
             [(WriterA, OpOpen); (WriterB, OpOpen);
              (WriterA, OpWrite (Json.dumps Sample.store_completed)); (WriterA, OpClose);
              (WriterB, OpWrite (Json.dumps Sample.store_error)); (WriterB, OpClose)]
             {| content := Json.dumps Sample.store_completed;
                offset_a := 0; offset_b := 0 |}))
     = Raise (mk_exn JSONDecodeError "Extra data").
Proof.
  split; [apply JsonFacts.loads_dumps|].
  split; [apply reaches_step with (p := Before); constructor|].
  split; [reflexivity|]. split; [reflexivity|].
  vm_compute. reflexivity.
Qed.

End StoreFacts.

(* ===================================================================== *)
(** ** The transcription job *)
(* ===================================================================== *)

Module JobFacts.
Import Job.

Lemma set_task_registered task_id f w r :
  background_tasks w !! task_id = Some r ->
  set_task task_id f w
  = (set_tasks w (<[task_id := f r]> (background_tasks w)), Finished (Ok tt)).
Proof. intros H. unfold set_task, Registry.update. now rewrite H. Qed.

Lemma set_task_unregistered task_id f w :
  background_tasks w !! task_id = None ->
  set_task task_id f w = (w, Finished (Raise (mk_exn KeyError ("'" +:+ task_id +:+ "'")))).
Proof. intros H. unfold set_task, Registry.update. now rewrite H. Qed.

Lemma bindM_Ok {A B} (m : M A) (k : A -> M B) w w1 a :
  m w = (w1, Finished (Ok a)) -> bindM m k w = k a w1.
Proof. intros H. unfold bindM. now rewrite H. Qed.

Lemma bindM_Raise {A B} (m : M A) (k : A -> M B) w w1 e :
  m w = (w1, Finished (Raise e)) -> bindM m k w = (w1, Finished (Raise e)).
Proof. intros H. unfold bindM. now rewrite H. Qed.

Lemma bindM_Polling {A B} (m : M A) (k : A -> M B) w w1 :
  m w = (w1, Polling) -> bindM m k w = (w1, Polling).
Proof. intros H. unfold bindM. now rewrite H. Qed.

(** A provider that keeps answering [done] with an empty [transcription]
    object keeps the loop going: after any number of answers the job has
    neither returned nor raised. *)
Lemma poll_loop_sleeps data task_id n w :
  Normalizer.on_response data = Normalizer.Sleep ->
  registered task_id w ->
  snd (poll_loop task_id (repeat (Ok data) n) w) = Polling.
Proof.
  intros Hsleep. revert w. induction n as [|n IH]; intros w [r Hr]; [reflexivity|].
  cbn [repeat poll_loop].
  rewrite (bindM_Ok _ _ w w data) by reflexivity.
  erewrite bindM_Ok by (apply set_task_registered; eassumption).
  rewrite Hsleep. apply IH.
  exists (Registry.with_message ("Transcription status: " +:+ p_status data) r).
  simpl. apply lookup_insert_eq.
Qed.

(** C5 at the failing input: the result [{"transcription": {}}] of a
    [done] response holds none of the recognized shapes, and no error is
    raised; the response is treated like one that is still in progress, for
    as long as the provider repeats it.  A [null] under [transcription] is
    no recognized shape either: it is returned as it is, and no error is
    raised by the normalization.  The two cases of the claim that the code
    does raise in: a [done] result without [transcription], [utterances]
    and [segments], and the status [error]. *)
Lemma empty_transcription_polls_forever :
  Normalizer.on_response Sample.empty_transcription = Normalizer.Sleep
  /\ (forall n task_id w,
        registered task_id w ->
        snd (poll_loop task_id (repeat (Ok Sample.empty_transcription) n) w) = Polling)
  /\ Normalizer.on_response Sample.null_transcription = Normalizer.Return VNone
  /\ (forall data result,
        p_status data = "done" -> p_result data = Val result ->
        r_transcription result = None -> r_utterances result = None ->
        r_segments result = None ->
        Normalizer.on_response data
        = Normalizer.Fail (mk_exn RuntimeError "No transcription data found in result."))
  /\ (forall data,
        p_status data = "error" ->
        exists msg, Normalizer.on_response data
                    = Normalizer.Fail (mk_exn RuntimeError ("Transcription failed: " +:+ msg))).
Proof.
  split; [reflexivity|]. split.
  { intros n task_id w Hreg. now apply poll_loop_sleeps. }
  split; [reflexivity|]. split.
  - intros data result Hs Hr Ht Hu Hseg. unfold Normalizer.on_response.
    rewrite Hs. cbn. unfold Normalizer.on_done. now rewrite Hr, Ht, Hu, Hseg.
  - intros data Hs. unfold Normalizer.on_response. rewrite Hs. cbn. eauto.
Qed.


(** *** What each statement touches *)

Lemma keeps_files_ret {A} (a : A) : keeps_files (ret a).
Proof. now intros w. Qed.

Lemma keeps_files_raise {A} e : keeps_files (@raise A e).
Proof. now intros w. Qed.

Lemma keeps_files_lift {A} (r : result A) : keeps_files (lift r).
Proof. now intros w. Qed.

Lemma keeps_files_set_task task_id f : keeps_files (set_task task_id f).
Proof.
  intros w. unfold set_task. now destruct (Registry.update _ _ _).
Qed.

Lemma keeps_files_load_status : keeps_files load_status.
Proof. now intros w. Qed.

Lemma keeps_files_bind {A B} (m : M A) (k : A -> M B) :
  keeps_files m -> (forall a, keeps_files (k a)) -> keeps_files (bindM m k).
Proof.
  intros Hm Hk w. unfold bindM. specialize (Hm w).
  destruct (m w) as [w1 [[a|e]|]]; simpl in *; try assumption.
  destruct (Hk a w1) as [H1 H2]. destruct Hm as [H3 H4].
  split; congruence.
Qed.

Lemma keeps_files_poll_loop task_id answers : keeps_files (poll_loop task_id answers).
Proof.
  induction answers as [|answer rest IH]; [now intros w|].
  cbn [poll_loop]. apply keeps_files_bind; [apply keeps_files_lift|].
  intros data. apply keeps_files_bind; [apply keeps_files_set_task|].
  intros _. destruct (Normalizer.on_response data);
    [apply keeps_files_ret|apply keeps_files_raise|apply IH].
Qed.

Lemma keeps_files_transcribe_with_gladia env task_id :
  keeps_files (transcribe_with_gladia env task_id).
Proof.
  assert (H : keeps_files (upload_and_poll env task_id)).
  { unfold upload_and_poll.
    repeat (apply keeps_files_bind; [apply keeps_files_lift|intros ?]).
    destruct (PyStr.truthy _); [apply keeps_files_poll_loop|apply keeps_files_raise]. }
  intros w. unfold transcribe_with_gladia. specialize (H w).
  now destruct (upload_and_poll env task_id w) as [w1 [[a|e]|]].
Qed.

Lemma keeps_files_save_transcript env folder text :
  keeps_files (save_transcript env folder text).
Proof.
  unfold save_transcript. apply keeps_files_bind; [apply keeps_files_lift|].
  intros _ w. now destruct text.
Qed.

Lemma registered_set_tasks task_id w tasks :
  is_Some (tasks !! task_id) -> registered task_id (set_tasks w tasks).
Proof. now intros H. Qed.

Lemma keeps_registered_set_task task_id task_id' f :
  keeps_registered task_id (set_task task_id' f).
Proof.
  intros w Hreg. unfold set_task, Registry.update.
  destruct (background_tasks w !! task_id') as [r|] eqn:E; [|assumption].
  apply registered_set_tasks. unfold registered in Hreg.
  destruct (decide (task_id' = task_id)) as [->|Hne].
  - rewrite lookup_insert_eq. eauto.
  - now rewrite lookup_insert_ne.
Qed.

Lemma keeps_registered_of_files {A} task_id (m : M A) :
  (forall w, background_tasks (fst (m w)) = background_tasks w) ->
  keeps_registered task_id m.
Proof. intros H w Hreg. unfold registered. now rewrite H. Qed.

Lemma keeps_registered_bind {A B} task_id (m : M A) (k : A -> M B) :
  keeps_registered task_id m -> (forall a, keeps_registered task_id (k a)) ->
  keeps_registered task_id (bindM m k).
Proof.
  intros Hm Hk w Hreg. unfold bindM. specialize (Hm w Hreg).
  destruct (m w) as [w1 [[a|e]|]]; simpl in *; try assumption.
  now apply Hk.
Qed.

Lemma keeps_registered_save_status task_id status :
  keeps_registered task_id (save_status status).
Proof.
  apply keeps_registered_of_files. intros w. unfold save_status, Store.save_status.
  now destruct (status_writable w).
Qed.

Lemma keeps_registered_poll_loop task_id task_id' answers :
  keeps_registered task_id (poll_loop task_id' answers).
Proof.
  induction answers as [|answer rest IH]; [now intros w|].
  cbn [poll_loop]. apply keeps_registered_bind; [now apply keeps_registered_of_files|].
  intros data. apply keeps_registered_bind; [apply keeps_registered_set_task|].
  intros _. destruct (Normalizer.on_response data);
    [now apply keeps_registered_of_files..|apply IH].
Qed.

Lemma keeps_registered_transcribe_with_gladia task_id env task_id' :
  keeps_registered task_id (transcribe_with_gladia env task_id').
Proof.
  assert (H : keeps_registered task_id (upload_and_poll env task_id')).
  { unfold upload_and_poll.
    repeat (apply keeps_registered_bind; [now apply keeps_registered_of_files|intros ?]).
    destruct (PyStr.truthy _);
      [apply keeps_registered_poll_loop|now apply keeps_registered_of_files]. }
  intros w Hreg. unfold transcribe_with_gladia. specialize (H w Hreg).
  now destruct (upload_and_poll env task_id' w) as [w1 [[a|e]|]].
Qed.

Lemma keeps_registered_save_transcript task_id env folder text :
  keeps_registered task_id (save_transcript env folder text).
Proof.
  unfold save_transcript.
  apply keeps_registered_bind; [now apply keeps_registered_of_files|].
  intros _. apply keeps_registered_of_files. intros w. now destruct text.
Qed.


Lemma keeps_files_run_stages env episode_data task_id :
  keeps_files (run_stages env episode_data task_id).
Proof.
  unfold run_stages.
  do 2 (apply keeps_files_bind; [apply keeps_files_set_task|intros _]).
  destruct (negb _); [apply keeps_files_raise|].
  apply keeps_files_bind; [apply keeps_files_lift|intros _].
  apply keeps_files_bind; [apply keeps_files_set_task|intros _].
  apply keeps_files_bind; [apply keeps_files_lift|intros _].
  apply keeps_files_bind; [apply keeps_files_set_task|intros _].
  apply keeps_files_bind; [apply keeps_files_transcribe_with_gladia|intros transcript].
  apply keeps_files_save_transcript.
Qed.

Lemma keeps_registered_run_stages task_id env episode_data task_id' :
  keeps_registered task_id (run_stages env episode_data task_id').
Proof.
  unfold run_stages.
  do 2 (apply keeps_registered_bind; [apply keeps_registered_set_task|intros _]).
  destruct (negb _); [now apply keeps_registered_of_files|].
  apply keeps_registered_bind; [now apply keeps_registered_of_files|intros _].
  apply keeps_registered_bind; [apply keeps_registered_set_task|intros _].
  apply keeps_registered_bind; [now apply keeps_registered_of_files|intros _].
  apply keeps_registered_bind; [apply keeps_registered_set_task|intros _].
  apply keeps_registered_bind;
    [apply keeps_registered_transcribe_with_gladia|intros transcript].
  apply keeps_registered_save_transcript.
Qed.

(** *** The Status Store stays sound *)

Lemma load_status_files w w' :
  status_file w' = status_file w -> Store.load_status w' = Store.load_status w.
Proof. intros H. unfold Store.load_status. now rewrite H. Qed.

Lemma sound_files w w' : status_file w' = status_file w -> Store.sound w -> Store.sound w'.
Proof.
  intros H (status & Hl & Ht). exists status. split; [|assumption].
  now rewrite (load_status_files w w').
Qed.

Lemma keeps_sound_of_files {A} (m : M A) : keeps_files m -> keeps_sound m.
Proof. intros H w. apply sound_files, H. Qed.

Lemma keeps_sound_bind {A B} (m : M A) (k : A -> M B) :
  keeps_sound m -> (forall a, keeps_sound (k a)) -> keeps_sound (bindM m k).
Proof.
  intros Hm Hk w Hs. unfold bindM. specialize (Hm w Hs).
  destruct (m w) as [w1 [[a|e]|]]; simpl in *; try assumption.
  now apply Hk.
Qed.

Lemma all_terminal_insert (status : StatusStore) episode_id (r : StatusRecord) :
  Store.all_terminal status ->
  r !! "status" = Some "completed" \/ r !! "status" = Some "error" ->
  Store.all_terminal (<[episode_id := r]> status).
Proof.
  intros Hall Hr i r' Hl. destruct (decide (episode_id = i)) as [->|Hne].
  - rewrite lookup_insert_eq in Hl. now injection Hl as <-.
  - rewrite lookup_insert_ne in Hl by assumption. now apply (Hall i).
Qed.

Lemma load_after_save status w w' :
  Store.save_status status w = Ok w' -> Store.load_status w' = Ok status.
Proof.
  unfold Store.save_status. destruct (status_writable w); [|discriminate].
  intros [= <-]. unfold Store.load_status. simpl. apply JsonFacts.loads_dumps.
Qed.

(** Loading, inserting a terminal record and saving keeps the store sound. *)
Lemma keeps_sound_load_save {B} episode_id (r : StatusRecord) (k : M B) :
  r !! "status" = Some "completed" \/ r !! "status" = Some "error" ->
  keeps_sound k ->
  keeps_sound (status <~ load_status;; save_status (<[episode_id := r]> status);;; k).
Proof.
  intros Hr Hk w Hs. unfold bindM at 1. unfold load_status at 1.
  destruct Hs as (status & Hl & Ht). rewrite Hl.
  unfold bindM, save_status.
  destruct (Store.save_status _ w) as [w1|e] eqn:Hsave.
  - apply Hk. exists (<[episode_id := r]> status). split.
    + now apply load_after_save with (w := w).
    + now apply all_terminal_insert.
  - simpl. now exists status.
Qed.

Lemma completed_record_status p c n t :
  completed_record p c n t !! "status" = Some "completed".
Proof. apply lookup_insert_eq. Qed.

Lemma error_record_status e f n t : error_record e f n t !! "status" = Some "error".
Proof. apply lookup_insert_eq. Qed.

Lemma keeps_sound_record_success env episode_data task_id transcript_path :
  keeps_sound (record_success env episode_data task_id transcript_path).
Proof.
  unfold record_success. apply keeps_sound_load_save.
  - left. apply completed_record_status.
  - apply keeps_sound_of_files.
    do 2 (apply keeps_files_bind; [apply keeps_files_set_task|intros _]).
    apply keeps_files_ret.
Qed.

Lemma keeps_sound_except_block env episode_data task_id e :
  keeps_sound (except_block env episode_data task_id e).
Proof.
  unfold except_block.
  do 2 (apply keeps_sound_bind;
        [apply keeps_sound_of_files, keeps_files_set_task|intros _]).
  apply keeps_sound_load_save.
  - right. apply error_record_status.
  - apply keeps_sound_of_files, keeps_files_ret.
Qed.

Lemma keeps_sound_transcribe_episode env episode_data task_id :
  keeps_sound (transcribe_episode env episode_data task_id).
Proof.
  intros w Hs. unfold transcribe_episode.
  assert (Htry : Store.sound (fst (try_block env episode_data task_id w))).
  { revert w Hs. apply keeps_sound_bind.
    - apply keeps_sound_of_files, keeps_files_run_stages.
    - intros p. apply keeps_sound_record_success. }
  destruct (try_block env episode_data task_id w) as [w1 [[p|e]|]]; simpl in *;
    try assumption.
  now apply keeps_sound_except_block.
Qed.


(** *** What the handler records *)

Lemma record_success_raise env episode_data task_id transcript_path w w1 e :
  registered task_id w ->
  record_success env episode_data task_id transcript_path w = (w1, Finished (Raise e)) ->
  w1 = w.
Proof.
  intros [r Hr]. unfold record_success, bindM at 1, load_status at 1.
  destruct (Store.load_status w) as [status|e0]; [|now intros [= <- _]].
  unfold bindM at 1, save_status at 1.
  destruct (Store.save_status _ w) as [w'|e0] eqn:Hsave; [|now intros [= <- _]].
  assert (Htasks : background_tasks w' = background_tasks w).
  { unfold Store.save_status in Hsave. destruct (status_writable w); [|discriminate].
    now injection Hsave as <-. }
  erewrite bindM_Ok by (apply set_task_registered; rewrite Htasks; eassumption).
  erewrite bindM_Ok by (apply set_task_registered; simpl; apply lookup_insert_eq).
  discriminate.
Qed.

Lemma try_block_raise env episode_data task_id w w1 e :
  registered task_id w ->
  try_block env episode_data task_id w = (w1, Finished (Raise e)) ->
  registered task_id w1
  /\ status_file w1 = status_file w /\ status_writable w1 = status_writable w.
Proof.
  intros Hreg. unfold try_block, bindM.
  pose proof (keeps_files_run_stages env episode_data task_id w) as [Hf Hw].
  pose proof (keeps_registered_run_stages task_id env episode_data task_id w Hreg) as Hr.
  destruct (run_stages env episode_data task_id w) as [w0 [[p|e0]|]]; simpl in *.
  - intros H. apply record_success_raise in H; [|assumption]. now subst w1.
  - now intros [= <- _].
  - discriminate.
Qed.

Lemma except_block_records env episode_data task_id e w r status :
  background_tasks w !! task_id = Some r ->
  status_writable w = true ->
  Store.load_status w = Ok status ->
  except_block env episode_data task_id e w
  = (set_status_file
       (set_tasks w
          (<[task_id := Registry.with_message ("Error: " +:+ exn_str e)
                          (Registry.with_status "error" r)]> (background_tasks w)))
       (Some (Json.dumps
                (<[default "" (ed_id episode_data) :=
                     error_record (exn_str e) (naive_isoformat (je_now env))
                       (default "podcast" (ed_podcast_name episode_data))
                       (default "episode" (ed_title episode_data))]> status))),
     Finished (Ok VNone)).
Proof.
  intros Hr Hw Hl. unfold except_block.
  erewrite bindM_Ok by (apply set_task_registered; eassumption).
  erewrite bindM_Ok by (apply set_task_registered; simpl; apply lookup_insert_eq).
  unfold bindM at 1, load_status at 1.
  rewrite (load_status_files w) by reflexivity. rewrite Hl.
  unfold bindM, save_status, Store.save_status. simpl. rewrite Hw.
  unfold ret. simpl. now rewrite insert_insert_eq.
Qed.

(** C7, as amended.  The job runs for a registered task, and the Status
    Store can be loaded and written.  Then whatever exception the [try]
    block raises, at whatever stage, the job returns [None]: the Task Record
    has status [error] and the message [Error: ] followed by the text of the
    exception, and the Status Store is the one loaded with, under the
    episode identifier, a record of status [error] holding that text and the
    time of failure.  No exception leaves the job, and the stages are not
    run again. *)
Theorem job_failure_recorded env episode_data task_id w r status :
  background_tasks w !! task_id = Some r ->
  status_writable w = true ->
  Store.load_status w = Ok status ->
  (forall w1 e,
     try_block env episode_data task_id w = (w1, Finished (Raise e)) ->
     exists w2 r2 record,
       transcribe_episode env episode_data task_id w = (w2, Finished (Ok VNone))
       /\ background_tasks w2 !! task_id = Some r2
       /\ task_status r2 = "error"
       /\ task_message r2 = "Error: " +:+ exn_str e
       /\ Store.load_status w2 = Ok (<[default "" (ed_id episode_data) := record]> status)
       /\ record !! "status" = Some "error"
       /\ record !! "error" = Some (exn_str e)
       /\ record !! "failed_at" = Some (naive_isoformat (je_now env)))
  /\ (forall w2 e,
        transcribe_episode env episode_data task_id w <> (w2, Finished (Raise e))).
Proof.
  intros Hr Hw Hl.
  assert (Hreg : registered task_id w) by (now exists r).
  assert (Hexc : forall w1 e,
             try_block env episode_data task_id w = (w1, Finished (Raise e)) ->
             exists r1, background_tasks w1 !! task_id = Some r1
                        /\ status_writable w1 = true
                        /\ Store.load_status w1 = Ok status).
  { intros w1 e Htry. apply try_block_raise in Htry as ([r1 Hr1] & Hf & Hw1); [|assumption].
    exists r1. repeat split; [assumption|congruence|].
    now rewrite (load_status_files w w1). }
  split.
  - intros w1 e Htry. destruct (Hexc w1 e Htry) as (r1 & Hr1 & Hw1 & Hl1).
    unfold transcribe_episode. rewrite Htry.
    rewrite (except_block_records env episode_data task_id e w1 r1 status) by assumption.
    eexists _, _, _. split; [reflexivity|]. simpl.
    split; [apply lookup_insert_eq|]. split; [reflexivity|]. split; [reflexivity|].
    split; [unfold Store.load_status; simpl; apply JsonFacts.loads_dumps|].
    unfold error_record. split; [apply lookup_insert_eq|].
    split; [now rewrite lookup_insert_ne, lookup_insert_eq|].
    rewrite !lookup_insert_ne by discriminate. apply lookup_insert_eq.
  - intros w2 e. unfold transcribe_episode.
    destruct (try_block env episode_data task_id w) as [w1 [[p|e0]|]] eqn:Htry;
      try discriminate.
    destruct (Hexc w1 e0 eq_refl) as (r1 & Hr1 & Hw1 & Hl1).
    rewrite (except_block_records env episode_data task_id e0 w1 r1 status) by assumption.
    discriminate.
Qed.

(** [job_failure_recorded] at a job whose download fails. *)
Lemma job_failure_recorded_witness :
  background_tasks (Sample.world true) !! Sample.task = Some Sample.pending
  /\ status_writable (Sample.world true) = true
  /\ Store.load_status (Sample.world true) = Ok ∅
  /\ exists w2 r2 record,
       transcribe_episode Sample.env_no_audio Sample.target Sample.task (Sample.world true)
       = (w2, Finished (Ok VNone))
       /\ background_tasks w2 !! Sample.task = Some r2
       /\ task_status r2 = "error"
       /\ task_message r2 = "Error: 404 Client Error: Not Found"
       /\ Store.load_status w2 = Ok (<["f7880620_ep-recent" := record]> ∅)
       /\ record !! "status" = Some "error"
       /\ record !! "error" = Some "404 Client Error: Not Found"
       /\ record !! "failed_at" = Some "2024-01-10T12:00:00".
Proof.
  split; [reflexivity|]. split; [reflexivity|]. split; [reflexivity|].
  apply (proj1 (job_failure_recorded Sample.env_no_audio Sample.target Sample.task
                  (Sample.world true) Sample.pending ∅ eq_refl eq_refl eq_refl)
           (fst (try_block Sample.env_no_audio Sample.target Sample.task (Sample.world true)))
           (mk_exn OSError "404 Client Error: Not Found")).
  vm_compute. reflexivity.
Defined.

(** C7 as stated fails: when [status.json] cannot be opened for writing,
    the exception of the status write is caught and the Task Record is set
    to [error], but the handler fails on the same write; the exception
    leaves the job and no Status Record exists. *)
Lemma status_write_failure_escapes :
  registered Sample.task (Sample.world false)
  /\ exists w2 r2 msg,
       transcribe_episode Sample.env_ok Sample.target Sample.task (Sample.world false)
       = (w2, Finished (Raise (mk_exn OSError msg)))
       /\ background_tasks w2 !! Sample.task = Some r2
       /\ task_status r2 = "error"
       /\ status_file w2 = None.
Proof.
  split; [now exists Sample.pending|].
  eexists _, _, _. split; [vm_compute; reflexivity|].
  split; [vm_compute; reflexivity|]. split; reflexivity.
Qed.

End JobFacts.

(* ===================================================================== *)
(** ** The request handlers *)
(* ===================================================================== *)

Module ServerFacts.
Import Server.

Lemma find_entry_Some feed episode_id entries target :
  find_entry feed episode_id entries = Some target ->
  exists entry audio_url,
    In entry entries /\ Aggregator.audio_of entry = Some audio_url
    /\ EpisodeId.derive_id (feed_rss feed) entry = episode_id
    /\ target = {| ed_id := Some episode_id;
                   ed_podcast_name := Some (feed_name feed);
                   ed_title := Some (default "Unknown Title" (entry_title entry));
                   ed_audio_url := Some audio_url |}.
Proof.
  induction entries as [|entry rest IH]; simpl; [discriminate|].
  destruct (Aggregator.audio_of entry) as [audio_url|] eqn:Ha.
  - destruct (decide (_ = episode_id)) as [Hid|Hid].
    + intros [= <-]. exists entry, audio_url. repeat split; auto.
      now rewrite <- EpisodeIdFacts.start_transcription_id_derive.
    + intros H. destruct (IH H) as (e & a & Hin & He). exists e, a. auto.
  - intros H. destruct (IH H) as (e & a & Hin & He). exists e, a. auto.
Qed.

Lemma find_entry_None feed episode_id entries :
  find_entry feed episode_id entries = None ->
  forall entry audio_url,
    In entry entries -> Aggregator.audio_of entry = Some audio_url ->
    EpisodeId.derive_id (feed_rss feed) entry <> episode_id.
Proof.
  induction entries as [|e rest IH]; simpl; [now intros _ ? ? []|].
  intros H entry audio_url [->|Hin] Ha.
  - rewrite Ha in H. destruct (decide (_ = episode_id)) as [Hid|Hid]; [discriminate|].
    now rewrite <- EpisodeIdFacts.start_transcription_id_derive.
  - apply IH with (audio_url := audio_url); try assumption.
    destruct (Aggregator.audio_of e); [|assumption].
    now destruct (decide (_ = episode_id)).
Qed.

Lemma find_episode_Some o episode_id fs target :
  (forall f, In f fs -> In f (feeds o)) ->
  find_episode (parse o) episode_id fs = Some target ->
  resolves o episode_id.
Proof.
  induction fs as [|feed rest IH]; simpl; [discriminate|]. intros Hsub.
  assert (Hrest : forall f, In f rest -> In f (feeds o)) by (intros f Hf; apply Hsub; now right).
  destruct (parse o (feed_rss feed)) as [entries|] eqn:Hp; [|now apply IH].
  destruct (find_entry feed episode_id entries) as [t|] eqn:Hf; [|now apply IH].
  intros _. apply find_entry_Some in Hf as (entry & audio_url & Hin & Ha & Hid & _).
  exists feed, entries, entry, audio_url. repeat split; auto.
Qed.

Lemma find_episode_None o episode_id fs :
  find_episode (parse o) episode_id fs = None ->
  forall feed entries entry audio_url,
    In feed fs -> parse o (feed_rss feed) = Ok entries ->
    In entry entries -> Aggregator.audio_of entry = Some audio_url ->
    EpisodeId.derive_id (feed_rss feed) entry <> episode_id.
Proof.
  induction fs as [|f rest IH]; simpl; [now intros _ ? ? ? ? []|].
  intros H feed entries entry audio_url [->|Hin] Hp He Ha.
  - rewrite Hp in H. destruct (find_entry feed episode_id entries) eqn:Hf; [discriminate|].
    now apply (find_entry_None feed episode_id entries Hf entry audio_url).
  - apply IH with (entries := entries) (audio_url := audio_url); try assumption.
    destruct (parse o (feed_rss f)) as [es|]; [|assumption].
    now destruct (find_entry f episode_id es).
Qed.

Lemma find_episode_resolves o episode_id :
  resolves o episode_id <-> exists target,
    find_episode (parse o) episode_id (feeds o) = Some target.
Proof.
  split.
  - intros (feed & entries & entry & audio_url & Hf & Hp & He & Ha & Hid).
    destruct (find_episode (parse o) episode_id (feeds o)) as [t|] eqn:Hfind; [eauto|].
    exfalso. now apply (find_episode_None o episode_id (feeds o) Hfind
                          feed entries entry audio_url).
  - intros [target H]. now apply (find_episode_Some o episode_id (feeds o) target).
Qed.

Lemma already_completed_spec status episode_id :
  already_completed status episode_id = true <-> marked_completed status episode_id.
Proof.
  unfold already_completed, marked_completed.
  destruct (status !! episode_id) as [r|].
  - rewrite bool_decide_eq_true. split; [eauto|]. now intros (r' & [= <-] & H).
  - split; [discriminate|]. now intros (r' & [=] & _).
Qed.

(** C6.  [POST /transcribe/{episode_id}]: when no feed entry resolves to
    the identifier the answer is 404; when one does and the Status Store
    marks the identifier completed the answer is 400, and nothing changes:
    no Task Record, no job; otherwise a Task Record with status [pending] is
    created under a new task identifier, the job is handed to a thread, and
    the answer carries the task identifier and a message. *)
Theorem start_transcription_outcomes (o : Outside) (episode_id : string) (w : World) :
  (~ resolves o episode_id ->
   start_transcription o episode_id w
   = (w, Raise (mk_exn (HTTPException 404) "Episode not found")))
  /\ (forall status,
        resolves o episode_id ->
        Store.load_status w = Ok status ->
        marked_completed status episode_id ->
        start_transcription o episode_id w
        = (w, Raise (mk_exn (HTTPException 400) "Episode already transcribed")))
  /\ (forall status,
        resolves o episode_id ->
        Store.load_status w = Ok status ->
        ~ marked_completed status episode_id ->
        exists w' task_id target record,
          start_transcription o episode_id w
          = (w', Ok {| st_task_id := task_id;
                       st_message := "Transcription task started" |})
          /\ task_id = "transcribe_" +:+ episode_id +:+ "_" +:+ PyStr.str_int (time_time o)
          /\ background_tasks w' = <[task_id := record]> (background_tasks w)
          /\ task_status record = "pending"
          /\ task_created_at record = Some (now_local o)
          /\ threads w' = (threads w ++ [(target, task_id)])%list
          /\ ed_id target = Some episode_id
          /\ status_file w' = status_file w).
Proof.
  split; [|split].
  - intros Hno. unfold start_transcription.
    destruct (find_episode (parse o) episode_id (feeds o)) as [t|] eqn:Hfind;
      [|reflexivity].
    exfalso. apply Hno, find_episode_resolves. eauto.
  - intros status Hres Hl Hdone. unfold start_transcription.
    apply find_episode_resolves in Hres as [t ->]. rewrite Hl.
    apply already_completed_spec in Hdone. now rewrite Hdone.
  - intros status Hres Hl Hnot. unfold start_transcription.
    pose proof Hres as Hres'.
    apply find_episode_resolves in Hres as [t Hfind]. rewrite Hfind, Hl.
    destruct (already_completed status episode_id) eqn:Hdone;
      [exfalso; now apply Hnot, already_completed_spec|].
    eexists _, _, t, _. split; [reflexivity|].
    repeat split.
    clear - Hfind. revert Hfind. generalize (feeds o) as fs.
    induction fs as [|feed rest IH]; simpl; [discriminate|].
    destruct (parse o (feed_rss feed)) as [entries|]; [|apply IH].
    destruct (find_entry feed episode_id entries) as [t'|] eqn:Hf; [|apply IH].
    intros [= <-]. apply find_entry_Some in Hf as (e & a & _ & _ & _ & ->).
    reflexivity.
Qed.

(** Three requests for the recent episode of the sample feed: an unknown
    identifier, a fresh start, and a start after completion. *)
Example start_transcription_404 :
  snd (start_transcription
         {| feeds := [Sample.pod]; parse := Sample.serve [Sample.recent];
            now_utc := Sample.now; now_local := Sample.now; time_time := 1704888000 |}
         "f7880620_nope" (Sample.world true))
  = Raise (mk_exn (HTTPException 404) "Episode not found").
Proof. vm_compute. reflexivity. Qed.

Example start_transcription_started :
  snd (start_transcription
         {| feeds := [Sample.pod]; parse := Sample.serve [Sample.recent];
            now_utc := Sample.now; now_local := Sample.now; time_time := 1704888000 |}
         "f7880620_ep-recent" (Sample.world true))
  = Ok {| st_task_id := Sample.task; st_message := "Transcription task started" |}.
Proof. vm_compute. reflexivity. Qed.

Example start_transcription_400 :
  snd (start_transcription
         {| feeds := [Sample.pod]; parse := Sample.serve [Sample.recent];
            now_utc := Sample.now; now_local := Sample.now; time_time := 1704888000 |}
         "f7880620_ep-recent"
         (fst (Job.transcribe_episode Sample.env_ok Sample.target Sample.task
                 (Sample.world true))))
  = Raise (mk_exn (HTTPException 400) "Episode already transcribed").
Proof. vm_compute. reflexivity. Qed.


(** *** The Status Store holds terminal records only *)

Lemma get_episodes_files o limit days w :
  status_file (fst (get_episodes o limit days w)) = status_file w.
Proof. reflexivity. Qed.

Lemma start_transcription_files o episode_id w :
  status_file (fst (start_transcription o episode_id w)) = status_file w.
Proof.
  unfold start_transcription.
  destruct (find_episode _ _ _); [|reflexivity].
  destruct (Store.load_status w); [|reflexivity].
  now destruct (already_completed _ _).
Qed.

Lemma record_success_finished env episode_data task_id p w :
  snd (Job.record_success env episode_data task_id p w) <> Job.Polling.
Proof.
  unfold Job.record_success, Job.bindM, Job.load_status, Job.save_status, Job.set_task, Job.ret.
  destruct (Store.load_status w); [|discriminate].
  destruct (Store.save_status _ w); [|discriminate].
  destruct (Registry.update _ _ _); [|discriminate]. simpl.
  now destruct (Registry.update _ _ _).
Qed.

Lemma except_block_finished env episode_data task_id e w :
  snd (Job.except_block env episode_data task_id e w) <> Job.Polling.
Proof.
  unfold Job.except_block, Job.bindM, Job.load_status, Job.save_status, Job.set_task, Job.ret.
  destruct (Registry.update _ _ _); [|discriminate]. simpl.
  destruct (Registry.update _ _ _); [|discriminate]. simpl.
  destruct (Store.load_status _); [|discriminate].
  now destruct (Store.save_status _ _).
Qed.

Lemma polling_job_files env episode_data task_id w :
  snd (Job.transcribe_episode env episode_data task_id w) = Job.Polling ->
  status_file (fst (Job.transcribe_episode env episode_data task_id w)) = status_file w.
Proof.
  unfold Job.transcribe_episode, Job.try_block, Job.bindM.
  pose proof (JobFacts.keeps_files_run_stages env episode_data task_id w) as [Hf _].
  destruct (Job.run_stages env episode_data task_id w) as [w0 [[p|e]|]]; simpl in *.
  - pose proof (record_success_finished env episode_data task_id p w0) as Hfin.
    destruct (Job.record_success env episode_data task_id p w0) as [w1 [[p'|e]|]];
      simpl in *; try discriminate; [|congruence].
    intros H. now apply except_block_finished in H.
  - intros H. now apply except_block_finished in H.
  - intros _. exact Hf.
Qed.

Lemma step_sound w w' : Store.sound w -> step w w' -> Store.sound w'.
Proof.
  intros Hs Hstep. destruct Hstep.
  - apply (JobFacts.sound_files w); [apply get_episodes_files|assumption].
  - apply (JobFacts.sound_files w); [apply start_transcription_files|assumption].
  - assumption.
  - apply JobFacts.keeps_sound_transcribe_episode.
    now apply (JobFacts.sound_files w).
Qed.

Lemma steps_sound w w' : Store.sound w -> steps w w' -> Store.sound w'.
Proof.
  intros Hs Hsteps. induction Hsteps as [|w1 w2 w3 _ IH Hstep]; [assumption|].
  apply step_sound with (w := w2); auto.
Qed.

(** C10.  Whatever the process does, request after request and job after
    job, a Status Store whose records all have status [completed] or
    [error] stays such a store: no record with another status is created or
    put in place of one.  The handlers of [GET /episodes] and
    [POST /transcribe] leave [status.json] as it is, and so does a job for as
    long as it has reached neither its end nor an exception; at its start
    the store is empty, as no file exists. *)
Theorem status_records_terminal :
  (forall w w', Store.sound w -> steps w w' -> Store.sound w')
  /\ (forall w, status_file w = None -> Store.sound w)
  /\ (forall o limit days w,
        status_file (fst (get_episodes o limit days w)) = status_file w)
  /\ (forall o episode_id w,
        status_file (fst (start_transcription o episode_id w)) = status_file w)
  /\ (forall env episode_data task_id w,
        snd (Job.transcribe_episode env episode_data task_id w) = Job.Polling ->
        status_file (fst (Job.transcribe_episode env episode_data task_id w))
        = status_file w).
Proof.
  split; [exact steps_sound|]. split.
  - intros w Hnone. exists ∅. unfold Store.load_status. rewrite Hnone.
    split; [reflexivity|]. intros i r Hl. now rewrite lookup_empty in Hl.
  - split; [exact get_episodes_files|]. split; [exact start_transcription_files|].
    exact polling_job_files.
Qed.

(** A request that starts a job, then the job: the store holds one
    record, and it is completed. *)
Example run_one_job :
  exists w',
    steps (Sample.world true) w'
    /\ Store.load_status w'
       = Ok {[ "f7880620_ep-recent" :=
                 Job.completed_record "episodes/Pod_Recent/transcript.txt"
                   "2024-01-10T12:00:00" "Pod" "Recent" ]}.
Proof.
  set (o := {| feeds := [Sample.pod]; parse := Sample.serve [Sample.recent];
               now_utc := Sample.now; now_local := Sample.now;
               time_time := 1704888000 |}).
  set (w1 := fst (start_transcription o "f7880620_ep-recent" (Sample.world true))).
  exists (fst (Job.transcribe_episode Sample.env_ok Sample.target Sample.task
                 (set_threads w1 []))).
  split; [|vm_compute; reflexivity].
  apply steps_step with (w2 := w1).
  - apply steps_step with (w2 := Sample.world true); [apply steps_refl|].
    apply step_start_transcription.
  - apply (step_job Sample.env_ok Sample.target Sample.task [] [] w1).
    vm_compute. reflexivity.
Qed.

End ServerFacts.

(* ===================================================================== *)
(** * Further properties of the code *)
(* ===================================================================== *)

Module SanitizeFacts.
Import Job.



End SanitizeFacts.

Module PollFacts.
Import Job JobFacts.

Lemma with_message_twice m1 m2 r :
  Registry.with_message m2 (Registry.with_message m1 r) = Registry.with_message m2 r.
Proof. reflexivity. Qed.

Lemma set_tasks_twice w t1 t2 : set_tasks (set_tasks w t1) t2 = set_tasks w t2.
Proof. reflexivity. Qed.

(** The turns that only sleep: each leaves its status in the message. *)
Lemma poll_loop_skip task_id (sleeps : list PollData) answers w r :
  background_tasks w !! task_id = Some r ->
  Forall (fun d => Normalizer.on_response d = Normalizer.Sleep) sleeps ->
  sleeps <> [] ->
  exists m,
    poll_loop task_id (map Ok sleeps ++ answers)%list w
    = poll_loop task_id answers
        (set_tasks w (<[task_id := Registry.with_message m r]> (background_tasks w))).
Proof.
  intros Hr Hs. revert w r Hr.
  induction Hs as [|d sleeps Hd Hs IH]; intros w r Hr Hne; [congruence|].
  cbn [map app poll_loop].
  rewrite (bindM_Ok _ _ w w d) by reflexivity.
  erewrite bindM_Ok by (apply set_task_registered; eassumption).
  rewrite Hd.
  destruct sleeps as [|d' sleeps].
  - eexists. reflexivity.
  - destruct (IH (set_tasks w (<[task_id := Registry.with_message
                                   ("Transcription status: " +:+ p_status d) r]>
                                 (background_tasks w)))
                (Registry.with_message ("Transcription status: " +:+ p_status d) r))
      as [m Hm]; [apply lookup_insert_eq|discriminate|].
    exists m. rewrite Hm. cbn [background_tasks set_tasks].
    now rewrite insert_insert_eq.
Qed.

Lemma poll_loop_decides task_id data rest w r :
  background_tasks w !! task_id = Some r ->
  Normalizer.on_response data <> Normalizer.Sleep ->
  poll_loop task_id (Ok data :: rest) w
  = (set_tasks w (<[task_id := Registry.with_message
                      ("Transcription status: " +:+ p_status data) r]>
                    (background_tasks w)),
     match Normalizer.on_response data with
     | Normalizer.Fail e => Finished (Raise e)
     | Normalizer.Return v => Finished (Ok v)
     | Normalizer.Sleep => Polling
     end).
Proof.
  intros Hr Hne. cbn [poll_loop].
  rewrite (bindM_Ok _ _ w w data) by reflexivity.
  erewrite bindM_Ok by (apply set_task_registered; eassumption).
  destruct (Normalizer.on_response data); [reflexivity|reflexivity|congruence].
Qed.

Lemma poll_loop_first task_id (sleeps : list PollData) data rest w r :
  background_tasks w !! task_id = Some r ->
  Forall (fun d => Normalizer.on_response d = Normalizer.Sleep) sleeps ->
  Normalizer.on_response data <> Normalizer.Sleep ->
  poll_loop task_id (map Ok sleeps ++ Ok data :: rest)%list w
  = (set_tasks w (<[task_id := Registry.with_message
                      ("Transcription status: " +:+ p_status data) r]>
                    (background_tasks w)),
     match Normalizer.on_response data with
     | Normalizer.Fail e => Finished (Raise e)
     | Normalizer.Return v => Finished (Ok v)
     | Normalizer.Sleep => Polling
     end).
Proof.
  intros Hr Hs Hne. destruct sleeps as [|d sleeps].
  - now apply poll_loop_decides.
  - destruct (poll_loop_skip task_id (d :: sleeps) (Ok data :: rest) w r Hr Hs)
      as [m ->]; [discriminate|].
    erewrite poll_loop_decides; [|apply lookup_insert_eq|assumption].
    cbn [background_tasks set_tasks]. now rewrite insert_insert_eq.
Qed.

Lemma poll_loop_http_error task_id (sleeps : list PollData) e rest w r :
  background_tasks w !! task_id = Some r ->
  Forall (fun d => Normalizer.on_response d = Normalizer.Sleep) sleeps ->
  snd (poll_loop task_id (map Ok sleeps ++ Raise e :: rest)%list w) = Finished (Raise e).
Proof.
  intros Hr Hs. destruct sleeps as [|d sleeps]; [reflexivity|].
  destruct (poll_loop_skip task_id (d :: sleeps) (Raise e :: rest) w r Hr Hs)
    as [m ->]; [discriminate|]. reflexivity.
Qed.

Lemma poll_loop_runs_out task_id (sleeps : list PollData) w r :
  background_tasks w !! task_id = Some r ->
  Forall (fun d => Normalizer.on_response d = Normalizer.Sleep) sleeps ->
  snd (poll_loop task_id (map Ok sleeps) w) = Polling.
Proof.
  intros Hr Hs. destruct sleeps as [|d sleeps]; [reflexivity|].
  destruct (poll_loop_skip task_id (d :: sleeps) [] w r Hr Hs) as [m Hm]; [discriminate|].
  rewrite app_nil_r in Hm. now rewrite Hm.
Qed.

(** X2.  The polling loop of [transcribe_with_gladia] ends at the first
    response that does not send it back to sleep: it returns what that
    response normalizes to, or raises what it raises, and the responses
    after it are never requested.  A poll request that fails ends the loop
    with that exception.  The Task Record's message shows the status of the
    last response read, and nothing else of the record changes.  Until such
    a response comes the loop keeps polling. *)
Theorem poll_loop_first_decisive task_id (sleeps : list PollData) w r :
  background_tasks w !! task_id = Some r ->
  Forall (fun d => Normalizer.on_response d = Normalizer.Sleep) sleeps ->
  (forall data rest v,
     Normalizer.on_response data = Normalizer.Return v ->
     poll_loop task_id (map Ok sleeps ++ Ok data :: rest)%list w
     = (set_tasks w (<[task_id := Registry.with_message
                         ("Transcription status: " +:+ p_status data) r]>
                       (background_tasks w)),
        Finished (Ok v)))
  /\ (forall data rest e,
        Normalizer.on_response data = Normalizer.Fail e ->
        poll_loop task_id (map Ok sleeps ++ Ok data :: rest)%list w
        = (set_tasks w (<[task_id := Registry.with_message
                            ("Transcription status: " +:+ p_status data) r]>
                          (background_tasks w)),
           Finished (Raise e)))
  /\ (forall e rest,
        snd (poll_loop task_id (map Ok sleeps ++ Raise e :: rest)%list w)
        = Finished (Raise e))
  /\ snd (poll_loop task_id (map Ok sleeps) w) = Polling.
Proof.
  intros Hr Hs. split; [|split; [|split]].
  - intros data rest v Hv. rewrite (poll_loop_first _ _ _ _ _ r), Hv; congruence.
  - intros data rest e He. rewrite (poll_loop_first _ _ _ _ _ r), He; congruence.
  - intros e rest. now apply (poll_loop_http_error _ _ _ _ _ r).
  - now apply (poll_loop_runs_out _ _ _ r).
Qed.

Lemma poll_loop_first_decisive_witness :
  poll_loop Sample.task
    (map Ok [Sample.processing] ++ [Ok (Sample.nested_full "hi there")])%list
    (Sample.world true)
  = (set_tasks (Sample.world true)
       (<[Sample.task := Registry.with_message "Transcription status: done"
                           Sample.pending]> (background_tasks (Sample.world true))),
     Finished (Ok (VStr "hi there"))).
Proof.
  refine (proj1 (poll_loop_first_decisive Sample.task [Sample.processing]
                   (Sample.world true) Sample.pending _ _)
            (Sample.nested_full "hi there") [] (VStr "hi there") _).
  - reflexivity.
  - constructor; [reflexivity|constructor].
  - reflexivity.
Defined.

End PollFacts.

Module LifecycleFacts.
Import Job JobFacts Scenario.

Lemma truthy_ne s : s <> "" -> PyStr.truthy s = true.
Proof. now destruct s. Qed.

Lemma download_audio_Ok env folder :
  je_audio_present env = true \/ je_download env = Ok tt ->
  download_audio env folder = Ok (folder +:+ "/audio.mp3").
Proof.
  unfold download_audio. intros [->| ->]; [reflexivity|].
  now destruct (je_audio_present env).
Qed.

(** The world with one Task Record replaced. *)
Lemma set_task_again task_id f w0 w r :
  background_tasks w = <[task_id := r]> (background_tasks w0) ->
  set_task task_id f w
  = (set_tasks w (<[task_id := f r]> (background_tasks w0)), Finished (Ok tt)).
Proof.
  intros H. erewrite set_task_registered by (rewrite H; apply lookup_insert_eq).
  now rewrite H, insert_insert_eq.
Qed.

Section Stages.
Variables (env : JobEnv) (episode_data : EpisodeData) (task_id : string).
Variables (w : World) (r : TaskRecord).
Hypothesis Hreg : background_tasks w !! task_id = Some r.
Hypothesis Hurl : has_audio_url episode_data.
Hypothesis Henv : reaches_polling env.

(** Up to the polling loop only the Task Record moves. *)
Lemma run_stages_reaches :
  run_stages env episode_data task_id w
  = (transcript <~ transcribe_with_gladia env task_id;;
     save_transcript env (folder_path episode_data) transcript)
      (set_tasks w (<[task_id := Registry.with_message "Transcribing audio..."
                                   (Registry.with_status "running" r)]>
                      (background_tasks w))).
Proof.
  destruct Hurl as (audio_url & Hau & Hne).
  destruct Henv as (Hmk & Hdl & _).
  unfold run_stages.
  erewrite bindM_Ok by (apply set_task_registered; exact Hreg).
  erewrite bindM_Ok by (eapply set_task_again; reflexivity).
  cbv zeta. rewrite Hau. cbn [default from_option id].
  rewrite (truthy_ne _ Hne). cbn [negb].
  rewrite Hmk. erewrite bindM_Ok by reflexivity.
  erewrite bindM_Ok by (eapply set_task_again; reflexivity).
  rewrite (download_audio_Ok _ _ Hdl). erewrite bindM_Ok by reflexivity.
  erewrite bindM_Ok by (eapply set_task_again; reflexivity).
  reflexivity.
Qed.

Lemma upload_and_poll_polls w1 :
  upload_and_poll env task_id w1 = poll_loop task_id (je_polls env) w1.
Proof.
  destruct Henv as (_ & _ & Hread & (up & Hup) & (result_url & Hsub & Hres)).
  unfold upload_and_poll. rewrite Hread, Hup, Hsub.
  erewrite (bindM_Ok (lift (Ok tt))) by reflexivity.
  erewrite (bindM_Ok (lift (Ok up))) by reflexivity.
  erewrite (bindM_Ok (lift (Ok (Some result_url)))) by reflexivity.
  cbn [default from_option id]. now rewrite (truthy_ne _ Hres).
Qed.

(** The provider decides with [data]. *)
Lemma transcribe_with_gladia_decides data w1 r1 :
  polls_end_with env data ->
  background_tasks w1 !! task_id = Some r1 ->
  Normalizer.on_response data <> Normalizer.Sleep ->
  transcribe_with_gladia env task_id w1
  = (set_tasks w1 (<[task_id := Registry.with_message
                       ("Transcription status: " +:+ p_status data) r1]>
                     (background_tasks w1)),
     match Normalizer.on_response data with
     | Normalizer.Return v => Finished (Ok v)
     | Normalizer.Fail e =>
         Finished (Raise (mk_exn RuntimeError ("Transcription error: " +:+ exn_str e)))
     | Normalizer.Sleep => Polling
     end).
Proof.
  intros (sleeps & rest & Hpolls & Hsleeps) Hr1 Hne.
  unfold transcribe_with_gladia. rewrite upload_and_poll_polls, Hpolls.
  rewrite (PollFacts.poll_loop_first _ _ _ _ _ r1) by assumption.
  now destruct (Normalizer.on_response data).
Qed.

Lemma run_stages_decides data :
  polls_end_with env data ->
  Normalizer.on_response data <> Normalizer.Sleep ->
  run_stages env episode_data task_id w
  = match Normalizer.on_response data with
    | Normalizer.Return v =>
        save_transcript env (folder_path episode_data) v
          (set_tasks w (<[task_id := Registry.with_message
                            ("Transcription status: " +:+ p_status data)
                            (Registry.with_status "running" r)]>
                          (background_tasks w)))
    | Normalizer.Fail e =>
        (set_tasks w (<[task_id := Registry.with_message
                          ("Transcription status: " +:+ p_status data)
                          (Registry.with_status "running" r)]>
                        (background_tasks w)),
         Finished (Raise (mk_exn RuntimeError ("Transcription error: " +:+ exn_str e))))
    | Normalizer.Sleep =>
        (set_tasks w (<[task_id := Registry.with_message
                          ("Transcription status: " +:+ p_status data)
                          (Registry.with_status "running" r)]>
                        (background_tasks w)), Polling)
    end.
Proof.
  intros Hpolls Hne. rewrite run_stages_reaches. unfold bindM at 1.
  erewrite transcribe_with_gladia_decides;
    [|eassumption|apply lookup_insert_eq|assumption].
  cbn [background_tasks set_tasks]. rewrite insert_insert_eq.
  now destruct (Normalizer.on_response data).
Qed.

(** The record a finished job leaves in the registry. *)
Lemma record_success_world p w1 r1 status :
  background_tasks w1 !! task_id = Some r1 ->
  status_writable w1 = true ->
  Store.load_status w1 = Ok status ->
  record_success env episode_data task_id p w1
  = (set_tasks
       (set_status_file w1
          (Some (Json.dumps
                   (<[default "" (ed_id episode_data) :=
                        completed_record p (naive_isoformat (je_now env))
                          (default "podcast" (ed_podcast_name episode_data))
                          (default "episode" (ed_title episode_data))]> status))))
       (<[task_id := Registry.with_message ("Transcription complete: " +:+ p)
                       (Registry.with_status "completed" r1)]> (background_tasks w1)),
     Finished (Ok p)).
Proof.
  intros Hr1 Hwr Hload. unfold record_success. cbv zeta.
  erewrite (bindM_Ok load_status) by (unfold load_status; now rewrite Hload).
  erewrite bindM_Ok
    by (unfold save_status, Store.save_status; rewrite Hwr; reflexivity).
  erewrite bindM_Ok by (apply set_task_registered; exact Hr1).
  erewrite bindM_Ok by (eapply set_task_again; reflexivity).
  reflexivity.
Qed.

Section Success.
Variables (status : StatusStore) (data : PollData) (text : string).
Hypothesis Hwr : status_writable w = true.
Hypothesis Hload : Store.load_status w = Ok status.
Hypothesis Hpolls : polls_end_with env data.
Hypothesis Hdata : Normalizer.on_response data = Normalizer.Return (VStr text).
Hypothesis Hwrite : je_write_transcript env = Ok tt.

Lemma job_success_world :
  transcribe_episode env episode_data task_id w
  = ({| background_tasks :=
          <[task_id := Registry.with_message
                         ("Transcription complete: " +:+ transcript_path episode_data)
                         (Registry.with_status "completed" r)]> (background_tasks w);
        status_file :=
          Some (Json.dumps
                  (<[default "" (ed_id episode_data) :=
                       completed_record (transcript_path episode_data)
                         (naive_isoformat (je_now env))
                         (default "podcast" (ed_podcast_name episode_data))
                         (default "episode" (ed_title episode_data))]> status));
        status_writable := true;
        transcripts := <[transcript_path episode_data := text]> (transcripts w);
        threads := threads w |},
     Finished (Ok (VStr (transcript_path episode_data)))).
Proof.
  unfold transcribe_episode, try_block.
  erewrite bindM_Ok.
  2:{ rewrite (run_stages_decides data Hpolls) by (rewrite Hdata; discriminate).
      rewrite Hdata. unfold save_transcript. rewrite Hwrite.
      erewrite bindM_Ok by reflexivity. reflexivity. }
  erewrite record_success_world;
    [|apply lookup_insert_eq|exact Hwr|
     erewrite load_status_files; [exact Hload|reflexivity]].
  cbn [background_tasks set_tasks set_status_file set_transcripts status_file
       status_writable transcripts threads].
  rewrite insert_insert_eq. unfold set_tasks, set_status_file, set_transcripts.
  cbn [background_tasks status_file status_writable transcripts threads].
  rewrite Hwr. reflexivity.
Qed.

End Success.

End Stages.

(** The world a failed job leaves. *)
Lemma job_failure_world env episode_data task_id w r status w1 e :
  background_tasks w !! task_id = Some r ->
  status_writable w = true ->
  Store.load_status w = Ok status ->
  try_block env episode_data task_id w = (w1, Finished (Raise e)) ->
  exists r1,
    background_tasks w1 !! task_id = Some r1
    /\ transcribe_episode env episode_data task_id w
       = (set_status_file
            (set_tasks w1
               (<[task_id := Registry.with_message ("Error: " +:+ exn_str e)
                               (Registry.with_status "error" r1)]> (background_tasks w1)))
            (Some (Json.dumps
                     (<[default "" (ed_id episode_data) :=
                          error_record (exn_str e) (naive_isoformat (je_now env))
                            (default "podcast" (ed_podcast_name episode_data))
                            (default "episode" (ed_title episode_data))]> status))),
          Finished (Ok VNone)).
Proof.
  intros Hreg Hwr Hload Htry.
  destruct (try_block_raise _ _ _ _ _ _ (ex_intro _ r Hreg) Htry)
    as ([r1 Hr1] & Hfile & Hwr1).
  exists r1. split; [exact Hr1|].
  unfold transcribe_episode. rewrite Htry.
  apply except_block_records; [exact Hr1|congruence|].
  erewrite load_status_files; eassumption.
Qed.

Lemma load_status_dumps w status :
  Store.load_status (set_status_file w (Some (Json.dumps status))) = Ok status.
Proof. unfold Store.load_status. simpl. apply JsonFacts.loads_dumps. Qed.

(** X3.  A job whose stages all succeed returns the path of the transcript
    and leaves three things behind: the transcript file with the normalized
    text, a [completed] Status Record for the episode with that path, and
    the Task Record with status [completed] and the path in its message.
    The file is [episodes/<folder>/transcript.txt], the folder being the
    sanitized [<podcast name>_<title>]. *)
Theorem job_success_recorded env episode_data task_id w r status data text :
  background_tasks w !! task_id = Some r ->
  status_writable w = true ->
  Store.load_status w = Ok status ->
  has_audio_url episode_data ->
  reaches_polling env ->
  polls_end_with env data ->
  Normalizer.on_response data = Normalizer.Return (VStr text) ->
  je_write_transcript env = Ok tt ->
  exists w' r',
    transcribe_episode env episode_data task_id w
    = (w', Finished (Ok (VStr (transcript_path episode_data))))
    /\ transcripts w' = <[transcript_path episode_data := text]> (transcripts w)
    /\ Store.load_status w'
       = Ok (<[default "" (ed_id episode_data) :=
                 completed_record (transcript_path episode_data)
                   (naive_isoformat (je_now env))
                   (default "podcast" (ed_podcast_name episode_data))
                   (default "episode" (ed_title episode_data))]> status)
    /\ background_tasks w' = <[task_id := r']> (background_tasks w)
    /\ task_status r' = "completed"
    /\ task_message r' = "Transcription complete: " +:+ transcript_path episode_data
    /\ task_type r' = task_type r
    /\ task_episode_title r' = task_episode_title r
    /\ task_created_at r' = task_created_at r
    /\ threads w' = threads w.
Proof.
  intros Hreg Hwr Hload Hurl Henv Hpolls Hdata Hwrite.
  eexists _, _. split.
  - eapply job_success_world; eassumption.
  - cbn [transcripts background_tasks threads]. split; [reflexivity|].
    split; [|repeat split].
    unfold Store.load_status. cbn [status_file]. apply JsonFacts.loads_dumps.
Qed.

Lemma job_success_recorded_witness :
  exists w' r',
    transcribe_episode Sample.env_ok Sample.target Sample.task (Sample.world true)
    = (w', Finished (Ok (VStr "episodes/Pod_Recent/transcript.txt")))
    /\ transcripts w' = <["episodes/Pod_Recent/transcript.txt" := "hi there"]> ∅
    /\ Store.load_status w'
       = Ok (<["f7880620_ep-recent" :=
                 completed_record "episodes/Pod_Recent/transcript.txt"
                   "2024-01-10T12:00:00" "Pod" "Recent"]> ∅)
    /\ background_tasks w' = <[Sample.task := r']> {[ Sample.task := Sample.pending ]}
    /\ task_status r' = "completed"
    /\ task_message r' = "Transcription complete: episodes/Pod_Recent/transcript.txt"
    /\ task_type r' = "transcribe"
    /\ task_episode_title r' = "Recent"
    /\ task_created_at r' = Some Sample.now
    /\ threads w' = [].
Proof.
  apply (job_success_recorded Sample.env_ok Sample.target Sample.task (Sample.world true)
           Sample.pending ∅ (Sample.nested_full "hi there") "hi there").
  - reflexivity.
  - reflexivity.
  - reflexivity.
  - exists "https://example.com/a.mp3". split; [reflexivity|discriminate].
  - split; [reflexivity|]. split; [now right|]. split; [reflexivity|].
    split; [now eexists|]. eexists. split; [reflexivity|discriminate].
  - exists [Sample.processing], []. split; [reflexivity|].
    constructor; [reflexivity|constructor].
  - reflexivity.
  - reflexivity.
Defined.


Lemma find_episode_of_resolves o episode_id :
  Server.resolves o episode_id ->
  exists target, Server.find_episode (parse o) episode_id (feeds o) = Some target.
Proof. apply ServerFacts.find_episode_resolves. Qed.



(** X5.  Once a job has completed an episode, [POST /transcribe] for it is
    refused with 400: nothing is registered and no job is started. *)
Theorem completed_blocks_restart o episode_id env episode_data task_id w r status
    data text :
  Server.resolves o episode_id ->
  ed_id episode_data = Some episode_id ->
  background_tasks w !! task_id = Some r ->
  status_writable w = true ->
  Store.load_status w = Ok status ->
  has_audio_url episode_data ->
  reaches_polling env ->
  polls_end_with env data ->
  Normalizer.on_response data = Normalizer.Return (VStr text) ->
  je_write_transcript env = Ok tt ->
  Server.start_transcription o episode_id
    (fst (transcribe_episode env episode_data task_id w))
  = (fst (transcribe_episode env episode_data task_id w),
     Raise (mk_exn (HTTPException 400) "Episode already transcribed")).
Proof.
  intros Hres Hid Hreg Hwr Hload Hurl Henv Hpolls Hdata Hwrite.
  apply find_episode_of_resolves in Hres as [target Hfind].
  erewrite job_success_world by eassumption. cbn [fst].
  unfold Server.start_transcription. rewrite Hfind.
  unfold Store.load_status. cbn [status_file]. rewrite JsonFacts.loads_dumps.
  unfold Server.already_completed. rewrite Hid. cbn [default from_option id].
  rewrite lookup_insert_eq, completed_record_status.
  now rewrite bool_decide_eq_true_2.
Qed.

Lemma completed_blocks_restart_witness :
  snd (Server.start_transcription Sample.outside "f7880620_ep-recent"
         (fst (transcribe_episode Sample.env_ok Sample.target Sample.task
                 (Sample.world true))))
  = Raise (mk_exn (HTTPException 400) "Episode already transcribed").
Proof.
  rewrite (completed_blocks_restart Sample.outside "f7880620_ep-recent" Sample.env_ok
             Sample.target Sample.task (Sample.world true) Sample.pending ∅
             (Sample.nested_full "hi there") "hi there").
  - reflexivity.
  - exists Sample.pod, [Sample.recent], Sample.recent, "https://example.com/a.mp3".
    split; [now left|]. split; [reflexivity|]. split; [now left|].
    split; reflexivity.
  - reflexivity.
  - reflexivity.
  - reflexivity.
  - reflexivity.
  - exists "https://example.com/a.mp3". split; [reflexivity|discriminate].
  - split; [reflexivity|]. split; [now right|]. split; [reflexivity|].
    split; [now eexists|]. eexists. split; [reflexivity|discriminate].
  - exists [Sample.processing], []. split; [reflexivity|].
    constructor; [reflexivity|constructor].
  - reflexivity.
  - reflexivity.
Defined.

(** X6.  A failed job does not block the episode: [GET /transcript]
    answers 400 as long as the record says [error], and [POST /transcribe]
    is accepted again, registering a new pending task and queueing a job. *)
Theorem failed_job_can_be_restarted o episode_id env episode_data task_id w r status
    w1 e :
  Server.resolves o episode_id ->
  ed_id episode_data = Some episode_id ->
  background_tasks w !! task_id = Some r ->
  status_writable w = true ->
  Store.load_status w = Ok status ->
  try_block env episode_data task_id w = (w1, Finished (Raise e)) ->
  let w2 := fst (transcribe_episode env episode_data task_id w) in
  Server.get_transcript episode_id w2
  = Raise (mk_exn (HTTPException 400) "Episode not yet transcribed")
  /\ exists target w3,
       Server.start_transcription o episode_id w2
       = (w3, Ok {| st_task_id := "transcribe_" +:+ episode_id +:+ "_"
                                   +:+ PyStr.str_int (time_time o);
                    st_message := "Transcription task started" |})
       /\ Server.get_task_status
            ("transcribe_" +:+ episode_id +:+ "_" +:+ PyStr.str_int (time_time o)) w3
          = Ok (Server.pending_record o target)
       /\ threads w3
          = (threads w2
             ++ [(target, "transcribe_" +:+ episode_id +:+ "_"
                          +:+ PyStr.str_int (time_time o))])%list
       /\ ed_id target = Some episode_id.
Proof.
  intros Hres Hid Hreg Hwr Hload Htry w2.
  destruct (job_failure_world _ _ _ _ _ _ _ _ Hreg Hwr Hload Htry) as (r1 & Hr1 & Hjob).
  subst w2. rewrite Hjob. cbn [fst]. rewrite Hid. cbn [default from_option id].
  split.
  - unfold Server.get_transcript. rewrite load_status_dumps. cbn [mbind result_bind].
    rewrite lookup_insert_eq, error_record_status.
    now rewrite bool_decide_eq_false_2.
  - pose proof Hres as [target Hfind]%find_episode_of_resolves.
    unfold Server.start_transcription. rewrite Hfind, load_status_dumps.
    unfold Server.already_completed.
    rewrite lookup_insert_eq, error_record_status.
    rewrite bool_decide_eq_false_2 by discriminate.
    eexists target, _. split; [reflexivity|].
    split; [|split; [reflexivity|]].
    + unfold Server.get_task_status. cbn [background_tasks set_threads set_tasks].
      now rewrite lookup_insert_eq.
    + clear -Hfind. revert Hfind. generalize (feeds o) as fs.
      induction fs as [|f fs IH]; [discriminate|]. cbn [Server.find_episode].
      destruct (parse o (feed_rss f)) as [entries|]; [|exact IH].
      destruct (Server.find_entry f episode_id entries) eqn:Hfe; [|exact IH].
      intros [= <-]. apply ServerFacts.find_entry_Some in Hfe
        as (entry & a & _ & _ & _ & ->). reflexivity.
Qed.

Lemma failed_job_can_be_restarted_witness :
  let w2 := fst (transcribe_episode Sample.env_no_audio Sample.target Sample.task
                   (Sample.world true)) in
  Server.get_transcript "f7880620_ep-recent" w2
  = Raise (mk_exn (HTTPException 400) "Episode not yet transcribed")
  /\ exists target w3,
       Server.start_transcription Sample.outside "f7880620_ep-recent" w2
       = (w3, Ok {| st_task_id := "transcribe_f7880620_ep-recent_1704888000";
                    st_message := "Transcription task started" |})
       /\ Server.get_task_status "transcribe_f7880620_ep-recent_1704888000" w3
          = Ok (Server.pending_record Sample.outside target)
       /\ threads w3
          = (threads w2 ++ [(target, "transcribe_f7880620_ep-recent_1704888000")])%list
       /\ ed_id target = Some "f7880620_ep-recent".
Proof.
  apply (failed_job_can_be_restarted Sample.outside "f7880620_ep-recent"
           Sample.env_no_audio Sample.target Sample.task (Sample.world true)
           Sample.pending ∅
           (fst (try_block Sample.env_no_audio Sample.target Sample.task
                   (Sample.world true)))
           (mk_exn OSError "404 Client Error: Not Found")).
  - exists Sample.pod, [Sample.recent], Sample.recent, "https://example.com/a.mp3".
    split; [now left|]. split; [reflexivity|]. split; [now left|].
    split; reflexivity.
  - reflexivity.
  - reflexivity.
  - reflexivity.
  - reflexivity.
  - reflexivity.
Defined.

(** X16.  When the provider's decisive answer makes the normalization
    raise (the status [error], or a [done] result without transcription
    data), the job ends with an error record whose text is that of the
    exception behind the prefix [Transcription error: ], the Task Record
    reads [Error: Transcription error: ...], and no transcript file is
    written. *)
Theorem provider_failure_recorded env episode_data task_id w r status data e :
  background_tasks w !! task_id = Some r ->
  status_writable w = true ->
  Store.load_status w = Ok status ->
  has_audio_url episode_data ->
  reaches_polling env ->
  polls_end_with env data ->
  Normalizer.on_response data = Normalizer.Fail e ->
  exists w' r',
    transcribe_episode env episode_data task_id w = (w', Finished (Ok VNone))
    /\ transcripts w' = transcripts w
    /\ Store.load_status w'
       = Ok (<[default "" (ed_id episode_data) :=
                 error_record ("Transcription error: " +:+ exn_str e)
                   (naive_isoformat (je_now env))
                   (default "podcast" (ed_podcast_name episode_data))
                   (default "episode" (ed_title episode_data))]> status)
    /\ background_tasks w' = <[task_id := r']> (background_tasks w)
    /\ task_status r' = "error"
    /\ task_message r' = "Error: Transcription error: " +:+ exn_str e.
Proof.
  intros Hreg Hwr Hload Hurl Henv Hpolls Hdata.
  assert (Htry : try_block env episode_data task_id w
                 = (set_tasks w (<[task_id := Registry.with_message
                                      ("Transcription status: " +:+ p_status data)
                                      (Registry.with_status "running" r)]>
                                   (background_tasks w)),
                    Finished (Raise (mk_exn RuntimeError
                                       ("Transcription error: " +:+ exn_str e))))).
  { unfold try_block. erewrite bindM_Raise; [reflexivity|].
    rewrite (run_stages_decides _ _ _ _ _ Hreg Hurl Henv data Hpolls)
      by (rewrite Hdata; discriminate).
    now rewrite Hdata. }
  eexists _, _. split.
  - unfold transcribe_episode. rewrite Htry.
    apply except_block_records; [apply lookup_insert_eq|exact Hwr|].
    erewrite load_status_files; [exact Hload|reflexivity].
  - cbn [transcripts background_tasks set_tasks set_status_file exn_str].
    split; [reflexivity|]. split; [apply load_status_dumps|].
    rewrite insert_insert_eq. repeat split.
Qed.

Lemma provider_failure_recorded_witness :
  exists w' r',
    transcribe_episode Sample.env_provider_error Sample.target Sample.task
      (Sample.world true) = (w', Finished (Ok VNone))
    /\ transcripts w' = ∅
    /\ Store.load_status w'
       = Ok (<["f7880620_ep-recent" :=
                 error_record "Transcription error: Transcription failed: 500"
                   "2024-01-10T12:00:00" "Pod" "Recent"]> ∅)
    /\ background_tasks w' = <[Sample.task := r']> {[ Sample.task := Sample.pending ]}
    /\ task_status r' = "error"
    /\ task_message r' = "Error: Transcription error: Transcription failed: 500".
Proof.
  apply (provider_failure_recorded Sample.env_provider_error Sample.target Sample.task
           (Sample.world true) Sample.pending ∅
           {| p_status := "error"; p_result := IsNone; p_error_code := Some (LInt 500) |}
           (mk_exn RuntimeError "Transcription failed: 500")).
  - reflexivity.
  - reflexivity.
  - reflexivity.
  - exists "https://example.com/a.mp3". split; [reflexivity|discriminate].
  - split; [reflexivity|]. split; [now left|]. split; [reflexivity|].
    split; [now eexists|]. eexists. split; [reflexivity|discriminate].
  - exists [Sample.processing], []. split; [reflexivity|].
    constructor; [reflexivity|constructor].
  - reflexivity.
Defined.

(** X17.  A [done] result whose [transcription] member is [null] is handed
    on as [None]: [save_transcript] opens the file, so an empty
    [transcript.txt] is left behind, and the [TypeError] of [f.write(None)]
    is what the error records show. *)
Theorem null_transcript_recorded env episode_data task_id w r status data :
  background_tasks w !! task_id = Some r ->
  status_writable w = true ->
  Store.load_status w = Ok status ->
  has_audio_url episode_data ->
  reaches_polling env ->
  polls_end_with env data ->
  Normalizer.on_response data = Normalizer.Return VNone ->
  je_write_transcript env = Ok tt ->
  exists w' r',
    transcribe_episode env episode_data task_id w = (w', Finished (Ok VNone))
    /\ transcripts w' = <[transcript_path episode_data := ""]> (transcripts w)
    /\ Store.load_status w'
       = Ok (<[default "" (ed_id episode_data) :=
                 error_record "write() argument must be str, not None"
                   (naive_isoformat (je_now env))
                   (default "podcast" (ed_podcast_name episode_data))
                   (default "episode" (ed_title episode_data))]> status)
    /\ background_tasks w' = <[task_id := r']> (background_tasks w)
    /\ task_status r' = "error"
    /\ task_message r' = "Error: write() argument must be str, not None".
Proof.
  intros Hreg Hwr Hload Hurl Henv Hpolls Hdata Hwrite.
  assert (Htry : try_block env episode_data task_id w
                 = (set_transcripts
                      (set_tasks w (<[task_id := Registry.with_message
                                         ("Transcription status: " +:+ p_status data)
                                         (Registry.with_status "running" r)]>
                                      (background_tasks w)))
                      (<[transcript_path episode_data := ""]> (transcripts w)),
                    Finished (Raise (mk_exn TypeError
                                       "write() argument must be str, not None")))).
  { unfold try_block. erewrite bindM_Raise; [reflexivity|].
    rewrite (run_stages_decides _ _ _ _ _ Hreg Hurl Henv data Hpolls)
      by (rewrite Hdata; discriminate).
    rewrite Hdata. unfold save_transcript. rewrite Hwrite.
    erewrite bindM_Ok by reflexivity. reflexivity. }
  eexists _, _. split.
  - unfold transcribe_episode. rewrite Htry.
    apply except_block_records; [apply lookup_insert_eq|exact Hwr|].
    erewrite load_status_files; [exact Hload|reflexivity].
  - cbn [transcripts background_tasks set_tasks set_status_file set_transcripts exn_str].
    split; [reflexivity|]. split; [apply load_status_dumps|].
    rewrite insert_insert_eq. repeat split.
Qed.

Lemma null_transcript_recorded_witness :
  exists w' r',
    transcribe_episode Sample.env_null Sample.target Sample.task (Sample.world true)
    = (w', Finished (Ok VNone))
    /\ transcripts w' = <["episodes/Pod_Recent/transcript.txt" := ""]> ∅
    /\ Store.load_status w'
       = Ok (<["f7880620_ep-recent" :=
                 error_record "write() argument must be str, not None"
                   "2024-01-10T12:00:00" "Pod" "Recent"]> ∅)
    /\ background_tasks w' = <[Sample.task := r']> {[ Sample.task := Sample.pending ]}
    /\ task_status r' = "error"
    /\ task_message r' = "Error: write() argument must be str, not None".
Proof.
  apply (null_transcript_recorded Sample.env_null Sample.target Sample.task
           (Sample.world true) Sample.pending ∅ Sample.null_transcription).
  - reflexivity.
  - reflexivity.
  - reflexivity.
  - exists "https://example.com/a.mp3". split; [reflexivity|discriminate].
  - split; [reflexivity|]. split; [now left|]. split; [reflexivity|].
    split; [now eexists|]. eexists. split; [reflexivity|discriminate].
  - exists [Sample.processing], []. split; [reflexivity|].
    constructor; [reflexivity|constructor].
  - reflexivity.
  - reflexivity.
Defined.

End LifecycleFacts.

Module FrameFacts.
Import Job JobFacts Scenario.

(** A relation between worlds that is reflexive and transitive holds across
    a whole job as soon as it holds across each write the job can do. *)
Section Within.
Variable R : World -> World -> Prop.
Hypothesis R_refl : forall w, R w w.
Hypothesis R_trans : forall w1 w2 w3, R w1 w2 -> R w2 w3 -> R w1 w3.

Lemma within_bind {A B} (m : M A) (k : A -> M B) :
  within R m -> (forall a, within R (k a)) -> within R (bindM m k).
Proof.
  intros Hm Hk w. unfold bindM. specialize (Hm w).
  destruct (m w) as [w1 [[a|e]|]]; cbn [fst] in *; try exact Hm.
  eapply R_trans; [exact Hm|apply Hk].
Qed.

Lemma within_ret {A} (a : A) : within R (ret a).
Proof. intros w. apply R_refl. Qed.

Lemma within_raise {A} e : within R (@raise A e).
Proof. intros w. apply R_refl. Qed.

Lemma within_lift {A} (r : result A) : within R (lift r).
Proof. intros w. apply R_refl. Qed.

Variables (env : JobEnv) (episode_data : EpisodeData) (task_id : string).

Hypothesis R_status :
  forall s w r,
    s = "running" \/ s = "completed" \/ s = "error" ->
    background_tasks w !! task_id = Some r ->
    R w (set_tasks w (<[task_id := Registry.with_status s r]> (background_tasks w))).
Hypothesis R_message :
  forall m w r,
    background_tasks w !! task_id = Some r ->
    R w (set_tasks w (<[task_id := Registry.with_message m r]> (background_tasks w))).
Hypothesis R_transcript :
  forall text w,
    R w (set_transcripts w (<[transcript_path episode_data := text]> (transcripts w))).
Hypothesis R_save :
  forall w status record,
    Store.load_status w = Ok status ->
    status_writable w = true ->
    record !! "status" = Some "completed" \/ record !! "status" = Some "error" ->
    R w (set_status_file w
           (Some (Json.dumps (<[default "" (ed_id episode_data) := record]> status)))).

Lemma within_set_status s :
  s = "running" \/ s = "completed" \/ s = "error" ->
  within R (set_task task_id (Registry.with_status s)).
Proof.
  intros Hs w. unfold set_task, Registry.update.
  destruct (background_tasks w !! task_id) as [r|] eqn:Hr; cbn [fst];
    [now apply R_status|apply R_refl].
Qed.

Lemma within_set_message m : within R (set_task task_id (Registry.with_message m)).
Proof.
  intros w. unfold set_task, Registry.update.
  destruct (background_tasks w !! task_id) as [r|] eqn:Hr; cbn [fst];
    [now apply R_message|apply R_refl].
Qed.

Lemma within_poll_loop answers : within R (poll_loop task_id answers).
Proof.
  induction answers as [|answer rest IH]; [intros w; apply R_refl|].
  cbn [poll_loop]. apply within_bind; [apply within_lift|]. intros data.
  apply within_bind; [apply within_set_message|]. intros _.
  destruct (Normalizer.on_response data);
    [apply within_ret|apply within_raise|exact IH].
Qed.

Lemma within_transcribe_with_gladia : within R (transcribe_with_gladia env task_id).
Proof.
  assert (H : within R (upload_and_poll env task_id)).
  { unfold upload_and_poll.
    apply within_bind; [apply within_lift|]. intros _.
    apply within_bind; [apply within_lift|]. intros _.
    apply within_bind; [apply within_lift|]. intros result_url.
    destruct (PyStr.truthy _); [apply within_poll_loop|apply within_raise]. }
  intros w. specialize (H w). unfold transcribe_with_gladia.
  now destruct (upload_and_poll env task_id w) as [w1 [[a|e]|]].
Qed.

Lemma within_save_transcript v :
  within R (save_transcript env (folder_path episode_data) v).
Proof.
  unfold save_transcript.
  apply within_bind; [apply within_lift|]. intros _ w.
  destruct v; cbn [fst]; apply R_transcript.
Qed.

Lemma within_load_save {B} (record : StatusRecord) (k : M B) :
  record !! "status" = Some "completed" \/ record !! "status" = Some "error" ->
  within R k ->
  within R (status <~ load_status;;
            save_status (<[default "" (ed_id episode_data) := record]> status);;; k).
Proof.
  intros Hrec Hk w. unfold bindM at 1, load_status at 1.
  destruct (Store.load_status w) as [status|e] eqn:Hload; [|apply R_refl].
  unfold bindM, save_status, Store.save_status.
  destruct (status_writable w) eqn:Hwr; [|apply R_refl].
  eapply R_trans; [|apply Hk]. now apply R_save.
Qed.

Lemma within_run_stages : within R (run_stages env episode_data task_id).
Proof.
  unfold run_stages.
  apply within_bind; [apply within_set_status; tauto|]. intros _.
  apply within_bind; [apply within_set_message|]. intros _. cbv zeta.
  destruct (negb _); [apply within_raise|].
  apply within_bind; [apply within_lift|]. intros _.
  apply within_bind; [apply within_set_message|]. intros _.
  apply within_bind; [apply within_lift|]. intros _.
  apply within_bind; [apply within_set_message|]. intros _.
  apply within_bind; [apply within_transcribe_with_gladia|]. intros transcript.
  apply within_save_transcript.
Qed.

Lemma within_record_success p : within R (record_success env episode_data task_id p).
Proof.
  unfold record_success. cbv zeta.
  apply within_load_save; [left; apply completed_record_status|].
  apply within_bind; [apply within_set_status; tauto|]. intros _.
  apply within_bind; [apply within_set_message|]. intros _. apply within_ret.
Qed.

Lemma within_except_block e : within R (except_block env episode_data task_id e).
Proof.
  unfold except_block. cbv zeta.
  apply within_bind; [apply within_set_status; tauto|]. intros _.
  apply within_bind; [apply within_set_message|]. intros _.
  apply within_load_save; [right; apply error_record_status|]. apply within_ret.
Qed.

Lemma within_transcribe_episode : within R (transcribe_episode env episode_data task_id).
Proof.
  assert (Htry : within R (try_block env episode_data task_id)).
  { unfold try_block. apply within_bind; [apply within_run_stages|].
    intros p. apply within_record_success. }
  intros w. specialize (Htry w). unfold transcribe_episode.
  destruct (try_block env episode_data task_id w) as [w1 [[p|e]|]];
    cbn [fst] in *; try exact Htry.
  eapply R_trans; [exact Htry|]. apply within_except_block.
Qed.

End Within.

Section ChangesOnly.
Variables (task_id episode_id path : string).

Lemma changes_only_refl w : changes_only task_id episode_id path w w.
Proof. repeat split; try tauto. intros status H. now exists status. Qed.

Lemma changes_only_trans w1 w2 w3 :
  changes_only task_id episode_id path w1 w2 ->
  changes_only task_id episode_id path w2 w3 ->
  changes_only task_id episode_id path w1 w3.
Proof.
  intros (Ht & Hd & Hp & Hth & Hwr & Hst) (Ht' & Hd' & Hp' & Hth' & Hwr' & Hst').
  split; [|split; [|split; [|split; [|split]]]].
  - intros t Hne. now rewrite Ht', Ht.
  - now rewrite Hd', Hd.
  - intros p Hne. now rewrite Hp', Hp.
  - congruence.
  - congruence.
  - intros status H. destruct (Hst _ H) as (status1 & H1 & Hk1).
    destruct (Hst' _ H1) as (status2 & H2 & Hk2).
    exists status2. split; [exact H2|]. intros k Hne. now rewrite Hk2, Hk1.
Qed.

Lemma changes_only_task w r r' :
  background_tasks w !! task_id = Some r ->
  changes_only task_id episode_id path w
    (set_tasks w (<[task_id := r']> (background_tasks w))).
Proof.
  intros Hr.
  split; [|split; [|split; [|split; [|split]]]]; cbn; try reflexivity.
  - intros t Hne. now rewrite lookup_insert_ne.
  - rewrite lookup_insert_eq, Hr. split; eauto.
  - intros status H. now exists status.
Qed.

Lemma changes_only_transcript w text :
  changes_only task_id episode_id path w
    (set_transcripts w (<[path := text]> (transcripts w))).
Proof.
  split; [|split; [|split; [|split; [|split]]]]; cbn; try reflexivity.
  - intros p Hne. now rewrite lookup_insert_ne.
  - intros status H. now exists status.
Qed.

Lemma changes_only_save w status record :
  Store.load_status w = Ok status ->
  changes_only task_id episode_id path w
    (set_status_file w (Some (Json.dumps (<[episode_id := record]> status)))).
Proof.
  intros Hload.
  split; [|split; [|split; [|split; [|split]]]]; cbn; try reflexivity.
  intros status0 H0. rewrite Hload in H0. injection H0 as <-.
  eexists. split; [apply JsonFacts.loads_dumps|].
  intros k0 Hne. now rewrite lookup_insert_ne.
Qed.

End ChangesOnly.

(** X7.  Whatever happens during a job, it writes nothing but its own
    Task Record, the Status Record of its own episode and its own transcript
    file: every other task, every other Status Record (when the store could
    be loaded before, it can be loaded after) and every other transcript are
    as before, no task is added to or removed from the registry, and no job
    is queued or dropped. *)
Theorem job_changes_only env episode_data task_id w :
  let w' := fst (transcribe_episode env episode_data task_id w) in
  (forall t, t <> task_id -> background_tasks w' !! t = background_tasks w !! t)
  /\ (is_Some (background_tasks w' !! task_id) <-> is_Some (background_tasks w !! task_id))
  /\ (forall p, p <> transcript_path episode_data ->
        transcripts w' !! p = transcripts w !! p)
  /\ threads w' = threads w
  /\ (forall status,
        Store.load_status w = Ok status ->
        exists status',
          Store.load_status w' = Ok status'
          /\ forall k, k <> default "" (ed_id episode_data) ->
               status' !! k = status !! k).
Proof.
  intros w'.
  destruct (within_transcribe_episode
              (changes_only task_id (default "" (ed_id episode_data))
                 (transcript_path episode_data))
              (changes_only_refl _ _ _) (changes_only_trans _ _ _)
              env episode_data task_id
              (fun s w r _ H => changes_only_task _ _ _ w r _ H)
              (fun m w r H => changes_only_task _ _ _ w r _ H)
              (fun text w => changes_only_transcript _ _ _ w text)
              (fun w status record H _ _ => changes_only_save _ _ _ w status record H)
              w)
    as (Ht & Hd & Hp & Hth & _ & Hst).
  repeat split; try assumption; apply Hd.
Qed.

End FrameFacts.

Module InvariantFacts.
Import Job JobFacts Scenario Server.

Lemma audio_of_truthy entry audio_url :
  Aggregator.audio_of entry = Some audio_url -> audio_url <> "".
Proof.
  unfold Aggregator.audio_of.
  destruct (Aggregator.find_audio _) as [href|]; [|discriminate].
  destruct href; [discriminate|]. now intros [= <-].
Qed.

Lemma find_episode_target parse episode_id fs target :
  find_episode parse episode_id fs = Some target ->
  exists podcast_name title audio_url,
    target = {| ed_id := Some episode_id; ed_podcast_name := Some podcast_name;
                ed_title := Some title; ed_audio_url := Some audio_url |}
    /\ audio_url <> "".
Proof.
  induction fs as [|f fs IH]; [discriminate|]. cbn [find_episode].
  destruct (parse (feed_rss f)) as [entries|]; [|exact IH].
  destruct (find_entry f episode_id entries) eqn:Hfe; [|exact IH].
  intros [= <-].
  apply ServerFacts.find_entry_Some in Hfe as (entry & a & _ & Ha & _ & ->).
  eexists _, _, _. split; [reflexivity|]. eapply audio_of_truthy, Ha.
Qed.

Lemma job_threads env episode_data task_id w :
  threads (fst (transcribe_episode env episode_data task_id w)) = threads w.
Proof.
  destruct (FrameFacts.within_transcribe_episode
              (changes_only task_id (default "" (ed_id episode_data))
                 (transcript_path episode_data))
              (FrameFacts.changes_only_refl _ _ _) (FrameFacts.changes_only_trans _ _ _)
              env episode_data task_id
              (fun s w r _ H => FrameFacts.changes_only_task _ _ _ w r _ H)
              (fun m w r H => FrameFacts.changes_only_task _ _ _ w r _ H)
              (fun text w => FrameFacts.changes_only_transcript _ _ _ w text)
              (fun w status record H _ _ =>
                 FrameFacts.changes_only_save _ _ _ w status record H)
              w)
    as (_ & _ & _ & Hth & _). exact Hth.
Qed.

Lemma start_transcription_threads o episode_id w :
  threads (fst (start_transcription o episode_id w)) = threads w
  \/ exists target task_id,
       find_episode (parse o) episode_id (feeds o) = Some target
       /\ threads (fst (start_transcription o episode_id w))
          = (threads w ++ [(target, task_id)])%list.
Proof.
  unfold start_transcription.
  destruct (find_episode _ _ _) as [target|] eqn:Hfind; [|now left].
  destruct (Store.load_status w) as [status|]; [|now left].
  destruct (already_completed status episode_id); [now left|].
  right. now eexists _, _.
Qed.

Lemma step_queued_ok w w' : queued_ok w -> step w w' -> queued_ok w'.
Proof.
  intros Hq Hstep. destruct Hstep as [o limit days w|o episode_id w|w|
                                      env episode_data task_id before after w Hth].
  - exact Hq.
  - destruct (start_transcription_threads o episode_id w)
      as [Heq|(target & task_id & Hfind & Heq)];
      intros ed t Hin; rewrite Heq in Hin; [now apply (Hq ed t)|].
    apply in_app_or in Hin as [Hin|[[= <- <-]|[]]]; [now apply (Hq ed t)|].
    apply find_episode_target in Hfind as (n & ti & a & -> & Hne).
    now eexists _, _, _, _.
  - exact Hq.
  - intros ed t Hin. rewrite job_threads in Hin. cbn [threads set_threads] in Hin.
    apply (Hq ed t). rewrite Hth. apply in_app_or in Hin as [Hin|Hin];
      apply in_or_app; [now left|right; now right].
Qed.

Lemma steps_queued_ok w w' : queued_ok w -> steps w w' -> queued_ok w'.
Proof.
  intros Hq Hsteps. induction Hsteps as [|w1 w2 w3 _ IH Hstep]; [exact Hq|].
  apply (step_queued_ok w2); [now apply IH|exact Hstep].
Qed.

(** X8.  Every job handed to a thread carries an identifier, a podcast
    name, a title and an audio URL that is not empty, whatever requests and
    jobs came before; so for a job that the server started the test
    [if not audio_url] of [transcribe_episode] is false. *)
Theorem queued_jobs_have_audio :
  (forall w, threads w = [] -> queued_ok w)
  /\ (forall w w', queued_ok w -> steps w w' -> queued_ok w')
  /\ (forall w w' episode_data task_id,
        threads w = [] -> steps w w' ->
        In (episode_data, task_id) (threads w') ->
        has_audio_url episode_data
        /\ is_Some (ed_id episode_data)
        /\ is_Some (ed_podcast_name episode_data)
        /\ is_Some (ed_title episode_data)
        /\ negb (PyStr.truthy (default "" (ed_audio_url episode_data))) = false).
Proof.
  assert (H0 : forall w, threads w = [] -> queued_ok w).
  { intros w Hth ed t Hin. rewrite Hth in Hin. destruct Hin. }
  split; [exact H0|]. split; [exact steps_queued_ok|].
  intros w w' ed t Hth Hsteps Hin.
  destruct (steps_queued_ok _ _ (H0 _ Hth) Hsteps _ _ Hin)
    as (i & n & ti & a & -> & Hne).
  cbn. split; [now exists a|]. repeat split; eauto.
  now destruct a.
Qed.

(** *** The registry *)

Lemma registry_ok_insert w task_id r :
  registry_ok w ->
  task_type r = "transcribe" ->
  is_Some (task_created_at r) ->
  task_status r = "pending" \/ task_status r = "running"
    \/ task_status r = "completed" \/ task_status r = "error" ->
  registry_ok (set_tasks w (<[task_id := r]> (background_tasks w))).
Proof.
  intros Hok Hty Hcr Hst t r0. cbn [background_tasks set_tasks].
  destruct (decide (t = task_id)) as [->|Hne].
  - rewrite lookup_insert_eq. now intros [= <-].
  - rewrite lookup_insert_ne by congruence. apply Hok.
Qed.

Lemma registry_ok_tasks w w' :
  background_tasks w' = background_tasks w -> registry_ok w -> registry_ok w'.
Proof. intros H Hok t r. rewrite H. apply Hok. Qed.

Lemma job_registry_ok env episode_data task_id w :
  registry_ok w -> registry_ok (fst (transcribe_episode env episode_data task_id w)).
Proof.
  apply (FrameFacts.within_transcribe_episode
           (fun w w' => registry_ok w -> registry_ok w')
           (fun w H => H) (fun w1 w2 w3 H12 H23 H => H23 (H12 H))
           env episode_data task_id).
  - intros s w0 r Hs Hr Hok. destruct (Hok _ _ Hr) as (Hty & Hcr & _).
    apply registry_ok_insert; try assumption. cbn. tauto.
  - intros m w0 r Hr Hok. destruct (Hok _ _ Hr) as (Hty & Hcr & Hst).
    now apply registry_ok_insert.
  - intros text w0. now apply registry_ok_tasks.
  - intros w0 status record _ _ _. now apply registry_ok_tasks.
Qed.

Lemma step_registry_ok w w' : registry_ok w -> step w w' -> registry_ok w'.
Proof.
  intros Hok Hstep. destruct Hstep as [o limit days w|o episode_id w|w|
                                       env episode_data task_id before after w Hth].
  - intros t r. cbn. rewrite RegistryFacts.cleanup_lookup.
    destruct (background_tasks w !! t) as [r0|] eqn:Hr0; [|discriminate].
    destruct (Registry.to_remove _ r0); [discriminate|].
    intros [= <-]. now apply (Hok t).
  - unfold start_transcription.
    destruct (find_episode _ _ _) as [target|]; [|exact Hok].
    destruct (Store.load_status w) as [status|]; [|exact Hok].
    destruct (already_completed status episode_id); [exact Hok|].
    cbn [fst].
    refine (registry_ok_tasks (set_tasks w (<[_ := _]> (background_tasks w))) _ eq_refl _).
    apply registry_ok_insert; cbn; eauto.
  - exact Hok.
  - apply job_registry_ok. now apply (registry_ok_tasks w).
Qed.

(** X9.  Every Task Record the server ever holds has the type
    [transcribe], a [created_at] and one of the four statuses [pending],
    [running], [completed], [error]: requests and jobs keep this, starting
    from the empty registry.  The sweep therefore never falls back on its
    default date 2000-01-01. *)
Theorem task_records_well_formed :
  (forall w, background_tasks w = ∅ -> registry_ok w)
  /\ (forall w w', registry_ok w -> steps w w' -> registry_ok w')
  /\ (forall w w' task_id r,
        background_tasks w = ∅ -> steps w w' ->
        background_tasks w' !! task_id = Some r ->
        task_type r = "transcribe"
        /\ (task_status r = "pending" \/ task_status r = "running"
            \/ task_status r = "completed" \/ task_status r = "error")
        /\ exists created_at,
             task_created_at r = Some created_at
             /\ forall current_time,
                  Registry.to_remove current_time r
                  = Registry.is_terminal (task_status r)
                    && Registry.expired current_time created_at).
Proof.
  assert (H0 : forall w, background_tasks w = ∅ -> registry_ok w).
  { intros w He t r. rewrite He, lookup_empty. discriminate. }
  assert (Hs : forall w w', registry_ok w -> steps w w' -> registry_ok w').
  { intros w w' Hok Hsteps. induction Hsteps as [|w1 w2 w3 _ IH Hstep]; [exact Hok|].
    apply (step_registry_ok w2); [now apply IH|exact Hstep]. }
  split; [exact H0|]. split; [exact Hs|].
  intros w w' t r He Hsteps Hr.
  destruct (Hs _ _ (H0 _ He) Hsteps _ _ Hr) as (Hty & [c Hc] & Hst).
  split; [exact Hty|]. split; [exact Hst|].
  exists c. split; [exact Hc|]. intros current_time.
  unfold Registry.to_remove. now rewrite Hc.
Qed.

End InvariantFacts.

Module ListingFacts.
Import Aggregator.

Section Feeds.
Variable parse : string -> result (list Entry).
Variable status : StatusStore.
Variable cutoff_date : Z.

Lemma scan_entries_app feed sorted_entries all_episodes :
  fst (scan_entries feed status cutoff_date sorted_entries all_episodes)
  = (all_episodes ++ fst (scan_entries feed status cutoff_date sorted_entries []))%list.
Proof.
  revert all_episodes.
  induction sorted_entries as [|entry rest IH]; intros all_episodes; cbn [scan_entries].
  - cbn. now rewrite app_nil_r.
  - destruct (audio_of entry) as [audio_url|]; [|apply IH].
    destruct (pub_date_parsed_of entry) as [pd|e]; [|cbn; now rewrite app_nil_r].
    destruct (too_old pd cutoff_date); [cbn; now rewrite app_nil_r|].
    rewrite IH. rewrite (IH ([] ++ _)%list). cbn [app]. now rewrite <- app_assoc.
Qed.

Lemma process_feed_app all_episodes feed :
  process_feed parse status cutoff_date all_episodes feed
  = (all_episodes ++ process_feed parse status cutoff_date [] feed)%list.
Proof.
  unfold process_feed.
  destruct (parse (feed_rss feed)) as [[|entry entries]|e];
    try (now rewrite app_nil_r).
  destruct (PySort.sorted_desc _ _ _) as [sorted_entries|e];
    [apply scan_entries_app|now rewrite app_nil_r].
Qed.

Lemma fold_process_feed_concat feeds all_episodes :
  fold_left (process_feed parse status cutoff_date) feeds all_episodes
  = (all_episodes
     ++ concat (map (process_feed parse status cutoff_date []) feeds))%list.
Proof.
  revert all_episodes. induction feeds as [|feed feeds IH]; intros all_episodes.
  - cbn. now rewrite app_nil_r.
  - cbn [fold_left map concat]. rewrite IH, process_feed_app. now rewrite <- app_assoc.
Qed.

Lemma collect_concat feeds :
  collect parse feeds status cutoff_date
  = concat (map (process_feed parse status cutoff_date []) feeds).
Proof. unfold collect. now rewrite fold_process_feed_concat. Qed.

Lemma process_feed_silent feed :
  (exists e, parse (feed_rss feed) = Raise e) \/ parse (feed_rss feed) = Ok [] ->
  process_feed parse status cutoff_date [] feed = [].
Proof. unfold process_feed. now intros [[e ->]| ->]. Qed.

Lemma collect_skip fs1 feed fs2 :
  (exists e, parse (feed_rss feed) = Raise e) \/ parse (feed_rss feed) = Ok [] ->
  collect parse (fs1 ++ feed :: fs2) status cutoff_date
  = collect parse (fs1 ++ fs2) status cutoff_date.
Proof.
  intros H. rewrite !collect_concat, !map_app, !concat_app. cbn [map concat].
  now rewrite process_feed_silent.
Qed.

(** The loop over one feed's entries ends at [entry]. *)
Lemma scan_entries_stops feed good entry rest all_episodes :
  audio_of entry <> None ->
  (exists e, pub_date_parsed_of entry = Raise e)
  \/ (exists pd, pub_date_parsed_of entry = Ok pd /\ too_old pd cutoff_date = true) ->
  fst (scan_entries feed status cutoff_date (good ++ entry :: rest) all_episodes)
  = fst (scan_entries feed status cutoff_date good all_episodes).
Proof.
  intros Ha Hstop. revert all_episodes.
  induction good as [|g good IH]; intros all_episodes; cbn [app scan_entries].
  - destruct (audio_of entry) as [a|]; [|congruence].
    destruct Hstop as [[e ->]|(pd & -> & ->)]; reflexivity.
  - destruct (audio_of g) as [a|]; [|apply IH].
    destruct (pub_date_parsed_of g) as [pd|e]; [|reflexivity].
    destruct (too_old pd cutoff_date); [reflexivity|apply IH].
Qed.

End Feeds.

(** X10.  The feeds contribute independently: what the loop over the feeds
    collects is the concatenation, in the order of [feeds.json], of what each
    feed yields on its own.  A feed that cannot be fetched or parsed, or that
    has no entries, yields nothing and changes nothing for the others: the
    response is the same as without it. *)
Theorem feeds_are_independent parse status :
  (forall feeds cutoff_date,
     collect parse feeds status cutoff_date
     = concat (map (process_feed parse status cutoff_date []) feeds))
  /\ (forall feed cutoff_date,
        (exists e, parse (feed_rss feed) = Raise e) \/ parse (feed_rss feed) = Ok [] ->
        process_feed parse status cutoff_date [] feed = [])
  /\ (forall fs1 feed fs2 now limit days,
        (exists e, parse (feed_rss feed) = Raise e) \/ parse (feed_rss feed) = Ok [] ->
        list_episodes parse (fs1 ++ feed :: fs2) status now limit days
        = list_episodes parse (fs1 ++ fs2) status now limit days).
Proof.
  split; [intros; apply collect_concat|]. split; [intros; now apply process_feed_silent|].
  intros fs1 feed fs2 now limit days H. unfold list_episodes.
  destruct (DateTime.minus_days now days) as [c|e]; [|reflexivity].
  cbn [mbind result_bind]. now rewrite collect_skip.
Qed.

(** X11.  Within one feed the entries are visited in sorted order and the
    loop ends at the first audio entry whose parsed date is older than the
    cutoff ([break]) or cannot be made into a [datetime] (the exception is
    caught outside the loop): the episodes appended before stay, and no
    entry sorted after it is looked at, whatever its date. *)
Theorem feed_loop_stops_early feed status cutoff_date good entry rest all_episodes
    audio_url :
  audio_of entry = Some audio_url ->
  (exists e, pub_date_parsed_of entry = Raise e)
  \/ (exists d, pub_date_parsed_of entry = Ok (Some d)
                /\ DateTime.instant d < cutoff_date) ->
  fst (scan_entries feed status cutoff_date (good ++ entry :: rest) all_episodes)
  = fst (scan_entries feed status cutoff_date good all_episodes)
  /\ exists kept,
       fst (scan_entries feed status cutoff_date good all_episodes)
       = (all_episodes ++ kept)%list.
Proof.
  intros Ha Hstop. split.
  - apply scan_entries_stops; [congruence|].
    destruct Hstop as [He|(d & Hd & Hlt)]; [now left|right].
    exists (Some d). split; [exact Hd|]. cbn. now apply Z.ltb_lt.
  - eexists. apply scan_entries_app.
Qed.

Lemma feed_loop_stops_early_witness :
  fst (scan_entries Sample.pod ∅ 63837892800000000
         ([Sample.recent] ++ Sample.old :: [Sample.undated]) [])
  = fst (scan_entries Sample.pod ∅ 63837892800000000 [Sample.recent] [])
  /\ exists kept,
       fst (scan_entries Sample.pod ∅ 63837892800000000 [Sample.recent] [])
       = ([] ++ kept)%list.
Proof.
  apply (feed_loop_stops_early Sample.pod ∅ 63837892800000000 [Sample.recent]
           Sample.old [Sample.undated] [] "https://example.com/a.mp3").
  - reflexivity.
  - right. eexists. split; [reflexivity|]. vm_compute. reflexivity.
Defined.




(** X13.  Every episode of a [GET /episodes] response can be started:
    with the same feeds, [POST /transcribe] on its [id] finds an entry and
    does not answer 404.  Its [status] field is the [status] member of the
    episode's Status Record, and [pending] when the store has no record for
    it; its audio URL is not empty. *)
Theorem listed_episodes_resolve o status limit days res ep :
  list_episodes (parse o) (feeds o) status (now_utc o) limit days = Ok res ->
  In ep res ->
  Server.resolves o (ep_id ep)
  /\ (exists target,
        Server.find_episode (parse o) (ep_id ep) (feeds o) = Some target
        /\ ed_id target = Some (ep_id ep))
  /\ (forall w,
        snd (Server.start_transcription o (ep_id ep) w)
        <> Raise (mk_exn (HTTPException 404) "Episode not found"))
  /\ ep_status ep
     = match status !! ep_id ep with
       | Some record => default "pending" (record !! "status")
       | None => "pending"
       end
  /\ ep_audio_url ep <> "".
Proof.
  intros Hres Hin.
  apply AggregatorFacts.list_episodes_Ok in Hres as (c & Hc & _ & ->).
  apply AggregatorFacts.slice_to_In in Hin.
  apply PySortFacts.sort_desc_In in Hin.
  apply AggregatorFacts.collect_from in Hin
    as (feed & entries & Hfeed & Hparse & entry & a & pd & Hentry & Ha & _ & _ & ->).
  cbn [ep_id ep_status ep_audio_url episode_data_of].
  assert (Hr : Server.resolves o (EpisodeId.get_episodes_id feed entry)).
  { exists feed, entries, entry, a. repeat split; try assumption.
    symmetry. apply EpisodeIdFacts.get_episodes_id_derive. }
  split; [exact Hr|].
  pose proof Hr as [target Hfind]%ServerFacts.find_episode_resolves.
  split; [|split; [|split]].
  - exists target. split; [exact Hfind|].
    apply InvariantFacts.find_episode_target in Hfind as (n & t & u & -> & _).
    reflexivity.
  - intros w. unfold Server.start_transcription. rewrite Hfind.
    destruct (Store.load_status w) as [st|e] eqn:Hl; cbn [snd].
    + destruct (Server.already_completed st _); discriminate.
    + unfold Store.load_status in Hl. destruct (status_file w) as [text|];
        [|discriminate].
      destruct (JsonFacts.loads_Raise text) as [msg Hmsg]; [now rewrite Hl|].
      rewrite Hl in Hmsg. injection Hmsg as ->. discriminate.
  - unfold status_of. now destruct (status !! _).
  - eapply InvariantFacts.audio_of_truthy, Ha.
Qed.

Lemma listed_episodes_resolve_witness :
  let ep :=
    episode_data_of Sample.pod ∅ Sample.recent "https://example.com/a.mp3"
      (Some {| DateTime.year := 2024; DateTime.month := 1; DateTime.day := 2;
               DateTime.hour := 3; DateTime.minute := 4; DateTime.second := 5;
               DateTime.microsecond := 0 |}) in
  Server.resolves Sample.outside (ep_id ep)
  /\ (exists target,
        Server.find_episode (parse Sample.outside) (ep_id ep) (feeds Sample.outside)
        = Some target
        /\ ed_id target = Some (ep_id ep))
  /\ (forall w,
        snd (Server.start_transcription Sample.outside (ep_id ep) w)
        <> Raise (mk_exn (HTTPException 404) "Episode not found"))
  /\ ep_status ep
     = match (∅ : StatusStore) !! ep_id ep with
       | Some record => default "pending" (record !! "status")
       | None => "pending"
       end
  /\ ep_audio_url ep <> "".
Proof.
  intros ep.
  apply (listed_episodes_resolve Sample.outside ∅ 100 90 [ep] ep).
  - vm_compute. reflexivity.
  - now left.
Defined.

End ListingFacts.

Module SweepFacts.
Import Registry.

Lemma to_remove_later current_time later r :
  DateTime.instant current_time <= DateTime.instant later ->
  to_remove current_time r = true -> to_remove later r = true.
Proof.
  unfold to_remove, expired. intros Hle.
  rewrite !andb_true_iff, !Z.ltb_lt. intros [Ht He]. split; [exact Ht|lia].
Qed.

(** X14.  The sweep only removes: what is left is a part of the registry.
    Sweeping again at the same time removes nothing more, and a sweep
    followed by a later sweep leaves what the later sweep alone would
    leave. *)
Theorem sweep_composes current_time (tasks : gmap string TaskRecord) :
  cleanup_old_tasks current_time tasks ⊆ tasks
  /\ cleanup_old_tasks current_time (cleanup_old_tasks current_time tasks)
     = cleanup_old_tasks current_time tasks
  /\ (forall later,
        DateTime.instant current_time <= DateTime.instant later ->
        cleanup_old_tasks later (cleanup_old_tasks current_time tasks)
        = cleanup_old_tasks later tasks).
Proof.
  assert (Hlater : forall later,
            DateTime.instant current_time <= DateTime.instant later ->
            cleanup_old_tasks later (cleanup_old_tasks current_time tasks)
            = cleanup_old_tasks later tasks).
  { intros later Hle. apply map_eq. intros i.
    rewrite !RegistryFacts.cleanup_lookup.
    destruct (tasks !! i) as [r|]; [|reflexivity].
    destruct (to_remove current_time r) eqn:Hr; [|reflexivity].
    now rewrite (to_remove_later _ _ _ Hle Hr). }
  split; [|split; [apply Hlater; lia|exact Hlater]].
  apply map_subseteq_spec. intros i r. rewrite RegistryFacts.cleanup_lookup.
  destruct (tasks !! i) as [r0|]; [|discriminate].
  now destruct (to_remove current_time r0).
Qed.

End SweepFacts.

Module BlankFacts.
Import Normalizer.

Lemma filter_none {A} (f : A -> bool) (l : list A) :
  Forall (fun x => f x = false) l -> List.filter f l = [].
Proof. induction 1 as [|x l Hx _ IH]; [reflexivity|]. cbn. now rewrite Hx. Qed.

(** X18.  A [done] result whose utterance list (or segment list) holds no
    text, being empty or made of blank texts only, is not taken for missing
    transcription data: it normalizes to the empty transcript.  Under a
    [transcription] object the utterance list decides as soon as the member
    is there, whatever [full_transcript] and [segments] hold beside it. *)
Theorem blank_lists_give_empty_transcript :
  (forall data r o utterances,
     p_status data = "done" -> p_result data = Val r ->
     r_transcription r = Some (TObject o) ->
     t_utterances o = Some utterances ->
     Forall (fun u => PyStr.strip (default "" (utt_text u)) = "") utterances ->
     on_response data = Return (VStr ""))
  /\ (forall data r utterances,
        p_status data = "done" -> p_result data = Val r ->
        r_transcription r = None ->
        r_utterances r = Some utterances ->
        Forall (fun u => PyStr.strip (default "" (utt_text u)) = "") utterances ->
        on_response data = Return (VStr ""))
  /\ (forall data r o segments,
        p_status data = "done" -> p_result data = Val r ->
        r_transcription r = Some (TObject o) ->
        t_utterances o = None -> t_full_transcript o = None ->
        t_segments o = Some segments ->
        Forall (fun s => PyStr.strip (default "" (seg_text s)) = "") segments ->
        on_response data = Return (VStr ""))
  /\ (forall data r segments,
        p_status data = "done" -> p_result data = Val r ->
        r_transcription r = None ->
        r_utterances r = None -> r_segments r = Some segments ->
        Forall (fun s => PyStr.strip (default "" (seg_text s)) = "") segments ->
        on_response data = Return (VStr "")).
Proof.
  assert (Hu : forall utterances,
            Forall (fun u => PyStr.strip (default "" (utt_text u)) = "") utterances ->
            render (UtteranceList utterances) = Ok "").
  { intros us H. cbn [render]. rewrite filter_none; [reflexivity|].
    eapply Forall_impl; [exact H|]. intros u Hu. unfold has_text. now rewrite Hu. }
  assert (Hs : forall segments,
            Forall (fun s => PyStr.strip (default "" (seg_text s)) = "") segments ->
            render (SegmentList segments) = Ok "").
  { intros ss H. cbn [render]. rewrite filter_none; [reflexivity|].
    eapply Forall_impl; [exact H|]. intros s Hs. cbn beta in Hs. unfold has_text. now rewrite Hs. }
  split; [|split; [|split]].
  - intros data r o us Hst Hr Ht Hus Hb.
    rewrite NormalizerFacts.on_response_done by exact Hst.
    rewrite (NormalizerFacts.on_done_nested data r o (UtteranceList us) Hr Ht)
      by (unfold nested_shape; now rewrite Hus).
    now rewrite Hu.
  - intros data r us Hst Hr Ht Hus Hb.
    rewrite NormalizerFacts.on_response_done by exact Hst.
    rewrite (NormalizerFacts.on_done_root data r (UtteranceList us) Hr Ht)
      by (unfold root_shape; now rewrite Hus).
    now rewrite Hu.
  - intros data r o ss Hst Hr Ht Hus Hf Hss Hb.
    rewrite NormalizerFacts.on_response_done by exact Hst.
    rewrite (NormalizerFacts.on_done_nested data r o (SegmentList ss) Hr Ht)
      by (unfold nested_shape; now rewrite Hus, Hf, Hss).
    now rewrite Hs.
  - intros data r ss Hst Hr Ht Hus Hss Hb.
    rewrite NormalizerFacts.on_response_done by exact Hst.
    rewrite (NormalizerFacts.on_done_root data r (SegmentList ss) Hr Ht)
      by (unfold root_shape; now rewrite Hus, Hss).
    now rewrite Hs.
Qed.

End BlankFacts.

Module ChronoFacts.
Import DateTime PySort Chrono.

Lemma code_chr z : 0 <= z < 256 -> PyStr.code (PyStr.chr z) = z.
Proof.
  intros H. unfold PyStr.code, PyStr.chr.
  rewrite N_ascii_embedding by lia. lia.
Qed.

(** *** Zero-padded numbers as digit strings *)

Lemma fmt_0d_2 n :
  0 <= n < 100 ->
  PyStr.fmt_0d 2 n
  = String (PyStr.chr (48 + n / 10)) (String (PyStr.chr (48 + n mod 10)) EmptyString).
Proof.
  intros Hn.
  assert (Hall : forallb
                   (fun k => String.eqb
                      (PyStr.fmt_0d 2 (Z.of_nat k))
                      (String (PyStr.chr (48 + Z.of_nat k / 10))
                         (String (PyStr.chr (48 + Z.of_nat k mod 10)) EmptyString)))
                   (seq 0 100) = true) by (vm_compute; reflexivity).
  rewrite forallb_forall in Hall.
  specialize (Hall (Z.to_nat n)). rewrite Z2Nat.id in Hall by lia.
  apply String.eqb_eq, Hall, in_seq. lia.
Qed.

Lemma digits_fuel_S fuel n acc :
  PyStr.digits_fuel (S fuel) n acc
  = if n / 10 =? 0 then String (PyStr.chr (48 + n mod 10)) acc
    else PyStr.digits_fuel fuel (n / 10) (String (PyStr.chr (48 + n mod 10)) acc).
Proof. reflexivity. Qed.

Lemma chr_digit a b : a = b -> PyStr.chr (48 + a) = PyStr.chr (48 + b).
Proof. now intros ->. Qed.

Lemma fmt_0d_4 n :
  0 <= n < 10000 ->
  PyStr.fmt_0d 4 n
  = String (PyStr.chr (48 + n / 1000))
      (String (PyStr.chr (48 + n / 100 mod 10))
         (String (PyStr.chr (48 + n / 10 mod 10))
            (String (PyStr.chr (48 + n mod 10)) EmptyString))).
Proof.
  intros Hn. unfold PyStr.fmt_0d. rewrite (proj2 (Z.ltb_ge n 0)) by lia.
  rewrite Z.abs_eq by lia. unfold PyStr.digits.
  destruct (Z_lt_le_dec n 10) as [Hs|Hl].
  - rewrite digits_fuel_S. replace (n / 10) with 0 by (Z.div_mod_to_equations; lia).
    cbn [Z.eqb String.length Nat.sub PyStr.zeros String.append].
    replace (n / 1000) with 0 by (Z.div_mod_to_equations; lia).
    replace (n / 100) with 0 by (Z.div_mod_to_equations; lia).
    reflexivity.
  - assert (Hlog : 3 <= Z.log2 n).
    { change 3 with (Z.log2 10). apply Z.log2_le_mono. lia. }
    destruct (Z.to_nat (Z.log2 n)) as [|[|[|fuel]]] eqn:Hfuel; try lia.
    rewrite !digits_fuel_S.
    destruct (Z.eqb_spec (n / 10) 0) as [H1|H1];
      [exfalso; Z.div_mod_to_equations; lia|].
    destruct (Z.eqb_spec (n / 10 / 10) 0) as [H2|H2].
    { cbn [String.length Nat.sub PyStr.zeros String.append].
      replace (n / 1000) with 0 by (Z.div_mod_to_equations; lia).
      replace (n / 100) with 0 by (Z.div_mod_to_equations; lia).
      reflexivity. }
    destruct (Z.eqb_spec (n / 10 / 10 / 10) 0) as [H3|H3].
    { cbn [String.length Nat.sub PyStr.zeros String.append].
      replace (n / 1000) with 0 by (Z.div_mod_to_equations; lia).
      replace (n / 10 / 10) with (n / 100) by (Z.div_mod_to_equations; lia).
      reflexivity. }
    destruct (Z.eqb_spec (n / 10 / 10 / 10 / 10) 0) as [H4|H4];
      [|exfalso; Z.div_mod_to_equations; lia].
    cbn [String.length Nat.sub PyStr.zeros String.append].
    replace (n / 10 / 10 / 10) with (n / 1000) by (Z.div_mod_to_equations; lia).
    replace (n / 10 / 10) with (n / 100) by (Z.div_mod_to_equations; lia).
    replace (n / 1000 mod 10) with (n / 1000) by (Z.div_mod_to_equations; lia).
    reflexivity.
Qed.

(** *** Comparing strings that start with digits *)

Lemma str_ltb_cons x y s t :
  str_ltb (String x s) (String y t)
  = (PyStr.code x <? PyStr.code y) || ((PyStr.code x =? PyStr.code y) && str_ltb s t).
Proof. reflexivity. Qed.

Lemma str_ltb_same c s t : str_ltb (String c s) (String c t) = str_ltb s t.
Proof. rewrite str_ltb_cons, Z.ltb_irrefl, Z.eqb_refl. reflexivity. Qed.

Lemma str_ltb_digit x y s t :
  0 <= x <= 9 -> 0 <= y <= 9 ->
  str_ltb (String (PyStr.chr (48 + x)) s) (String (PyStr.chr (48 + y)) t)
  = (x <? y) || ((x =? y) && str_ltb s t).
Proof.
  intros Hx Hy. rewrite str_ltb_cons, !code_chr by lia.
  destruct (str_ltb s t); rewrite ?andb_true_r, ?andb_false_r, ?orb_false_r;
    apply eq_true_iff_eq; rewrite ?orb_true_iff, ?Z.ltb_lt, ?Z.eqb_eq; lia.
Qed.

Lemma str_ltb_fmt2 a b s t :
  0 <= a < 100 -> 0 <= b < 100 ->
  str_ltb (PyStr.fmt_0d 2 a +:+ s) (PyStr.fmt_0d 2 b +:+ t)
  = (a <? b) || ((a =? b) && str_ltb s t).
Proof.
  intros Ha Hb. rewrite !fmt_0d_2 by assumption. cbn [String.append].
  rewrite !str_ltb_digit by (Z.div_mod_to_equations; lia).
  destruct (str_ltb s t); rewrite ?andb_true_r, ?andb_false_r, ?orb_false_r;
    apply eq_true_iff_eq;
    rewrite ?orb_true_iff, ?andb_true_iff, ?orb_true_iff, ?Z.ltb_lt, ?Z.eqb_eq;
    Z.div_mod_to_equations; lia.
Qed.

Lemma str_ltb_fmt4 a b s t :
  0 <= a < 10000 -> 0 <= b < 10000 ->
  str_ltb (PyStr.fmt_0d 4 a +:+ s) (PyStr.fmt_0d 4 b +:+ t)
  = (a <? b) || ((a =? b) && str_ltb s t).
Proof.
  intros Ha Hb. rewrite !fmt_0d_4 by assumption. cbn [String.append].
  rewrite !str_ltb_digit by (Z.div_mod_to_equations; lia).
  destruct (str_ltb s t); rewrite ?andb_true_r, ?andb_false_r, ?orb_false_r;
    apply eq_true_iff_eq;
    rewrite ?orb_true_iff, ?andb_true_iff, ?orb_true_iff, ?andb_true_iff,
      ?orb_true_iff, ?andb_true_iff, ?orb_true_iff, ?Z.ltb_lt, ?Z.eqb_eq;
    Z.div_mod_to_equations; lia.
Qed.

Lemma str_ltb_sep c s t :
  str_ltb (String c EmptyString +:+ s) (String c EmptyString +:+ t) = str_ltb s t.
Proof. cbn [String.append]. apply str_ltb_same. Qed.

(** *** Valid datetimes *)

Lemma valid_bounds d :
  valid d = true ->
  1 <= year d <= 9999 /\ 1 <= month d <= 12
  /\ 1 <= day d <= days_in_month (year d) (month d)
  /\ 0 <= hour d <= 23 /\ 0 <= minute d <= 59 /\ 0 <= second d <= 59
  /\ 0 <= microsecond d <= 999999.
Proof.
  unfold valid. rewrite !andb_true_iff, !Z.leb_le. tauto.
Qed.

Lemma days_in_month_le y m : 1 <= m <= 12 -> 28 <= days_in_month y m <= 31.
Proof.
  intros Hm. unfold days_in_month.
  destruct (m =? 2); [destruct (is_leap y); lia|].
  destruct ((m =? 4) || (m =? 6) || (m =? 9) || (m =? 11)); lia.
Qed.

(** The string order of ISO timestamps is the order of the fields. *)
Lemma isoformat_fields d1 d2 :
  valid d1 = true -> valid d2 = true ->
  microsecond d1 = 0 -> microsecond d2 = 0 ->
  str_ltb (isoformat d1) (isoformat d2) = tuple_ltb (fields d1) (fields d2).
Proof.
  intros H1 H2 Hu1 Hu2.
  apply valid_bounds in H1 as (Hy1 & Hm1 & Hd1 & Hh1 & Hmi1 & Hs1 & _).
  apply valid_bounds in H2 as (Hy2 & Hm2 & Hd2 & Hh2 & Hmi2 & Hs2 & _).
  pose proof (days_in_month_le (year d1) (month d1) Hm1).
  pose proof (days_in_month_le (year d2) (month d2) Hm2).
  unfold isoformat. rewrite Hu1, Hu2.
  rewrite str_ltb_fmt4 by lia. rewrite str_ltb_sep.
  rewrite str_ltb_fmt2 by lia. rewrite str_ltb_sep.
  rewrite str_ltb_fmt2 by lia. rewrite str_ltb_sep.
  rewrite str_ltb_fmt2 by lia. rewrite str_ltb_sep.
  rewrite str_ltb_fmt2 by lia. rewrite str_ltb_sep.
  rewrite str_ltb_fmt2 by lia.
  reflexivity.
Qed.

(** *** Ordinals *)

Lemma days_before_year_succ y :
  days_before_year (y + 1) = days_before_year y + 365 + (if is_leap y then 1 else 0).
Proof.
  unfold days_before_year, is_leap. cbv zeta.
  replace (y + 1 - 1) with y by lia.
  destruct (Z.eqb_spec (y mod 4) 0), (Z.eqb_spec (y mod 100) 0), (Z.eqb_spec (y mod 400) 0);
    cbn [negb andb orb]; Z.div_mod_to_equations; lia.
Qed.

Lemma days_before_year_mono y1 y2 :
  y1 <= y2 -> days_before_year y1 <= days_before_year y2.
Proof. unfold days_before_year. cbv zeta. intros H. Z.div_mod_to_equations. lia. Qed.

Lemma month_cases m :
  1 <= m <= 12 ->
  m = 1 \/ m = 2 \/ m = 3 \/ m = 4 \/ m = 5 \/ m = 6
  \/ m = 7 \/ m = 8 \/ m = 9 \/ m = 10 \/ m = 11 \/ m = 12.
Proof. lia. Qed.

Lemma days_before_month_succ y m :
  1 <= m <= 11 ->
  days_before_month y (m + 1) = days_before_month y m + days_in_month y m.
Proof.
  intros Hm.
  assert (H : m = 1 \/ m = 2 \/ m = 3 \/ m = 4 \/ m = 5 \/ m = 6
              \/ m = 7 \/ m = 8 \/ m = 9 \/ m = 10 \/ m = 11) by lia.
  unfold days_before_month, days_in_month.
  destruct (is_leap y);
    repeat (destruct H as [->|H]; [reflexivity|]); subst m; reflexivity.
Qed.

Lemma days_before_month_mono y m1 m2 :
  1 <= m1 -> m1 <= m2 <= 12 ->
  days_before_month y m1 <= days_before_month y m2.
Proof.
  intros H1 H2.
  replace m2 with (m1 + Z.of_nat (Z.to_nat (m2 - m1))) by lia.
  assert (Hk : m1 + Z.of_nat (Z.to_nat (m2 - m1)) <= 12) by lia.
  revert Hk. generalize (Z.to_nat (m2 - m1)) as k. clear H2.
  induction k as [|k IH]; intros Hk; [rewrite Z.add_0_r; lia|].
  replace (m1 + Z.of_nat (S k)) with (m1 + Z.of_nat k + 1) by lia.
  rewrite days_before_month_succ by lia.
  pose proof (days_in_month_le y (m1 + Z.of_nat k)). lia.
Qed.

Lemma days_before_month_12 y :
  days_before_month y 12 + 31 = 365 + (if is_leap y then 1 else 0).
Proof. unfold days_before_month. destruct (is_leap y); reflexivity. Qed.

(** Dates in calendar order have ordinals in the same order. *)
Lemma ymd2ord_lt y1 m1 dd1 y2 m2 dd2 :
  1 <= m1 <= 12 -> 1 <= dd1 <= days_in_month y1 m1 ->
  1 <= m2 <= 12 -> 1 <= dd2 <= days_in_month y2 m2 ->
  y1 < y2 \/ (y1 = y2 /\ (m1 < m2 \/ (m1 = m2 /\ dd1 < dd2))) ->
  ymd2ord y1 m1 dd1 < ymd2ord y2 m2 dd2.
Proof.
  intros Hm1 Hd1 Hm2 Hd2 Hlt. unfold ymd2ord.
  assert (Hend : forall y m dd, 1 <= m <= 12 -> dd <= days_in_month y m ->
            days_before_month y m + dd <= 365 + (if is_leap y then 1 else 0)).
  { intros y m dd Hm Hdd. rewrite <- days_before_month_12.
    destruct (Z.eq_dec m 12) as [->|Hne].
    - unfold days_in_month in Hdd. cbn in Hdd. lia.
    - pose proof (days_before_month_mono y (m + 1) 12 ltac:(lia) ltac:(lia)) as Hmono.
      rewrite days_before_month_succ in Hmono by lia. lia. }
  assert (Hstart : forall y m, 1 <= m <= 12 -> 0 <= days_before_month y m).
  { intros y m Hm. pose proof (days_before_month_mono y 1 m ltac:(lia) ltac:(lia)) as H.
    change (days_before_month y 1) with 0 in H. exact H. }
  destruct Hlt as [Hy|[-> [Hm| [-> Hd]]]].
  - pose proof (days_before_year_mono (y1 + 1) y2 ltac:(lia)) as Hmono.
    rewrite days_before_year_succ in Hmono.
    pose proof (Hend y1 m1 dd1 Hm1 ltac:(lia)).
    pose proof (Hstart y2 m2 Hm2). lia.
  - pose proof (days_before_month_mono y2 (m1 + 1) m2 ltac:(lia) ltac:(lia)) as Hmono.
    rewrite days_before_month_succ in Hmono by lia. lia.
  - lia.
Qed.

Lemma tuple_ltb_cons x a y b :
  tuple_ltb (x :: a) (y :: b) = (x <? y) || ((x =? y) && tuple_ltb a b).
Proof. reflexivity. Qed.

(** The order of the fields is the order of the instants. *)
Lemma fields_instant d1 d2 :
  valid d1 = true -> valid d2 = true ->
  microsecond d1 = 0 -> microsecond d2 = 0 ->
  tuple_ltb (fields d1) (fields d2) = (instant d1 <? instant d2).
Proof.
  intros H1 H2 Hu1 Hu2.
  apply valid_bounds in H1 as (Hy1 & Hm1 & Hd1 & Hh1 & Hmi1 & Hs1 & _).
  apply valid_bounds in H2 as (Hy2 & Hm2 & Hd2 & Hh2 & Hmi2 & Hs2 & _).
  unfold fields, instant. rewrite Hu1, Hu2, !tuple_ltb_cons.
  cbn [tuple_ltb]. rewrite andb_false_r, orb_false_r.
  pose proof (ymd2ord_lt (year d1) (month d1) (day d1) (year d2) (month d2) (day d2)
                Hm1 Hd1 Hm2 Hd2) as H12.
  pose proof (ymd2ord_lt (year d2) (month d2) (day d2) (year d1) (month d1) (day d1)
                Hm2 Hd2 Hm1 Hd1) as H21.
  set (o1 := ymd2ord (year d1) (month d1) (day d1)) in *.
  set (o2 := ymd2ord (year d2) (month d2) (day d2)) in *.
  assert (Heq : year d1 = year d2 -> month d1 = month d2 -> day d1 = day d2 -> o1 = o2).
  { subst o1 o2. now intros -> -> ->. }
  apply eq_true_iff_eq.
  rewrite ?orb_true_iff, ?andb_true_iff, ?orb_true_iff, ?andb_true_iff,
    ?orb_true_iff, ?andb_true_iff, ?orb_true_iff, ?andb_true_iff, ?orb_true_iff,
    ?andb_true_iff, ?Z.ltb_lt, ?Z.eqb_eq.
  lia.
Qed.

Lemma isoformat_order d1 d2 :
  valid d1 = true -> valid d2 = true ->
  microsecond d1 = 0 -> microsecond d2 = 0 ->
  str_ltb (isoformat d1) (isoformat d2) = (instant d1 <? instant d2).
Proof.
  intros H1 H2 Hu1 Hu2. rewrite isoformat_fields by assumption.
  now apply fields_instant.
Qed.

(** *** The listing *)

Lemma sorted_lookup {A} (R : A -> A -> Prop) (l : list A) :
  Sorted R l ->
  (forall x y z, In x l -> In y l -> In z l -> R x y -> R y z -> R x z) ->
  forall i j x y, (i < j)%nat -> l !! i = Some x -> l !! j = Some y -> R x y.
Proof.
  induction 1 as [|a l Hs IH Hhd]; intros Htrans i j x y Hij Hi Hj.
  - discriminate.
  - assert (IH' := IH (fun x y z Hx Hy Hz => Htrans x y z (or_intror Hx) (or_intror Hy)
                                                (or_intror Hz))).
    destruct j as [|j]; [lia|]. cbn in Hj.
    destruct i as [|i]; cbn in Hi.
    + injection Hi as <-.
      destruct l as [|b l]; [discriminate|]. inversion Hhd as [|? ? Hab]; subst.
      destruct j as [|j]; cbn in Hj; [now injection Hj as <-|].
      apply (Htrans a b y); [now left|right; now left| |exact Hab|].
      * right. right. eapply list_elem_of_In, list_elem_of_lookup_2, Hj.
      * apply (IH' 0%nat (S j)); [lia|reflexivity|exact Hj].
    + apply (IH' i j); [lia|exact Hi|exact Hj].
Qed.

Lemma of_struct_time_valid t d :
  of_struct_time t = Ok d -> valid d = true /\ microsecond d = 0.
Proof.
  unfold of_struct_time. destruct (valid _) eqn:Hv; [|discriminate].
  intros [= <-]. now split.
Qed.

Lemma built_from_dated status cutoff_date feed entries ep :
  Aggregator.built_from status cutoff_date feed entries ep ->
  ep_pub_date_parsed ep = None
  \/ exists d, ep_pub_date_parsed ep = Some (isoformat d)
               /\ valid d = true /\ microsecond d = 0.
Proof.
  intros (entry & a & pd & _ & _ & Hpd & _ & ->).
  cbn [ep_pub_date_parsed Aggregator.episode_data_of].
  destruct pd as [d|]; [right|now left].
  exists d. split; [reflexivity|].
  unfold Aggregator.pub_date_parsed_of in Hpd.
  destruct (entry_published_parsed entry) as [| |t]; try discriminate.
  destruct (of_struct_time t) as [d'|] eqn:Ht; [|discriminate].
  injection Hpd as ->. eapply of_struct_time_valid, Ht.
Qed.

Lemma has_none_false_Some {A K} (key : A -> option K) (l : list A) x :
  has_none key l = false -> In x l -> key x <> None.
Proof.
  intros Hn Hin Hk. assert (has_none key l = true); [|congruence].
  apply AggregatorFacts.has_none_exists. now exists x.
Qed.

(** X15.  The ISO timestamps the listing is sorted by compare, as
    strings, the way the instants they denote do; so whenever
    [GET /episodes] returns two or more episodes they all carry a date and
    they are in chronological order, newest first. *)
Theorem listing_is_chronological parse feeds status now limit days res :
  Aggregator.list_episodes parse feeds status now limit days = Ok res ->
  forall i j x y,
    (i < j)%nat -> res !! i = Some x -> res !! j = Some y ->
    exists dx dy,
      ep_pub_date_parsed x = Some (isoformat dx)
      /\ ep_pub_date_parsed y = Some (isoformat dy)
      /\ valid dx = true /\ valid dy = true
      /\ str_ltb (isoformat dx) (isoformat dy) = false
      /\ instant dy <= instant dx.
Proof.
  intros Hres i j x y Hij Hi Hj.
  apply AggregatorFacts.list_episodes_Ok in Hres as (c & Hc & Hsorted & ->).
  set (all := Aggregator.collect parse feeds status c) in *.
  set (sorted := sort_desc str_ltb ep_pub_date_parsed all) in *.
  assert (Hi' : sorted !! i = Some x /\ sorted !! j = Some y).
  { unfold Aggregator.slice_to in Hi, Hj.
    destruct (limit <? 0);
      apply lookup_take_Some in Hi as [Hi _]; apply lookup_take_Some in Hj as [Hj _];
      now split. }
  destruct Hi' as [Hsi Hsj].
  assert (Hlen : (2 <= length all)%nat).
  { apply lookup_lt_Some in Hsj. unfold sorted in Hsj.
    rewrite PySortFacts.sort_desc_length in Hsj. lia. }
  assert (Hnone : has_none ep_pub_date_parsed all = false).
  { unfold sorted_desc in Hsorted. apply Nat.leb_le in Hlen. rewrite Hlen in Hsorted.
    cbn [andb] in Hsorted. now destruct (has_none ep_pub_date_parsed all). }
  assert (Hdated : forall ep, In ep sorted ->
            exists d, ep_pub_date_parsed ep = Some (isoformat d)
                      /\ valid d = true /\ microsecond d = 0).
  { intros ep Hin. apply PySortFacts.sort_desc_In in Hin.
    pose proof (has_none_false_Some _ _ _ Hnone Hin) as Hsome.
    apply AggregatorFacts.collect_from in Hin as (feed & entries & _ & _ & Hb).
    apply built_from_dated in Hb as [Hn|Hd]; [congruence|exact Hd]. }
  assert (Hdesc : forall a b,
            In a sorted -> In b sorted ->
            (desc str_ltb ep_pub_date_parsed a b
             <-> forall da db,
                   ep_pub_date_parsed a = Some (isoformat da) -> valid da = true ->
                   microsecond da = 0 ->
                   ep_pub_date_parsed b = Some (isoformat db) -> valid db = true ->
                   microsecond db = 0 ->
                   instant db <= instant da)).
  { intros a b Ha Hb. unfold desc, key_lt.
    destruct (Hdated a Ha) as (da & Hka & Hva & Hua).
    destruct (Hdated b Hb) as (db & Hkb & Hvb & Hub).
    rewrite Hka, Hkb. split.
    - intros Hlt da' db' [= Ea] Hva' Hua' [= Eb] Hvb' Hub'.
      rewrite Ea, Eb in Hlt. rewrite isoformat_order in Hlt by assumption.
      apply Z.ltb_ge in Hlt. exact Hlt.
    - intros H. rewrite isoformat_order by assumption.
      apply Z.ltb_ge. now apply H. }
  assert (Hxy : desc str_ltb ep_pub_date_parsed x y).
  { apply (sorted_lookup _ sorted) with (i := i) (j := j); try assumption.
    - apply PySortFacts.sort_desc_sorted, PySortFacts.str_ltb_asym.
    - intros a b z Ha Hb Hz Hab Hbz.
      pose proof (proj1 (Hdesc a b Ha Hb) Hab) as Hab'.
      pose proof (proj1 (Hdesc b z Hb Hz) Hbz) as Hbz'.
      apply (proj2 (Hdesc a z Ha Hz)).
      intros da dz Hka Hva Hua Hkz Hvz Huz.
      destruct (Hdated b Hb) as (db & Hkb & Hvb & Hub).
      specialize (Hab' da db Hka Hva Hua Hkb Hvb Hub).
      specialize (Hbz' db dz Hkb Hvb Hub Hkz Hvz Huz). lia. }
  assert (Hx : In x sorted) by (eapply list_elem_of_In, list_elem_of_lookup_2, Hsi).
  assert (Hy : In y sorted) by (eapply list_elem_of_In, list_elem_of_lookup_2, Hsj).
  destruct (Hdated x Hx) as (dx & Hkx & Hvx & Hux).
  destruct (Hdated y Hy) as (dy & Hky & Hvy & Huy).
  exists dx, dy. repeat split; try assumption.
  - unfold desc, key_lt in Hxy. now rewrite Hkx, Hky in Hxy.
  - apply (proj1 (Hdesc x y Hx Hy) Hxy); assumption.
Qed.

Lemma listing_is_chronological_witness :
  exists dx dy,
    Some "2024-01-02T03:04:05+00:00" = Some (isoformat dx)
    /\ Some "2023-01-01T00:00:00+00:00" = Some (isoformat dy)
    /\ valid dx = true /\ valid dy = true
    /\ str_ltb (isoformat dx) (isoformat dy) = false
    /\ instant dy <= instant dx.
Proof.
  refine (listing_is_chronological (Sample.serve [Sample.old; Sample.recent])
           [Sample.pod] ∅ Sample.now 100 900
           (Aggregator.slice_to 100
              (sort_desc str_ltb ep_pub_date_parsed
                 (Aggregator.collect (Sample.serve [Sample.old; Sample.recent])
                    [Sample.pod] ∅ 63762724800000000)))
           _ 0%nat 1%nat
           (Aggregator.episode_data_of Sample.pod ∅ Sample.recent
              "https://example.com/a.mp3"
              (Some {| year := 2024; month := 1; day := 2; hour := 3; minute := 4;
                       second := 5; microsecond := 0 |}))
           (Aggregator.episode_data_of Sample.pod ∅ Sample.old
              "https://example.com/a.mp3"
              (Some {| year := 2023; month := 1; day := 1; hour := 0; minute := 0;
                       second := 0; microsecond := 0 |})) _ _ _).
  - vm_compute. reflexivity.
  - lia.
  - vm_compute. reflexivity.
  - vm_compute. reflexivity.
Defined.

End ChronoFacts.

Module DownloadFacts.

(** X19.  The disk-space check never stops a download: the
    [RuntimeError] it raises on less than 50 MB of free space is caught by
    the handler around the check, which only prints a warning; so is any
    exception of [disk_usage].  What [download_audio] returns or raises is
    decided by the presence of the file and by the request alone, and when
    the file is already there nothing is checked or downloaded. *)
Theorem disk_check_never_stops_download env usage folder :
  fst (Download.download_audio env usage folder) = Job.download_audio env folder
  /\ (je_audio_present env = true ->
      Download.download_audio env usage folder = (Ok (folder +:+ "/audio.mp3"), []))
  /\ (forall total used free,
        je_audio_present env = false ->
        usage = Ok (total, used, free) ->
        free < 50 * 1024 * 1024 ->
        Download.download_audio env usage folder
        = (_ ← je_download env; Ok (folder +:+ "/audio.mp3"),
           ["Warning: Could not check disk space: Insufficient disk space. Only "
            +:+ PyStr.str_int (free / (1024 * 1024)) +:+ "MB available"]))
  /\ (forall total used free,
        je_audio_present env = false ->
        usage = Ok (total, used, free) ->
        50 * 1024 * 1024 <= free ->
        Download.download_audio env usage folder
        = (_ ← je_download env; Ok (folder +:+ "/audio.mp3"), []))
  /\ (forall e,
        je_audio_present env = false ->
        usage = Raise e ->
        Download.download_audio env usage folder
        = (_ ← je_download env; Ok (folder +:+ "/audio.mp3"),
           ["Warning: Could not check disk space: " +:+ exn_str e])).
Proof.
  unfold Download.download_audio, Job.download_audio, Download.check_disk_space.
  split; [now destruct (je_audio_present env)|].
  split; [now intros ->|]. split; [|split].
  - intros total used free -> -> Hfree.
    now rewrite (proj2 (Z.ltb_lt _ _) Hfree).
  - intros total used free -> -> Hfree.
    now rewrite (proj2 (Z.ltb_ge _ _) Hfree).
  - now intros e -> ->.
Qed.

End DownloadFacts.

Module TaskIdFacts.
Import Server.

(** X20.  The task identifier is made of the episode identifier and the
    clock second.  Two accepted [POST /transcribe] requests for the same
    episode within one second therefore get the same identifier: the
    second one overwrites the Task Record of the first, the registry gains
    one record, and two jobs are queued that both report into it. *)
Theorem same_second_shares_task o1 o2 episode_id w w1 w2 s1 s2 :
  time_time o1 = time_time o2 ->
  start_transcription o1 episode_id w = (w1, Ok s1) ->
  start_transcription o2 episode_id w1 = (w2, Ok s2) ->
  st_task_id s1 = st_task_id s2
  /\ exists target1 target2,
       background_tasks w2
       = <[st_task_id s1 := pending_record o2 target2]> (background_tasks w)
       /\ threads w2
          = (threads w ++ [(target1, st_task_id s1); (target2, st_task_id s1)])%list.
Proof.
  intros Htime. unfold start_transcription.
  destruct (find_episode (parse o1) episode_id (feeds o1)) as [t1|]; [|discriminate].
  destruct (Store.load_status w) as [st|] eqn:Hload; [|discriminate].
  destruct (already_completed st episode_id); [discriminate|].
  intros [= <- <-].
  destruct (find_episode (parse o2) episode_id (feeds o2)) as [t2|]; [|discriminate].
  change (Store.load_status (set_threads (set_tasks w _) _)) with (Store.load_status w).
  rewrite Hload.
  destruct (already_completed st episode_id); [discriminate|].
  intros [= <- <-]. cbn [st_task_id background_tasks threads set_tasks set_threads].
  rewrite Htime. split; [reflexivity|]. exists t1, t2.
  rewrite insert_insert_eq, <- app_assoc. split; reflexivity.
Qed.

Lemma same_second_shares_task_witness :
  let started := {| st_task_id := Sample.task;
                    st_message := "Transcription task started" |} in
  let w1 := fst (start_transcription Sample.outside "f7880620_ep-recent"
                   (Sample.world true)) in
  let w2 := fst (start_transcription Sample.outside "f7880620_ep-recent" w1) in
  st_task_id started = st_task_id started
  /\ exists target1 target2,
       background_tasks w2
       = <[st_task_id started := pending_record Sample.outside target2]>
           (background_tasks (Sample.world true))
       /\ threads w2
          = (threads (Sample.world true)
             ++ [(target1, st_task_id started); (target2, st_task_id started)])%list.
Proof.
  intros started w1 w2.
  apply (same_second_shares_task Sample.outside Sample.outside "f7880620_ep-recent"
           (Sample.world true) w1 w2 started started).
  - reflexivity.
  - vm_compute. reflexivity.
  - vm_compute. reflexivity.
Defined.

End TaskIdFacts.

Module DatedFeedFacts.
Import Aggregator PySort DateTime Chrono.

Lemma tuple_ltb_asym a b : tuple_ltb a b = true -> tuple_ltb b a = false.
Proof.
  revert b; induction a as [|x a IH]; intros [|y b]; simpl; try easy.
  rewrite !orb_true_iff, !andb_true_iff, !orb_false_iff, !andb_false_iff.
  rewrite !Z.ltb_lt, !Z.eqb_eq, !Z.ltb_ge, Z.eqb_neq.
  intros [H|[H1 H2]].
  - split; [lia|]. left. lia.
  - split; [lia|]. right. now apply IH.
Qed.

(** The order of tuples is total: what is below [c] is below [b], or [b]
    is below [c]. *)
Lemma tuple_ltb_between a b c :
  tuple_ltb a c = true -> tuple_ltb a b = true \/ tuple_ltb b c = true.
Proof.
  revert b c; induction a as [|x a IH]; intros [|y b] [|z c]; simpl; try easy; try tauto.
  rewrite !orb_true_iff, !andb_true_iff, !Z.ltb_lt, !Z.eqb_eq.
  intros [H|[H1 H2]].
  - destruct (Z_lt_le_dec x y); [tauto|]. right. left. lia.
  - destruct (Z.lt_trichotomy x y) as [Hlt|[Heq|Hgt]]; [tauto| |right; left; lia].
    destruct (IH b c H2) as [Hab|Hbc]; [left|right]; right; split; (lia || assumption).
Qed.

Lemma tuple_ltb_app l1 l2 s1 s2 :
  length l1 = length l2 ->
  tuple_ltb l1 l2 = true -> tuple_ltb (l1 ++ s1) (l2 ++ s2) = true.
Proof.
  revert l2; induction l1 as [|x l1 IH]; intros [|y l2]; simpl; try easy.
  intros [= Hlen]. rewrite !orb_true_iff, !andb_true_iff.
  intros [H|[H1 H2]]; [now left|right]. split; [assumption|now apply IH].
Qed.

Lemma st_tuple_fields t d :
  of_struct_time t = Ok d ->
  Aggregator.st_tuple t = (fields d ++ [tm_wday t; tm_yday t; tm_isdst t])%list.
Proof.
  unfold of_struct_time. destruct (valid _); [|discriminate]. now intros [= <-].
Qed.

(** An entry sorted in front of another one is not older. *)
Lemma sorted_before_not_older (b e : Entry) tb te db de :
  entry_published_parsed b = Val tb -> of_struct_time tb = Ok db ->
  entry_published_parsed e = Val te -> of_struct_time te = Ok de ->
  desc tuple_ltb entry_sort_key b e ->
  instant de <= instant db.
Proof.
  intros Hb Hdb He Hde Hdesc. unfold desc, key_lt, entry_sort_key in Hdesc.
  rewrite Hb, He in Hdesc.
  rewrite (st_tuple_fields _ _ Hdb), (st_tuple_fields _ _ Hde) in Hdesc.
  destruct (ChronoFacts.of_struct_time_valid _ _ Hdb) as [Hvb Hub].
  destruct (ChronoFacts.of_struct_time_valid _ _ Hde) as [Hve Hue].
  destruct (tuple_ltb (fields db) (fields de)) eqn:Hlt.
  - apply (tuple_ltb_app _ _ [tm_wday tb; tm_yday tb; tm_isdst tb]
             [tm_wday te; tm_yday te; tm_isdst te]) in Hlt; [congruence|reflexivity].
  - rewrite ChronoFacts.fields_instant in Hlt by assumption. now apply Z.ltb_ge.
Qed.

Lemma scan_entries_reaches_after feed status cutoff_date l1 entry l2 all_episodes
    audio_url pd :
  (forall e, In e l1 -> in_range cutoff_date e) ->
  audio_of entry = Some audio_url ->
  pub_date_parsed_of entry = Ok pd ->
  too_old pd cutoff_date = false ->
  In (episode_data_of feed status entry audio_url pd)
     (fst (scan_entries feed status cutoff_date (l1 ++ entry :: l2) all_episodes)).
Proof.
  intros Hl1 Ha Hpd Hold. revert all_episodes.
  induction l1 as [|b l1 IH]; intros all_episodes; cbn [app scan_entries].
  - rewrite Ha, Hpd, Hold. apply AggregatorFacts.scan_entries_keeps.
    apply in_or_app. right. now left.
  - assert (IH' := IH (fun e He => Hl1 e (or_intror He))).
    destruct (audio_of b) as [a|] eqn:Hab; [|apply IH'].
    destruct (Hl1 b (or_introl eq_refl) a Hab) as (pdb & -> & ->). apply IH'.
Qed.

Lemma process_feed_nonempty parse status cutoff_date all_episodes feed entries :
  parse (feed_rss feed) = Ok entries -> entries <> [] ->
  process_feed parse status cutoff_date all_episodes feed
  = match sorted_desc tuple_ltb entry_sort_key entries with
    | Raise _ => all_episodes
    | Ok sorted_entries =>
        fst (scan_entries feed status cutoff_date sorted_entries all_episodes)
    end.
Proof.
  intros Hparse Hne. unfold process_feed. rewrite Hparse.
  now destruct entries.
Qed.

Section Dated.
Variable parse : string -> result (list Entry).
Variable status : StatusStore.
Variable cutoff_date : Z.
Variables (feed : Feed) (entries : list Entry).
Hypothesis Hparse : parse (feed_rss feed) = Ok entries.
Hypothesis Hdated :
  forall e, In e entries ->
    exists t d, entry_published_parsed e = Val t /\ of_struct_time t = Ok d.

Lemma dated_sorted :
  sorted_desc tuple_ltb entry_sort_key entries
  = Ok (sort_desc tuple_ltb entry_sort_key entries).
Proof.
  unfold sorted_desc. rewrite AggregatorFacts.has_none_false; [now rewrite andb_false_r|].
  intros e He. destruct (Hdated e He) as (t & d & -> & _). discriminate.
Qed.

Lemma dated_desc_trans x y z :
  In x entries -> In y entries -> In z entries ->
  desc tuple_ltb entry_sort_key x y -> desc tuple_ltb entry_sort_key y z ->
  desc tuple_ltb entry_sort_key x z.
Proof.
  intros Hx Hy Hz. unfold desc, key_lt, entry_sort_key.
  destruct (Hdated x Hx) as (tx & dx & -> & _).
  destruct (Hdated y Hy) as (ty & dy & -> & _).
  destruct (Hdated z Hz) as (tz & dz & -> & _).
  intros Hxy Hyz. destruct (tuple_ltb (st_tuple tx) (st_tuple tz)) eqn:Hxz; [|reflexivity].
  destruct (tuple_ltb_between _ (st_tuple ty) _ Hxz); congruence.
Qed.

Lemma dated_entry_listed all_episodes entry audio_url t d :
  In entry entries ->
  audio_of entry = Some audio_url ->
  entry_published_parsed entry = Val t ->
  of_struct_time t = Ok d ->
  cutoff_date <= instant d ->
  In (episode_data_of feed status entry audio_url (Some d))
     (process_feed parse status cutoff_date all_episodes feed).
Proof.
  intros Hin Ha Ht Hd Hcut.
  rewrite (process_feed_nonempty _ _ _ _ _ entries Hparse)
    by (intros Hnil; rewrite Hnil in Hin; destruct Hin).
  rewrite dated_sorted.
  set (sorted := sort_desc tuple_ltb entry_sort_key entries).
  assert (Hs : In entry sorted) by now apply PySortFacts.sort_desc_In.
  assert (Hsorted : Sorted (desc tuple_ltb entry_sort_key) sorted)
    by apply PySortFacts.sort_desc_sorted, tuple_ltb_asym.
  destruct (in_split _ _ Hs) as (l1 & l2 & Hsplit). rewrite Hsplit.
  apply scan_entries_reaches_after.
  - intros b Hb a Hab.
    assert (Hbs : In b sorted) by (rewrite Hsplit; apply in_or_app; now left).
    assert (Hbe : In b entries) by now apply PySortFacts.sort_desc_In in Hbs.
    destruct (Hdated b Hbe) as (tb & db & Htb & Hdb).
    exists (Some db). split.
    + unfold pub_date_parsed_of. now rewrite Htb, Hdb.
    + cbn [too_old]. apply Z.ltb_ge.
      apply list_elem_of_In, list_elem_of_lookup_1 in Hb as [i Hi].
      assert (Hdesc : desc tuple_ltb entry_sort_key b entry).
      { apply (ChronoFacts.sorted_lookup _ sorted Hsorted) with (i := i) (j := length l1).
        - intros x y z Hx Hy Hz. apply dated_desc_trans;
            now apply (PySortFacts.sort_desc_In tuple_ltb entry_sort_key).
        - apply lookup_lt_Some in Hi. exact Hi.
        - rewrite Hsplit. now apply lookup_app_l_Some.
        - rewrite Hsplit, lookup_app_r, Nat.sub_diag by lia. reflexivity. }
      pose proof (sorted_before_not_older b entry tb t db d Htb Hdb Ht Hd Hdesc). lia.
  - exact Ha.
  - unfold pub_date_parsed_of. now rewrite Ht, Hd.
  - cbn [too_old]. now apply Z.ltb_ge.
Qed.

End Dated.

(** X21.  For a feed whose entries all carry a valid parsed date the age
    filter is exact: the entries are visited newest first, so the early
    [break] on the first entry older than the cutoff skips older entries
    only, and every audio entry whose date is not older than the cutoff is
    collected; it is in the response whenever [limit] does not cut the
    list. *)
Theorem dated_feed_is_filtered_exactly parse feeds status cutoff_date feed entries
    entry audio_url t d :
  In feed feeds ->
  parse (feed_rss feed) = Ok entries ->
  (forall e, In e entries ->
     exists t d, entry_published_parsed e = Val t /\ of_struct_time t = Ok d) ->
  In entry entries ->
  audio_of entry = Some audio_url ->
  entry_published_parsed entry = Val t ->
  of_struct_time t = Ok d ->
  cutoff_date <= instant d ->
  In (episode_data_of feed status entry audio_url (Some d))
     (collect parse feeds status cutoff_date)
  /\ (forall now limit days res,
        minus_days now days = Ok cutoff_date ->
        list_episodes parse feeds status now limit days = Ok res ->
        Z.of_nat (length (collect parse feeds status cutoff_date)) <= limit ->
        In (episode_data_of feed status entry audio_url (Some d)) res).
Proof.
  intros Hfeed Hparse Hdated Hin Ha Ht Hd Hcut.
  assert (Hc : In (episode_data_of feed status entry audio_url (Some d))
                  (collect parse feeds status cutoff_date)).
  { destruct (in_split _ _ Hfeed) as (f1 & f2 & ->). unfold collect.
    rewrite fold_left_app. cbn [fold_left].
    apply AggregatorFacts.fold_process_feed_keeps.
    now apply (dated_entry_listed parse status cutoff_date feed entries Hparse Hdated
                 _ entry audio_url t d). }
  split; [exact Hc|].
  intros now limit days res Hminus Hres Hlimit.
  apply AggregatorFacts.list_episodes_Ok in Hres as (c & Hc' & _ & ->).
  rewrite Hminus in Hc'. injection Hc' as <-.
  rewrite AggregatorFacts.slice_to_all
    by (now rewrite PySortFacts.sort_desc_length).
  now apply PySortFacts.sort_desc_In.
Qed.

Lemma dated_feed_is_filtered_exactly_witness :
  In (episode_data_of Sample.pod ∅ Sample.recent "https://example.com/a.mp3"
        (Some {| year := 2024; month := 1; day := 2; hour := 3; minute := 4;
                 second := 5; microsecond := 0 |}))
     (collect (Sample.serve [Sample.old; Sample.recent]) [Sample.pod] ∅
        63837892800000000)
  /\ (forall now limit days res,
        minus_days now days = Ok 63837892800000000 ->
        list_episodes (Sample.serve [Sample.old; Sample.recent]) [Sample.pod] ∅
          now limit days = Ok res ->
        Z.of_nat (length (collect (Sample.serve [Sample.old; Sample.recent])
                            [Sample.pod] ∅ 63837892800000000)) <= limit ->
        In (episode_data_of Sample.pod ∅ Sample.recent "https://example.com/a.mp3"
              (Some {| year := 2024; month := 1; day := 2; hour := 3; minute := 4;
                       second := 5; microsecond := 0 |})) res).
Proof.
  apply (dated_feed_is_filtered_exactly (Sample.serve [Sample.old; Sample.recent])
           [Sample.pod] ∅ 63837892800000000 Sample.pod [Sample.old; Sample.recent]
           Sample.recent "https://example.com/a.mp3" (Sample.utc 2024 1 2 3 4 5)).
  - now left.
  - reflexivity.
  - intros e [<-|[<-|[]]]; eexists _, _; split; reflexivity.
  - right. now left.
  - reflexivity.
  - reflexivity.
  - reflexivity.
  - vm_compute. discriminate.
Defined.

End DatedFeedFacts.

Module HandlerFacts.
Import Server.



(** X23.  Task Records leave the registry in [GET /episodes] only, which
    sweeps before anything else: whatever that request then returns or
    raises, [GET /task-status] afterwards answers 404 for a task that was
    unknown or that the sweep removed, and returns the unchanged record of
    every other task. *)
Theorem task_status_after_sweep o limit days w task_id :
  let w' := fst (get_episodes o limit days w) in
  (background_tasks w !! task_id = None ->
   get_task_status task_id w' = Raise (mk_exn (HTTPException 404) "Task not found"))
  /\ (forall r,
        background_tasks w !! task_id = Some r ->
        (task_status r = "completed" \/ task_status r = "error")
        /\ 3600 * 1000000
           < DateTime.instant (now_local o)
             - DateTime.instant (default Registry.default_created_at (task_created_at r)) ->
        get_task_status task_id w'
        = Raise (mk_exn (HTTPException 404) "Task not found"))
  /\ (forall r,
        background_tasks w !! task_id = Some r ->
        ~ ((task_status r = "completed" \/ task_status r = "error")
           /\ 3600 * 1000000
              < DateTime.instant (now_local o)
                - DateTime.instant
                    (default Registry.default_created_at (task_created_at r))) ->
        get_task_status task_id w' = Ok r)
  /\ status_file w' = status_file w
  /\ transcripts w' = transcripts w
  /\ threads w' = threads w.
Proof.
  intros w'. subst w'. unfold get_episodes, get_task_status.
  cbn [fst background_tasks set_tasks]. rewrite RegistryFacts.cleanup_lookup.
  split; [now intros ->|]. split; [|split; [|repeat split]].
  - intros r -> Hrem. apply RegistryFacts.to_remove_spec in Hrem. now rewrite Hrem.
  - intros r -> Hrem. destruct (Registry.to_remove (now_local o) r) eqn:Hr; [|reflexivity].
    apply RegistryFacts.to_remove_spec in Hr. contradiction.
Qed.

End HandlerFacts.

Module StageFacts.
Import Job JobFacts Scenario LifecycleFacts.

Section Early.
Variables (env : JobEnv) (episode_data : EpisodeData) (task_id : string).
Variables (w : World) (r : TaskRecord).
Hypothesis Hreg : background_tasks w !! task_id = Some r.

Lemma run_stages_no_audio :
  ed_audio_url episode_data = None \/ ed_audio_url episode_data = Some "" ->
  run_stages env episode_data task_id w
  = (set_tasks w (<[task_id := Registry.with_message "Starting transcription..."
                                 (Registry.with_status "running" r)]>
                    (background_tasks w)),
     Finished (Raise (mk_exn ValueError "No audio URL provided"))).
Proof.
  intros Hno. unfold run_stages.
  erewrite bindM_Ok by (apply set_task_registered; exact Hreg).
  erewrite bindM_Ok by (eapply set_task_again; reflexivity).
  cbv zeta. now destruct Hno as [-> | ->].
Qed.

Hypothesis Hurl : has_audio_url episode_data.

Lemma run_stages_makedirs e :
  je_makedirs env = Raise e ->
  snd (run_stages env episode_data task_id w) = Finished (Raise e).
Proof.
  intros Hmk. destruct Hurl as (audio_url & Hau & Hne). unfold run_stages.
  erewrite bindM_Ok by (apply set_task_registered; exact Hreg).
  erewrite bindM_Ok by (eapply set_task_again; reflexivity).
  cbv zeta. rewrite Hau. cbn [default from_option id].
  rewrite (truthy_ne _ Hne). cbn [negb]. rewrite Hmk. reflexivity.
Qed.

Lemma run_stages_download e :
  je_makedirs env = Ok tt ->
  je_audio_present env = false ->
  je_download env = Raise e ->
  snd (run_stages env episode_data task_id w) = Finished (Raise e).
Proof.
  intros Hmk Hpresent Hdl. destruct Hurl as (audio_url & Hau & Hne). unfold run_stages.
  erewrite bindM_Ok by (apply set_task_registered; exact Hreg).
  erewrite bindM_Ok by (eapply set_task_again; reflexivity).
  cbv zeta. rewrite Hau. cbn [default from_option id].
  rewrite (truthy_ne _ Hne). cbn [negb]. rewrite Hmk.
  erewrite bindM_Ok by reflexivity.
  erewrite bindM_Ok by (eapply set_task_again; reflexivity).
  unfold download_audio. rewrite Hpresent, Hdl. reflexivity.
Qed.

(** The stages in front of the provider work. *)
Hypothesis Hmk : je_makedirs env = Ok tt.
Hypothesis Hdl : je_audio_present env = true \/ je_download env = Ok tt.

Lemma run_stages_to_provider :
  run_stages env episode_data task_id w
  = (transcript <~ transcribe_with_gladia env task_id;;
     save_transcript env (folder_path episode_data) transcript)
      (set_tasks w (<[task_id := Registry.with_message "Transcribing audio..."
                                   (Registry.with_status "running" r)]>
                      (background_tasks w))).
Proof.
  destruct Hurl as (audio_url & Hau & Hne). unfold run_stages.
  erewrite bindM_Ok by (apply set_task_registered; exact Hreg).
  erewrite bindM_Ok by (eapply set_task_again; reflexivity).
  cbv zeta. rewrite Hau. cbn [default from_option id].
  rewrite (truthy_ne _ Hne). cbn [negb].
  rewrite Hmk. erewrite bindM_Ok by reflexivity.
  erewrite bindM_Ok by (eapply set_task_again; reflexivity).
  rewrite (download_audio_Ok _ _ Hdl). erewrite bindM_Ok by reflexivity.
  erewrite bindM_Ok by (eapply set_task_again; reflexivity).
  reflexivity.
Qed.

Lemma run_stages_provider_raises w1 e :
  upload_and_poll env task_id
    (set_tasks w (<[task_id := Registry.with_message "Transcribing audio..."
                                 (Registry.with_status "running" r)]>
                    (background_tasks w)))
  = (w1, Finished (Raise e)) ->
  run_stages env episode_data task_id w
  = (w1, Finished (Raise (mk_exn RuntimeError ("Transcription error: " +:+ exn_str e)))).
Proof.
  intros Hup. rewrite run_stages_to_provider. unfold bindM at 1.
  unfold transcribe_with_gladia. now rewrite Hup.
Qed.

End Early.

(** X24.  Which stage fails decides the text that is recorded.  Without an
    audio URL (the key missing or empty) the job raises [ValueError] with
    [No audio URL provided] right after marking the task as running.  A
    failure of [os.makedirs] or of the download is recorded with its own
    text.  Everything raised inside [transcribe_with_gladia] (reading the
    audio file, the upload, the submission, a submission that names no
    [result_url]) is recorded as a [RuntimeError] whose text starts with
    [Transcription error: ], and in none of these cases a poll request is
    made. *)
Theorem stage_failures env episode_data task_id w r :
  background_tasks w !! task_id = Some r ->
  (ed_audio_url episode_data = None \/ ed_audio_url episode_data = Some "" ->
   snd (run_stages env episode_data task_id w)
   = Finished (Raise (mk_exn ValueError "No audio URL provided")))
  /\ (has_audio_url episode_data ->
      (forall e, je_makedirs env = Raise e ->
         snd (run_stages env episode_data task_id w) = Finished (Raise e))
      /\ (forall e, je_makedirs env = Ok tt -> je_audio_present env = false ->
            je_download env = Raise e ->
            snd (run_stages env episode_data task_id w) = Finished (Raise e))
      /\ (je_makedirs env = Ok tt ->
          je_audio_present env = true \/ je_download env = Ok tt ->
          (forall e, je_read_audio env = Raise e ->
             snd (run_stages env episode_data task_id w)
             = Finished (Raise (mk_exn RuntimeError
                                  ("Transcription error: " +:+ exn_str e))))
          /\ (forall e, je_read_audio env = Ok tt -> je_upload env = Raise e ->
                snd (run_stages env episode_data task_id w)
                = Finished (Raise (mk_exn RuntimeError
                                     ("Transcription error: " +:+ exn_str e))))
          /\ (forall e audio_url,
                je_read_audio env = Ok tt -> je_upload env = Ok audio_url ->
                je_submit env = Raise e ->
                snd (run_stages env episode_data task_id w)
                = Finished (Raise (mk_exn RuntimeError
                                     ("Transcription error: " +:+ exn_str e))))
          /\ (forall audio_url,
                je_read_audio env = Ok tt -> je_upload env = Ok audio_url ->
                je_submit env = Ok None \/ je_submit env = Ok (Some "") ->
                snd (run_stages env episode_data task_id w)
                = Finished (Raise (mk_exn RuntimeError
                                     "Transcription error: No result_url in response"))))).
Proof.
  intros Hreg. split.
  { intros Hno. now rewrite (run_stages_no_audio env episode_data task_id w r Hreg Hno). }
  intros Hurl. split; [intros e; now apply (run_stages_makedirs _ _ _ _ r)|].
  split; [intros e; now apply (run_stages_download _ _ _ _ r)|].
  intros Hmk Hdl.
  assert (Hraise : forall e,
            snd (upload_and_poll env task_id
                   (set_tasks w (<[task_id := Registry.with_message "Transcribing audio..."
                                                (Registry.with_status "running" r)]>
                                   (background_tasks w))))
            = Finished (Raise e) ->
            snd (run_stages env episode_data task_id w)
            = Finished (Raise (mk_exn RuntimeError
                                 ("Transcription error: " +:+ exn_str e)))).
  { intros e He.
    destruct (upload_and_poll env task_id _) as [w1 res] eqn:Hup. cbn [snd] in He.
    subst res.
    now rewrite (run_stages_provider_raises env episode_data task_id w r Hreg Hurl
                   Hmk Hdl w1 e Hup). }
  split; [|split; [|split]].
  - intros e Hread. apply Hraise. unfold upload_and_poll. now rewrite Hread.
  - intros e Hread Hup. apply Hraise. unfold upload_and_poll. now rewrite Hread, Hup.
  - intros e a Hread Hup Hsub. apply Hraise. unfold upload_and_poll.
    now rewrite Hread, Hup, Hsub.
  - intros a Hread Hup Hsub.
    apply (Hraise (mk_exn RuntimeError "No result_url in response")).
    unfold upload_and_poll. rewrite Hread, Hup.
    now destruct Hsub as [-> | ->].
Qed.

Lemma stage_failures_witness :
  snd (run_stages Sample.env_no_audio Sample.target Sample.task (Sample.world true))
  = Finished (Raise (mk_exn OSError "404 Client Error: Not Found")).
Proof.
  refine (proj1 (proj2 (proj2 (stage_failures Sample.env_no_audio Sample.target
                                 Sample.task (Sample.world true) Sample.pending _) _))
            (mk_exn OSError "404 Client Error: Not Found") _ _ _).
  - reflexivity.
  - exists "https://example.com/a.mp3". split; [reflexivity|discriminate].
  - reflexivity.
  - reflexivity.
  - reflexivity.
Defined.

(** X25.  The polling loop has no timeout.  While every response of the
    provider sends the loop back to sleep, the job does not finish: the
    task stays [running] with the last polled status as its message, and
    neither a Status Record nor a transcript is written. *)
Theorem job_keeps_polling env episode_data task_id w r sleeps :
  background_tasks w !! task_id = Some r ->
  has_audio_url episode_data ->
  reaches_polling env ->
  je_polls env = map Ok sleeps ->
  Forall (fun d => Normalizer.on_response d = Normalizer.Sleep) sleeps ->
  exists w' r',
    transcribe_episode env episode_data task_id w = (w', Polling)
    /\ background_tasks w' = <[task_id := r']> (background_tasks w)
    /\ task_status r' = "running"
    /\ task_message r'
       = match last (map p_status sleeps) with
         | Some status => "Transcription status: " +:+ status
         | None => "Transcribing audio..."
         end
    /\ status_file w' = status_file w
    /\ transcripts w' = transcripts w
    /\ threads w' = threads w.
Proof.
  intros Hreg Hurl Henv Hpolls Hsleeps.
  assert (Hloop : forall w1 r1,
            background_tasks w1 !! task_id = Some r1 ->
            poll_loop task_id (map Ok sleeps) w1
            = (set_tasks w1
                 (<[task_id :=
                      match last (map p_status sleeps) with
                      | Some status =>
                          Registry.with_message ("Transcription status: " +:+ status) r1
                      | None => r1
                      end]> (background_tasks w1)),
               Polling)).
  { clear Hpolls. induction Hsleeps as [|d ds Hd _ IH]; intros w1 r1 Hr1.
    - cbn. unfold set_tasks. rewrite insert_id by exact Hr1. now destruct w1.
    - cbn [map poll_loop].
      rewrite (bindM_Ok _ _ w1 w1 d) by reflexivity.
      erewrite bindM_Ok by (apply set_task_registered; exact Hr1).
      rewrite Hd. erewrite IH by apply lookup_insert_eq.
      cbn [background_tasks set_tasks]. rewrite insert_insert_eq.
      cbn [map]. destruct ds as [|d' ds]; [reflexivity|].
      cbn [map]. rewrite last_cons_cons.
      destruct (last (p_status d' :: map p_status ds)) eqn:Hlast; [reflexivity|].
      apply last_None in Hlast. discriminate. }
  destruct Henv as (Hmk & Hdl & Henv').
  eexists _, _. split.
  - unfold transcribe_episode, try_block.
    erewrite bindM_Polling; [reflexivity|].
    rewrite (run_stages_reaches env episode_data task_id w r Hreg Hurl
               (conj Hmk (conj Hdl Henv'))).
    erewrite bindM_Polling; [reflexivity|].
    unfold transcribe_with_gladia.
    rewrite (upload_and_poll_polls env task_id (conj Hmk (conj Hdl Henv'))), Hpolls.
    erewrite Hloop by apply lookup_insert_eq. reflexivity.
  - cbn [background_tasks set_tasks status_file transcripts threads].
    rewrite insert_insert_eq. split; [reflexivity|].
    destruct (last (map p_status sleeps)); repeat split.
Qed.

Lemma job_keeps_polling_witness :
  exists w' r',
    transcribe_episode
      {| je_makedirs := Ok tt; je_audio_present := true; je_download := Ok tt;
         je_read_audio := Ok tt; je_upload := Ok "https://api.gladia.io/file/1";
         je_submit := Ok (Some "https://api.gladia.io/v2/pre-recorded/1");
         je_polls := map Ok [Sample.processing; Sample.empty_transcription];
         je_write_transcript := Ok tt; je_now := Sample.now |}
      Sample.target Sample.task (Sample.world true) = (w', Polling)
    /\ background_tasks w' = <[Sample.task := r']> (background_tasks (Sample.world true))
    /\ task_status r' = "running"
    /\ task_message r' = "Transcription status: done"
    /\ status_file w' = None
    /\ transcripts w' = ∅
    /\ threads w' = [].
Proof.
  apply (job_keeps_polling
           {| je_makedirs := Ok tt; je_audio_present := true; je_download := Ok tt;
              je_read_audio := Ok tt; je_upload := Ok "https://api.gladia.io/file/1";
              je_submit := Ok (Some "https://api.gladia.io/v2/pre-recorded/1");
              je_polls := map Ok [Sample.processing; Sample.empty_transcription];
              je_write_transcript := Ok tt; je_now := Sample.now |}
           Sample.target Sample.task (Sample.world true) Sample.pending
           [Sample.processing; Sample.empty_transcription]).
  - reflexivity.
  - exists "https://example.com/a.mp3". split; [reflexivity|discriminate].
  - split; [reflexivity|]. split; [now left|]. split; [reflexivity|].
    split; [now eexists|]. eexists. split; [reflexivity|discriminate].
  - reflexivity.
  - repeat constructor.
Defined.

End StageFacts.
